(** * thrylos-solutions-hub: the PM OTP verification function and the admin
      analytics aggregator

    Two parts of the repository are embedded here:

    - [VerifyOtp]: the request handler of
      [supabase/functions/pm-verify-otp/index.ts], as a function of the
      request, the contents of the two tables it touches and the values its
      runtime hands it (the clock, the random UUID, the outcome of each
      call to the store);
    - [Analytics]: the four [useMemo] aggregations of
      [src/components/admin/AnalyticsCharts.tsx], over a model of the plain
      JavaScript objects they use as counters. *)

From Stdlib Require Import List String Ascii ZArith NArith Bool Arith Lia.
From Stdlib Require Import Permutation.
Import ListNotations.

Set Implicit Arguments.

(* ===================================================================== *)
(** * Part I: supabase/functions/pm-verify-otp/index.ts                   *)
(* ===================================================================== *)

Module VerifyOtp.

Local Open Scope string_scope.
Local Open Scope Z_scope.

(** ** The tables *)

(** A row of [otp_verifications]; the handler reads the columns [id],
    [email], [otp_code], [verified], [expires_at] and [created_at].
    Timestamps are instants on one time line, as integers. *)
Record otp_row := {
  otp_id : string;
  otp_email : string;
  otp_code : string;
  verified : bool;
  expires_at : Z;
  created_at : Z
}.

(** A row of [project_managers]; [phone] and [specialization] are nullable. *)
Record pm_row := {
  pm_id : string;
  pm_name : string;
  pm_email : string;
  pm_phone : option string;
  pm_specialization : option string;
  pm_is_available : bool
}.

Record database := {
  otp_verifications : list otp_row;
  project_managers : list pm_row
}.

(** Every call the handler makes on the query client, in order. *)
Inductive db_op :=
| Select (table : string)
| Update (table : string) (row_id : string).

Definition is_mutation (op : db_op) : bool :=
  match op with
  | Select _ => false
  | Update _ _ => true
  end.

(** ** The request and the response *)

(** A field of the destructured request body: absent ([undefined]) or any
    JSON value.  The handler does two things with a field, it tests it with
    [!] and it hands it to [.eq], which writes it into the filter as
    [`eq.${value}`]; a number is therefore given by whether it is zero and
    by the text it is written as, an array or an object by the text it is
    written as. *)
Inductive json_field :=
| Undefined
| Null
| Str (s : string)
| Boolean (b : bool)
| Number (is_zero : bool) (text : string)
| Composite (text : string).

(** JavaScript truthiness, as [!email] reads it: [undefined], [null], the
    empty string, [false] and [0] are falsy, everything else is truthy. *)
Definition truthy (v : json_field) : bool :=
  match v with
  | Undefined | Null => false
  | Str s => negb (s =? "")%string
  | Boolean b => b
  | Number is_zero _ => negb is_zero
  | Composite _ => true
  end.

(** [await req.json()] followed by the destructuring [{ email, otp }]: either
    it throws (a [SyntaxError] for a body that is not JSON, a [TypeError] for
    the body [null]; both are [Error]s, so the [catch] block reads their
    [message]), or it yields the two fields. *)
Inductive request_body :=
| Throws (message : string)
| JsonBody (email otp : json_field).

Record request := {
  method : string;
  body : request_body
}.

(** The subset of the PM row the success response carries. *)
Record pm_public := {
  id : string;
  name : string;
  email : string;
  phone : option string;
  specialization : option string;
  is_available : bool
}.

Inductive response_body :=
| NoBody
| ErrorBody (error : string)
| LoginBody (success : bool) (message : string) (pm : pm_public)
            (sessionToken : string).

Record response := {
  status : Z;
  headers : list (string * string);
  payload : response_body
}.

Definition corsHeaders : list (string * string) :=
  [ ("Access-Control-Allow-Origin", "*");
    ("Access-Control-Allow-Headers",
     "authorization, x-client-info, apikey, content-type") ].

Definition jsonHeaders : list (string * string) :=
  (corsHeaders ++ [ ("Content-Type", "application/json") ])%list.

Definition json_response (code : Z) (b : response_body) : response :=
  {| status := code; headers := jsonHeaders; payload := b |}.

(** ** What the runtime supplies to one invocation *)

(** [now] is [new Date()], [randomUUID] the value [crypto.randomUUID()]
    returns.  The query client never throws: a call that fails comes back
    as [{ data: null, error }], and the three flags say which of the three
    calls of this invocation fail that way. *)
Record env := {
  now : Z;
  randomUUID : string;
  otp_select_fails : bool;
  otp_update_fails : bool;
  pm_select_fails : bool
}.

Definition store_reachable (e : env) : Prop :=
  otp_select_fails e = false /\
  otp_update_fails e = false /\
  pm_select_fails e = false.

(** ** The query client *)

(** [{ data, error }] of a [.single()] query. *)
Inductive query_result (A : Type) :=
| Data (row : A)
| QueryError.
Arguments Data {A} row.
Arguments QueryError {A}.

(** [.eq(column, value)] on a text column: the column equals the text the
    value is written as (the handler never filters on [undefined] or
    [null], which are falsy). *)
Definition eq_text (column : string) (value : json_field) : bool :=
  match value with
  | Str s => (column =? s)%string
  | Undefined | Null => false
  | Boolean b => (column =? (if b then "true" else "false"))%string
  | Number _ text => (column =? text)%string
  | Composite text => (column =? text)%string
  end.

Section OrderBy.
Variable A : Type.
Variable key : A -> Z.

(** [.order(key, { ascending: false })]: rows by descending [key]; rows
    with equal keys keep the order of the table. *)
Fixpoint insert_desc (x : A) (rows : list A) : list A :=
  match rows with
  | [] => [x]
  | y :: rest =>
      if key y <=? key x then x :: y :: rest
      else y :: insert_desc x rest
  end.

Definition order_desc (rows : list A) : list A :=
  fold_right insert_desc [] rows.

(** [m] has the greatest key among [rows]. *)
Definition leads (m : A) (rows : list A) : Prop :=
  forall r, In r rows -> key r <= key m.
End OrderBy.

(** [.limit(n)]. *)
Definition limit (A : Type) (n : nat) (rows : list A) : list A :=
  firstn n rows.

(** [.single()]: the row when the result has exactly one, an error
    otherwise. *)
Definition single (A : Type) (rows : list A) : query_result A :=
  match rows with
  | [r] => Data r
  | _ => QueryError
  end.

(** The rows the four filters of the OTP query keep. *)
Definition otp_filter (t : Z) (email otp : json_field) (r : otp_row) : bool :=
  eq_text (otp_email r) email
  && eq_text (otp_code r) otp
  && Bool.eqb (verified r) false
  && (t <? expires_at r).

Definition otp_candidates (t : Z) (email otp : json_field)
    (rows : list otp_row) : list otp_row :=
  filter (otp_filter t email otp) rows.

Definition otp_query (t : Z) (email otp : json_field)
    (rows : list otp_row) : query_result otp_row :=
  single (limit 1 (order_desc created_at (otp_candidates t email otp rows))).

(** [.update({ verified: true }).eq("id", id)]. *)
Definition set_verified (r : otp_row) : otp_row :=
  {| otp_id := otp_id r; otp_email := otp_email r; otp_code := otp_code r;
     verified := true; expires_at := expires_at r;
     created_at := created_at r |}.

Definition mark_verified (row_id : string) (rows : list otp_row)
    : list otp_row :=
  map (fun r => if (otp_id r =? row_id)%string then set_verified r else r) rows.

Definition pm_query (email : json_field) (rows : list pm_row)
    : query_result pm_row :=
  single (filter (fun p => eq_text (pm_email p) email) rows).

(** ** The handler monad: the tables, the log of store calls, early return *)

Definition world : Type := database * list db_op.

Inductive step (A : Type) :=
| Next (a : A)
| Respond (r : response).
Arguments Next {A} a.
Arguments Respond {A} r.

Definition handler (A : Type) : Type := world -> step A * world.

Definition ret {A : Type} (a : A) : handler A := fun w => (Next a, w).

Definition respond {A : Type} (r : response) : handler A :=
  fun w => (Respond r, w).

Definition bind {A B : Type} (m : handler A) (k : A -> handler B)
    : handler B :=
  fun w =>
    match m w with
    | (Next a, w') => k a w'
    | (Respond r, w') => (Respond r, w')
    end.

Notation "x <- m ;; k" := (bind m (fun x => k))
  (at level 61, m at next level, right associativity).
Notation "m ;;; k" := (bind m (fun _ => k))
  (at level 61, right associativity).

Definition log (op : db_op) : handler unit :=
  fun w => (Next tt, (fst w, (snd w ++ [op])%list)).

Definition read_db : handler database := fun w => (Next (fst w), w).

Definition write_otps (rows : list otp_row) : handler unit :=
  fun w =>
    (Next tt,
     ({| otp_verifications := rows;
         project_managers := project_managers (fst w) |}, snd w)).

(** [return new Response(...)] when [cond] holds. *)
Definition return_if (cond : bool) (r : response) : handler unit :=
  if cond then respond r else ret tt.

(** The three awaited store calls. *)
Definition select_otp (e : env) (email otp : json_field)
    : handler (query_result otp_row) :=
  log (Select "otp_verifications") ;;;
  db <- read_db ;;
  ret (if otp_select_fails e then QueryError
       else otp_query (now e) email otp (otp_verifications db)).

Definition update_otp_verified (e : env) (row_id : string) : handler unit :=
  log (Update "otp_verifications" row_id) ;;;
  db <- read_db ;;
  if otp_update_fails e then ret tt
  else write_otps (mark_verified row_id (otp_verifications db)).

Definition select_pm (e : env) (email : json_field)
    : handler (query_result pm_row) :=
  log (Select "project_managers") ;;;
  db <- read_db ;;
  ret (if pm_select_fails e then QueryError
       else pm_query email (project_managers db)).

Definition public_fields (p : pm_row) : pm_public :=
  {| id := pm_id p; name := pm_name p; email := pm_email p;
     phone := pm_phone p; specialization := pm_specialization p;
     is_available := pm_is_available p |}.

(** ** The handler passed to [serve] *)

Definition options_response : response :=
  {| status := 200; headers := corsHeaders; payload := NoBody |}.

Definition missing_fields_response : response :=
  json_response 400 (ErrorBody "Email and OTP are required").

Definition invalid_otp_response : response :=
  json_response 400 (ErrorBody "Invalid or expired OTP").

Definition pm_not_found_response : response :=
  json_response 404 (ErrorBody "Project manager not found").

Definition login_response (p : pm_row) (token : string) : response :=
  json_response 200
    (LoginBody true "Login successful" (public_fields p) token).

Definition verify (e : env) (req : request) : handler response :=
  if (method req =? "OPTIONS")%string then respond options_response
  else
    match body req with
    | Throws message => respond (json_response 500 (ErrorBody message))
    | JsonBody email otp =>
        return_if (negb (truthy email) || negb (truthy otp))
                  missing_fields_response ;;;
        otpData <- select_otp e email otp ;;
        match otpData with
        | QueryError => respond invalid_otp_response
        | Data otpRow =>
            update_otp_verified e (otp_id otpRow) ;;;
            pm <- select_pm e email ;;
            match pm with
            | QueryError => respond pm_not_found_response
            | Data pmRow =>
                let sessionToken := randomUUID e in
                ret (login_response pmRow sessionToken)
            end
        end
    end.

(** One invocation, starting from tables [db] and an empty log: the response
    returned (early or last), the tables afterwards and the store calls
    made. *)
Record outcome := {
  reply : response;
  db_after : database;
  db_calls : list db_op
}.

Definition run (h : handler response) (w : world) : response * world :=
  match h w with
  | (Next r, w') => (r, w')
  | (Respond r, w') => (r, w')
  end.

Definition serve (e : env) (req : request) (db : database) : outcome :=
  let '(r, (db', calls)) := run (verify e req) (db, []) in
  {| reply := r; db_after := db'; db_calls := calls |}.

(** ** Vocabulary of the properties and sample data *)

(** A row the OTP query accepts at time [t] for an email and a code: same
    email, same code, unverified, not yet expired. *)
Definition candidate (t : Z) (mail code : string) (r : otp_row) : Prop :=
  otp_email r = mail /\ otp_code r = code /\
  verified r = false /\ t < expires_at r.

(** The tables once the update of row [m] has been attempted. *)
Definition after_update (e : env) (db : database) (m : otp_row) : database :=
  if otp_update_fails e then db
  else {| otp_verifications := mark_verified (otp_id m) (otp_verifications db);
          project_managers := project_managers db |}.

(** The store calls of an invocation that matched row [m]. *)
Definition full_trace (m : otp_row) : list db_op :=
  [ Select "otp_verifications";
    Update "otp_verifications" (otp_id m);
    Select "project_managers" ].

(** A body field that is missing ([undefined] or [null]) or empty. *)
Definition missing_or_empty (v : json_field) : Prop :=
  v = Undefined \/ v = Null \/ v = Str "".


(** The text a field stands for in a comparison with a text column. *)
Definition text_of (v : json_field) : option string :=
  match v with
  | Undefined | Null => None
  | Str s => Some s
  | Boolean true => Some "true"
  | Boolean false => Some "false"
  | Number _ text => Some text
  | Composite text => Some text
  end.

(** A second [project_managers] row with the email of [sample_pm], and
    tables that hold both. *)
Definition twin_pm : pm_row :=
  {| pm_id := "pm-7"; pm_name := "Asha K"; pm_email := "asha@example.com";
     pm_phone := None; pm_specialization := Some "Web";
     pm_is_available := false |}.

(** The same invocation, with the outcome of the update call chosen. *)
Definition with_update_outcome (fails : bool) (e : env) : env :=
  {| now := now e; randomUUID := randomUUID e;
     otp_select_fails := otp_select_fails e;
     otp_update_fails := fails;
     pm_select_fails := pm_select_fails e |}.

Definition post (mail otp : json_field) : request :=
  {| method := "POST"; body := JsonBody mail otp |}.

Definition sample_pm : pm_row :=
  {| pm_id := "pm-1"; pm_name := "Asha"; pm_email := "asha@example.com";
     pm_phone := Some "5550100"; pm_specialization := None;
     pm_is_available := true |}.

(** Two codes issued to the same address, neither used nor expired at
    time [500]. *)
Definition older_otp : otp_row :=
  {| otp_id := "otp-1"; otp_email := "asha@example.com";
     otp_code := "111111"; verified := false;
     expires_at := 1000; created_at := 100 |}.

Definition newer_otp : otp_row :=
  {| otp_id := "otp-2"; otp_email := "asha@example.com";
     otp_code := "222222"; verified := false;
     expires_at := 1100; created_at := 200 |}.

Definition sample_db : database :=
  {| otp_verifications := [older_otp; newer_otp];
     project_managers := [sample_pm] |}.

(** The same codes, with no project manager on record. *)
Definition orphan_db : database :=
  {| otp_verifications := [older_otp; newer_otp];
     project_managers := [] |}.

Definition sample_env : env :=
  {| now := 500; randomUUID := "0b9f5c1e-7d2a-4c1b-9e57-2f6f0c3a8d41";
     otp_select_fails := false; otp_update_fails := false;
     pm_select_fails := false |}.

Definition twin_db : database :=
  {| otp_verifications := [older_otp; newer_otp];
     project_managers := [sample_pm; twin_pm] |}.

End VerifyOtp.

(* ===================================================================== *)
(** * Part II: src/components/admin/AnalyticsCharts.tsx                   *)
(* ===================================================================== *)

Module Analytics.

Local Open Scope string_scope.

Record ServiceRequest := {
  request_id : string;
  title : string;
  status : string;
  priority : string;
  service_type : option string;
  created_at : string;
  assigned_pm_id : option string
}.

Record ProjectManager := {
  id : string;
  name : string;
  is_available : bool
}.

(** ** Strings: the two [replace] calls of the status label

    A string is its sequence of code units; the two regular expressions
    only ever match ASCII units ([_] and [\w] without the [u] flag), and
    every other unit is copied. *)

Definition code (c : ascii) : N := N_of_ascii c.

Definition between (lo hi c : ascii) : bool :=
  (code lo <=? code c)%N && (code c <=? code hi)%N.

Definition is_lower (c : ascii) : bool := between "a" "z" c.
Definition is_upper (c : ascii) : bool := between "A" "Z" c.
Definition is_digit (c : ascii) : bool := between "0" "9" c.

(** The class [\w]: [[A-Za-z0-9_]]. *)
Definition is_word (c : ascii) : bool :=
  is_lower c || is_upper c || is_digit c || Ascii.eqb c "_".

(** [c.toUpperCase()] on one matched unit. *)
Definition toUpperCase (c : ascii) : ascii :=
  if is_lower c then ascii_of_N (code c - 32) else c.

(** [s.replace(/_/g, ' ')]. *)
Fixpoint replace_underscores (s : string) : string :=
  match s with
  | EmptyString => EmptyString
  | String c rest =>
      String (if Ascii.eqb c "_" then " "%char else c)
             (replace_underscores rest)
  end.

(** [s.replace(/\b\w/g, c => c.toUpperCase())]: a unit matches when it is a
    word unit and the unit before it (none at the start) is not;
    [after_word] says whether the previous unit of [s] was a word unit. *)
Fixpoint capitalize_from (after_word : bool) (s : string) : string :=
  match s with
  | EmptyString => EmptyString
  | String c rest =>
      String (if is_word c && negb after_word then toUpperCase c else c)
             (capitalize_from (is_word c) rest)
  end.

Definition capitalize_words (s : string) : string := capitalize_from false s.

Definition humanize (s : string) : string :=
  capitalize_words (replace_underscores s).

(** ** Plain objects used as counters ([Record<string, number>])

    The values that can end up in such an object here: a number, or the
    string [+] produces once its left operand is not a number. *)
Inductive jsvalue :=
| Num (n : nat)
| Text.

(** Own properties, in insertion order. *)
Definition jsobject : Type := list (string * jsvalue).

(** The property names every object inherits from [Object.prototype]. *)
Definition object_prototype_keys : list string :=
  [ "constructor"; "hasOwnProperty"; "isPrototypeOf";
    "propertyIsEnumerable"; "toLocaleString"; "toString"; "valueOf";
    "__defineGetter__"; "__defineSetter__"; "__lookupGetter__";
    "__lookupSetter__"; "__proto__" ].

Definition inherited (k : string) : bool :=
  existsb (String.eqb k) object_prototype_keys.

Fixpoint own (k : string) (o : jsobject) : option jsvalue :=
  match o with
  | [] => None
  | (k', v) :: rest => if k' =? k then Some v else own k rest
  end.

(** What [o[k]] reads. *)
Inductive property :=
| Own (v : jsvalue)
| Inherited
| Missing.

Definition get (k : string) (o : jsobject) : property :=
  match own k o with
  | Some v => Own v
  | None => if inherited k then Inherited else Missing
  end.

(** [(p || 0) + 1]: an inherited function or object is truthy and turns
    [+] into string concatenation, as does a string already stored. *)
Definition or_zero_plus_one (p : property) : jsvalue :=
  match p with
  | Own (Num n) => Num (n + 1)
  | Own Text => Text
  | Inherited => Text
  | Missing => Num 1
  end.

Fixpoint overwrite (k : string) (v : jsvalue) (o : jsobject) : jsobject :=
  match o with
  | [] => []
  | (k', v') :: rest =>
      if k' =? k then (k', v) :: rest else (k', v') :: overwrite k v rest
  end.

(** [o[k] = v] for a primitive [v]: the [__proto__] setter ignores it; an
    own property keeps its place; a new one is added last. *)
Definition set (k : string) (v : jsvalue) (o : jsobject) : jsobject :=
  if k =? "__proto__" then o
  else
    match own k o with
    | Some _ => overwrite k v o
    | None => (o ++ [(k, v)])%list
    end.

(** [counts[k] = (counts[k] || 0) + 1]. *)
Definition increment (k : string) (counts : jsobject) : jsobject :=
  set k (or_zero_plus_one (get k counts)) counts.

(** *** Enumeration order of [Object.entries]

    Own keys that are array indices (canonical decimal numerals below
    [2^32 - 1]) come first, in ascending numeric order; the other keys
    follow in insertion order. *)
Fixpoint decimal (s : string) (acc : N) : option N :=
  match s with
  | EmptyString => Some acc
  | String c rest =>
      if is_digit c then decimal rest (acc * 10 + (code c - code "0"))%N
      else None
  end.

Definition array_index (k : string) : option N :=
  match k with
  | EmptyString => None
  | String c rest =>
      if Ascii.eqb c "0" && negb (rest =? "") then None
      else
        match decimal k 0 with
        | Some n => if (n <? 2 ^ 32 - 1)%N then Some n else None
        | None => None
        end
  end.

Definition is_index (k : string) : bool :=
  match array_index k with
  | Some _ => true
  | None => false
  end.

Definition index_of (k : string) : N :=
  match array_index k with
  | Some n => n
  | None => 0%N
  end.

Section Entries.
Variable V : Type.

Fixpoint insert_index (e : string * V) (l : list (string * V))
    : list (string * V) :=
  match l with
  | [] => [e]
  | e' :: rest =>
      if (index_of (fst e) <=? index_of (fst e'))%N then e :: e' :: rest
      else e' :: insert_index e rest
  end.

Definition sort_index (l : list (string * V)) : list (string * V) :=
  fold_right insert_index [] l.

Definition entries (o : list (string * V)) : list (string * V) :=
  (sort_index (filter (fun e => is_index (fst e)) o)
   ++ filter (fun e => negb (is_index (fst e))) o)%list.
End Entries.

(** [l.slice(-n)] and [l.slice(0, n)]. *)
Definition slice_last (A : Type) (n : nat) (l : list A) : list A :=
  skipn (List.length l - n) l.

Definition slice_first (A : Type) (n : nat) (l : list A) : list A :=
  firstn n l.

(** [l.sort((a, b) => b[1] - a[1])].  When every value is a number the
    comparator is consistent and the result is the one the language fixes:
    descending, entries of equal count in their original order.  A
    comparison that involves a string yields [NaN], which [sort] reads as
    [0]; the comparator is then no longer consistent and the language leaves
    the order to the engine.  For such a list the definition below gives a
    permutation of the entries (that of a stable insertion from the right),
    which need not be the order a given engine produces: the properties
    that speak of the order are stated for numbers only. *)
Definition compare_desc (a b : string * jsvalue) : Z :=
  match snd a, snd b with
  | Num x, Num y => (Z.of_nat y - Z.of_nat x)%Z
  | _, _ => 0%Z
  end.

Fixpoint insert_sorted (a : string * jsvalue) (l : list (string * jsvalue))
    : list (string * jsvalue) :=
  match l with
  | [] => [a]
  | b :: rest =>
      if (compare_desc a b <=? 0)%Z then a :: b :: rest
      else b :: insert_sorted a rest
  end.

Definition sort_desc (l : list (string * jsvalue))
    : list (string * jsvalue) :=
  fold_right insert_sorted [] l.

(** [s || fallback] on an optional string. *)
Definition or_else (s : option string) (fallback : string) : string :=
  match s with
  | Some t => if t =? "" then fallback else t
  | None => fallback
  end.

(** [if (s)] on an optional string. *)
Definition present (s : option string) : bool :=
  match s with
  | Some t => negb (t =? "")
  | None => false
  end.

(** ** The four views

    Each view is the array its [useMemo] callback returns; an element
    [{ k1: a, k2: b }] is the pair [(a, b)]. *)
Section Views.
(** The bucket label of a [created_at] value, built from [Date] and the
    locale of the browser:
    [`${date.toLocaleString('default', { month: 'short' })} ${date.getFullYear()}`]. *)
Variable month_key : string -> string.

Definition requestTrends (requests : list ServiceRequest)
    : list (string * jsvalue) :=
  let months :=
    fold_left (fun months r => increment (month_key (created_at r)) months)
              requests [] in
  slice_last 6 (entries months).
End Views.

Definition statusDistribution (requests : list ServiceRequest)
    : list (string * jsvalue) :=
  let counts :=
    fold_left (fun counts r => increment (humanize (status r)) counts)
              requests [] in
  entries counts.

(** [projectManagers.find(p => p.id === wanted)]. *)
Definition find_pm (wanted : string) (projectManagers : list ProjectManager)
    : option ProjectManager :=
  find (fun p => id p =? wanted) projectManagers.

Definition pmWorkload (requests : list ServiceRequest)
    (projectManagers : list ProjectManager) : list (string * jsvalue) :=
  let seeded :=
    fold_left (fun workload pm => set (name pm) (Num 0) workload)
              projectManagers [] in
  let workload :=
    fold_left
      (fun workload r =>
         match assigned_pm_id r with
         | Some wanted =>
             if present (assigned_pm_id r) then
               match find_pm wanted projectManagers with
               | Some pm => increment (name pm) workload
               | None => workload
               end
             else workload
         | None => workload
         end)
      requests seeded in
  entries workload.

Definition popularServices (requests : list ServiceRequest)
    : list (string * jsvalue) :=
  let counts :=
    fold_left
      (fun counts r => increment (or_else (service_type r) "Unspecified") counts)
      requests [] in
  slice_first 6 (sort_desc (entries counts)).

(** ** Vocabulary of the properties and sample data *)

(** The distinct elements of [ks], each at its first appearance. *)
Fixpoint first_seen (ks : list string) : list string :=
  match ks with
  | [] => []
  | k :: rest => k :: remove string_dec k (first_seen rest)
  end.

Definition occurrences (ks : list string) (k : string) : nat :=
  count_occ string_dec ks k.

(** The object whose keys are [keys], in that order, with the number [f k]
    under [k]. *)
Definition tally (keys : list string) (f : string -> nat) : jsobject :=
  map (fun k => (k, Num (f k))) keys.

(** One bucket per distinct key of [ks], in order of first appearance, with
    the number of its occurrences. *)
Definition buckets (ks : list string) : list (string * jsvalue) :=
  tally (first_seen ks) (occurrences ks).

Definition labels (requests : list ServiceRequest) : list string :=
  map (fun r => humanize (status r)) requests.

(** Ascending array indices. *)
Fixpoint ascending (l : list (string * jsvalue)) : Prop :=
  match l with
  | [] => True
  | e :: rest =>
      (forall e', In e' rest -> (index_of (fst e) <= index_of (fst e'))%N)
      /\ ascending rest
  end.

(** The requests whose [assigned_pm_id] is the id of [pm]. *)
Definition assigned_to (pm : ProjectManager) (r : ServiceRequest) : bool :=
  match assigned_pm_id r with
  | Some wanted => wanted =? id pm
  | None => false
  end.

Definition assigned_count (requests : list ServiceRequest)
    (pm : ProjectManager) : nat :=
  List.length (filter (assigned_to pm) requests).

(** The name under which the workload loop counts a request, if any. *)
Definition counted_under (projectManagers : list ProjectManager)
    (r : ServiceRequest) : option string :=
  match assigned_pm_id r with
  | Some wanted =>
      if present (assigned_pm_id r) then
        option_map name (find_pm wanted projectManagers)
      else None
  | None => None
  end.

(** The number of requests the workload loop counts under [n]. *)
Definition projects_under (projectManagers : list ProjectManager)
    (requests : list ServiceRequest) (n : string) : nat :=
  List.length
    (filter (fun r => match counted_under projectManagers r with
                      | Some n' => n' =? n
                      | None => false
                      end)
            requests).

(** The names the workload object holds: the distinct PM names, [__proto__]
    apart. *)
Definition workload_keys (projectManagers : list ProjectManager)
    : list string :=
  first_seen (filter (fun n => negb (n =? "__proto__"))
                     (map name projectManagers)).

Definition request_with_status (s : string) : ServiceRequest :=
  {| request_id := "r"; title := "t"; status := s; priority := "normal";
     service_type := None; created_at := "2025-01-01T00:00:00Z";
     assigned_pm_id := None |}.

Definition request_assigned (pm_id : string) : ServiceRequest :=
  {| request_id := "r"; title := "t"; status := "pending";
     priority := "normal"; service_type := None;
     created_at := "2025-01-01T00:00:00Z";
     assigned_pm_id := Some pm_id |}.

Definition manager (pm_id pm_name : string) : ProjectManager :=
  {| id := pm_id; name := pm_name; is_available := true |}.

(** ** The palette of the pie and bar cells *)

Definition COLORS : list string :=
  [ "hsl(217, 91%, 60%)"; "hsl(142, 76%, 36%)"; "hsl(38, 92%, 50%)";
    "hsl(0, 84%, 60%)"; "hsl(280, 65%, 60%)"; "hsl(180, 65%, 45%)" ].

(** [COLORS[index % COLORS.length]], the fill of the cell at [index]. *)
Definition cell_fill (index : nat) : string :=
  nth (index mod List.length COLORS) COLORS "".

(** A string without [_]. *)
Fixpoint no_underscore (s : string) : Prop :=
  match s with
  | EmptyString => True
  | String c rest => Ascii.eqb c "_" = false /\ no_underscore rest
  end.

(** The keys of the other two counting loops. *)
Definition service_keys (requests : list ServiceRequest) : list string :=
  map (fun r => or_else (service_type r) "Unspecified") requests.

Definition month_keys (month_key : string -> string)
    (requests : list ServiceRequest) : list string :=
  map (fun r => month_key (created_at r)) requests.

(** The number an entry holds. *)
Definition count_of (b : string * jsvalue) : nat :=
  match snd b with
  | Num n => n
  | Text => 0
  end.

Definition is_num (b : string * jsvalue) : bool :=
  match snd b with
  | Num _ => true
  | Text => false
  end.

(** Entries by descending count. *)
Fixpoint descending (l : list (string * jsvalue)) : Prop :=
  match l with
  | [] => True
  | b :: rest =>
      (forall b', In b' rest -> count_of b' <= count_of b) /\ descending rest
  end.

(** The requests the workload loop counts under some name it holds. *)
Definition counted (projectManagers : list ProjectManager)
    (r : ServiceRequest) : bool :=
  match counted_under projectManagers r with
  | Some n => negb (n =? "__proto__")
  | None => false
  end.

Definition request_created (d : string) : ServiceRequest :=
  {| request_id := "r"; title := "t"; status := "pending";
     priority := "normal"; service_type := None; created_at := d;
     assigned_pm_id := None |}.

Definition request_of_type (t : option string) : ServiceRequest :=
  {| request_id := "r"; title := "t"; status := "pending";
     priority := "normal"; service_type := t;
     created_at := "2025-01-01T00:00:00Z"; assigned_pm_id := None |}.

(** Ten requests spread over eight months. *)
Definition eight_months : list ServiceRequest :=
  map request_created
      [ "2025-01-05"; "2025-02-11"; "2025-02-20"; "2025-03-02"; "2025-04-09";
        "2025-05-17"; "2025-06-23"; "2025-07-01"; "2025-07-30";
        "2025-08-14" ].

(** Fifteen requests of eight service types, two of them without a type. *)
Definition eight_services : list ServiceRequest :=
  map request_of_type
      [ Some "web"; Some "app"; None; Some "seo"; Some "web"; Some "logo";
        Some "ads"; Some "video"; Some "ads"; Some "print"; Some "web";
        Some "ads"; None; Some "seo"; Some "ads" ].

End Analytics.

(* ===================================================================== *)
(** * Part II b: the PM dashboard (the page component of the PM portal)   *)
(* ===================================================================== *)

(** The callbacks [fetchProjects], [updateStatus] and [saveNote] and the
    derived [stats] of the dashboard page.  A callback is followed from its
    call to its last statement with no other event of the page in
    between. *)
Module Dashboard.

Local Open Scope string_scope.
Local Open Scope list_scope.

(** ** Text as the browser sees it

    A string is the byte sequence of its UTF-8 encoding; the two places
    that look inside a string are written on that encoding. *)

Definition byte (c : ascii) : N := N_of_ascii c.

(** The one-byte white space and line terminators: TAB, LF, VT, FF, CR and
    the space. *)
Definition space1 (c1 : ascii) : bool :=
  ((9 <=? byte c1) && (byte c1 <=? 13))%N || (byte c1 =? 32)%N.

(** U+00A0. *)
Definition space2 (c1 c2 : ascii) : bool :=
  ((byte c1 =? 194) && (byte c2 =? 160))%N.

(** U+1680, U+2000 to U+200A, U+2028, U+2029, U+202F, U+205F, U+3000 and
    U+FEFF. *)
Definition space3 (c1 c2 c3 : ascii) : bool :=
  ((byte c1 =? 225) && (byte c2 =? 154) && (byte c3 =? 128))%N
  || ((byte c1 =? 226) && (byte c2 =? 128)
      && (((128 <=? byte c3) && (byte c3 <=? 138))
          || (byte c3 =? 168) || (byte c3 =? 169) || (byte c3 =? 175)))%N
  || ((byte c1 =? 226) && (byte c2 =? 129) && (byte c3 =? 159))%N
  || ((byte c1 =? 227) && (byte c2 =? 128) && (byte c3 =? 128))%N
  || ((byte c1 =? 239) && (byte c2 =? 187) && (byte c3 =? 191))%N.

(** [!s.trim()]: [s] holds nothing but white space and line terminators. *)
Fixpoint blank (s : string) : bool :=
  match s with
  | EmptyString => true
  | String c1 r1 =>
      if space1 c1 then blank r1
      else
        match r1 with
        | EmptyString => false
        | String c2 r2 =>
            if space2 c1 c2 then blank r2
            else
              match r2 with
              | EmptyString => false
              | String c3 r3 =>
                  if space3 c1 c2 c3 then blank r3 else false
              end
        end
  end.

(** ** Rows and component state *)

(** A row of [service_requests] as [select('*')] returns it: the fields of
    the component's [ServiceRequest] interface and the column the query
    filters on.  [created_at] is the instant the store orders by. *)
Record ServiceRequest := {
  id : string;
  title : string;
  description : string;
  status : string;
  priority : string;
  admin_response : option string;
  notes : option string;
  created_at : Z;
  service_type : option string;
  color_theme : option string;
  budget_range : option string;
  timeline : option string;
  company_name : option string;
  contact_email : option string;
  contact_phone : option string;
  user_id : string;
  assigned_pm_id : option string
}.

Record Profile := {
  profile_user_id : string;
  full_name : option string;
  profile_email : option string
}.

(** The two tables the page reads and writes. *)
Record store := {
  service_requests : list ServiceRequest;
  profiles_table : list Profile
}.

Inductive store_call :=
| SelectProjects (pmId : string)
| SelectProfiles (userIds : list string)
| UpdateStatus (projectId newStatus : string)
| UpdateNotes (projectId updatedNotes : string).

Record toast := {
  toast_title : string;
  toast_description : option string;
  toast_variant : option string
}.

Definition error_toast (message : string) : toast :=
  {| toast_title := "Error"; toast_description := Some message;
     toast_variant := Some "destructive" |}.

Definition plain_toast (t : string) : toast :=
  {| toast_title := t; toast_description := None; toast_variant := None |}.

(** A [Map<string, Profile>]: keys in order of first insertion. *)
Definition profile_map : Type := list (string * Profile).

Fixpoint map_has (k : string) (m : profile_map) : bool :=
  match m with
  | [] => false
  | (k', _) :: rest => (k' =? k) || map_has k rest
  end.

Fixpoint map_replace (k : string) (v : Profile) (m : profile_map)
    : profile_map :=
  match m with
  | [] => []
  | (k', v') :: rest =>
      if k' =? k then (k', v) :: rest else (k', v') :: map_replace k v rest
  end.

Definition map_set (k : string) (v : Profile) (m : profile_map)
    : profile_map :=
  if map_has k m then map_replace k v m else m ++ [(k, v)].

Fixpoint map_get (k : string) (m : profile_map) : option Profile :=
  match m with
  | [] => None
  | (k', v) :: rest => if k' =? k then Some v else map_get k rest
  end.

(** [new Map(entries)]. *)
Definition new_Map (entries : list (string * Profile)) : profile_map :=
  fold_left (fun m kv => map_set (fst kv) (snd kv) m) entries [].

(** The component state the three callbacks read and write. *)
Record state := {
  pm : option VerifyOtp.pm_public;
  projects : list ServiceRequest;
  profiles : profile_map;
  loading : bool;
  noteText : string;
  savingNote : bool
}.

(** Everything outside the component: the store, the calls made on it, the
    toasts shown, the session item (as the PM object its JSON text parses
    to) and the current route. *)
Record world := {
  db : store;
  calls : list store_call;
  toasts : list toast;
  session : option VerifyOtp.pm_public;
  location : string
}.

(** What the runtime supplies: which store calls fail, and the text of
    [new Date().toLocaleString()]. *)
Record env := {
  projects_select_fails : bool;
  profiles_select_fails : bool;
  status_update_fails : bool;
  notes_update_fails : bool;
  locale_now : string
}.

Definition set_projects (l : list ServiceRequest) (s : state) : state :=
  {| pm := pm s; projects := l; profiles := profiles s;
     loading := loading s; noteText := noteText s;
     savingNote := savingNote s |}.

Definition set_profiles (m : profile_map) (s : state) : state :=
  {| pm := pm s; projects := projects s; profiles := m;
     loading := loading s; noteText := noteText s;
     savingNote := savingNote s |}.

Definition set_loading (b : bool) (s : state) : state :=
  {| pm := pm s; projects := projects s; profiles := profiles s;
     loading := b; noteText := noteText s; savingNote := savingNote s |}.

Definition set_noteText (t : string) (s : state) : state :=
  {| pm := pm s; projects := projects s; profiles := profiles s;
     loading := loading s; noteText := t; savingNote := savingNote s |}.

Definition set_savingNote (b : bool) (s : state) : state :=
  {| pm := pm s; projects := projects s; profiles := profiles s;
     loading := loading s; noteText := noteText s; savingNote := b |}.

Definition set_pm (p : VerifyOtp.pm_public) (s : state) : state :=
  {| pm := Some p; projects := projects s; profiles := profiles s;
     loading := loading s; noteText := noteText s;
     savingNote := savingNote s |}.

Definition call (c : store_call) (w : world) : world :=
  {| db := db w; calls := calls w ++ [c]; toasts := toasts w;
     session := session w; location := location w |}.

Definition show (t : toast) (w : world) : world :=
  {| db := db w; calls := calls w; toasts := toasts w ++ [t];
     session := session w; location := location w |}.

Definition write_requests (rows : list ServiceRequest) (w : world) : world :=
  {| db := {| service_requests := rows;
              profiles_table := profiles_table (db w) |};
     calls := calls w; toasts := toasts w;
     session := session w; location := location w |}.

Definition navigate (route : string) (w : world) : world :=
  {| db := db w; calls := calls w; toasts := toasts w;
     session := session w; location := route |}.

Definition remove_session (w : world) : world :=
  {| db := db w; calls := calls w; toasts := toasts w;
     session := None; location := location w |}.

(** ** The queries *)

(** [.eq('assigned_pm_id', pmId).order('created_at', { ascending: false })]. *)
Definition assigned (pmId : string) (r : ServiceRequest) : bool :=
  match assigned_pm_id r with
  | Some a => a =? pmId
  | None => false
  end.

Definition select_projects (pmId : string) (rows : list ServiceRequest)
    : list ServiceRequest :=
  VerifyOtp.order_desc created_at (filter (assigned pmId) rows).

(** [.in('user_id', userIds)]. *)
Definition select_profiles (userIds : list string) (rows : list Profile)
    : list Profile :=
  filter (fun p => existsb (String.eqb (profile_user_id p)) userIds) rows.

(** ** [fetchProjects] *)

Definition fetchProjects (e : env) (pmId : string) (sw : state * world)
    : state * world :=
  let '(s, w) := sw in
  let s := set_loading true s in
  let w := call (SelectProjects pmId) w in
  let data :=
    if projects_select_fails e then None
    else Some (select_projects pmId (service_requests (db w))) in
  let w :=
    match data with
    | None => show (error_toast "Failed to load projects") w
    | Some _ => w
    end in
  let '(s, w) :=
    match data with
    | None => (s, w)
    | Some rows =>
        let s := set_projects rows s in
        let userIds := Analytics.first_seen (map user_id rows) in
        if (0 <? List.length userIds)%nat then
          let w := call (SelectProfiles userIds) w in
          let profileData :=
            if profiles_select_fails e then None
            else Some (select_profiles userIds (profiles_table (db w))) in
          match profileData with
          | Some found =>
              (set_profiles
                 (new_Map (map (fun p => (profile_user_id p, p)) found)) s,
               w)
          | None => (s, w)
          end
        else (s, w)
    end in
  (set_loading false s, w).

(** ** [updateStatus] *)

Definition with_status (newStatus : string) (r : ServiceRequest)
    : ServiceRequest :=
  {| id := id r; title := title r; description := description r;
     status := newStatus; priority := priority r;
     admin_response := admin_response r; notes := notes r;
     created_at := created_at r; service_type := service_type r;
     color_theme := color_theme r; budget_range := budget_range r;
     timeline := timeline r; company_name := company_name r;
     contact_email := contact_email r; contact_phone := contact_phone r;
     user_id := user_id r; assigned_pm_id := assigned_pm_id r |}.

Definition with_notes (updatedNotes : string) (r : ServiceRequest)
    : ServiceRequest :=
  {| id := id r; title := title r; description := description r;
     status := status r; priority := priority r;
     admin_response := admin_response r; notes := Some updatedNotes;
     created_at := created_at r; service_type := service_type r;
     color_theme := color_theme r; budget_range := budget_range r;
     timeline := timeline r; company_name := company_name r;
     contact_email := contact_email r; contact_phone := contact_phone r;
     user_id := user_id r; assigned_pm_id := assigned_pm_id r |}.

(** [.update(change).eq('id', projectId)]. *)
Definition update_where_id (projectId : string)
    (change : ServiceRequest -> ServiceRequest)
    (rows : list ServiceRequest) : list ServiceRequest :=
  map (fun r => if id r =? projectId then change r else r) rows.

(** [if (pm) fetchProjects(pm.id)]. *)
Definition refetch (e : env) (sw : state * world) : state * world :=
  match pm (fst sw) with
  | Some p => fetchProjects e (VerifyOtp.id p) sw
  | None => sw
  end.

Definition updateStatus (e : env) (projectId newStatus : string)
    (sw : state * world) : state * world :=
  let '(s, w) := sw in
  let w := call (UpdateStatus projectId newStatus) w in
  if status_update_fails e then
    (s, show (error_toast "Failed to update status") w)
  else
    let w :=
      write_requests
        (update_where_id projectId (with_status newStatus)
                         (service_requests (db w))) w in
    let w := show (plain_toast "Status updated") w in
    refetch e (s, w).

(** ** [saveNote] *)

(** [project?.notes || ''] for [project = projects.find(p => p.id === projectId)]. *)
Definition existing_notes (projectId : string)
    (shown : list ServiceRequest) : string :=
  match find (fun p => id p =? projectId) shown with
  | Some project =>
      match notes project with
      | Some t => t
      | None => ""
      end
  | None => ""
  end.

Definition newline : string := String (ascii_of_N 10) EmptyString.

(** The template literals building [updatedNotes]. *)
Definition updated_notes (existingNotes timestamp text : string) : string :=
  if existingNotes =? "" then
    ("[" ++ timestamp ++ "] " ++ text)%string
  else
    (existingNotes ++ newline ++ newline
     ++ "[" ++ timestamp ++ "] " ++ text)%string.

Definition saveNote (e : env) (projectId : string) (sw : state * world)
    : state * world :=
  let '(s, w) := sw in
  if blank (noteText s) then (s, w)
  else
    let s := set_savingNote true s in
    let existingNotes := existing_notes projectId (projects s) in
    let timestamp := locale_now e in
    let updatedNotes := updated_notes existingNotes timestamp (noteText s) in
    let w := call (UpdateNotes projectId updatedNotes) w in
    let '(s, w) :=
      if notes_update_fails e then
        (s, show (error_toast "Failed to save note") w)
      else
        let w :=
          write_requests
            (update_where_id projectId (with_notes updatedNotes)
                             (service_requests (db w))) w in
        let w := show (plain_toast "Note added") w in
        let s := set_noteText "" s in
        refetch e (s, w) in
    (set_savingNote false s, w).

(** ** The session gate and [logout] *)

(** The effect run on mount: without a session item the page goes to the
    login route; with one it adopts the PM stored there and fetches the
    PM's projects. *)
Definition mount (e : env) (sw : state * world) : state * world :=
  let '(s, w) := sw in
  match session w with
  | None => (s, navigate "/pm/login" w)
  | Some pmData => fetchProjects e (VerifyOtp.id pmData) (set_pm pmData s, w)
  end.

Definition logout (sw : state * world) : state * world :=
  let '(s, w) := sw in
  (s, navigate "/pm/login" (remove_session w)).

(** ** The four statistics *)

Record stats := {
  total : nat;
  active : nat;
  pending : nat;
  completed : nat
}.

Definition stats_of (shown : list ServiceRequest) : stats :=
  {| total := List.length shown;
     active := List.length (filter (fun p => status p =? "in_progress") shown);
     pending := List.length (filter (fun p => status p =? "pending") shown);
     completed :=
       List.length (filter (fun p => status p =? "completed") shown) |}.

(** ** Vocabulary of the properties and sample data *)

(** Rows by descending [created_at]. *)
Fixpoint newest_first (l : list ServiceRequest) : Prop :=
  match l with
  | [] => True
  | r :: rest =>
      (forall r', In r' rest -> (created_at r' <= created_at r)%Z)
      /\ newest_first rest
  end.

(** The statuses the three counters leave out. *)
Definition other_status (p : ServiceRequest) : bool :=
  negb (status p =? "in_progress") && negb (status p =? "pending")
  && negb (status p =? "completed").

(** The text [saveNote] sends to the store: built from the copy of the
    project the page holds, the clock and the draft. *)
Definition note_written (e : env) (projectId : string) (s : state) : string :=
  updated_notes (existing_notes projectId (projects s)) (locale_now e)
                (noteText s).

Definition sample_request (rid st : string) (note : option string)
    (at_ : Z) (user pm_id : string) : ServiceRequest :=
  {| id := rid; title := "Site"; description := "A site"; status := st;
     priority := "normal"; admin_response := None; notes := note;
     created_at := at_; service_type := None; color_theme := None;
     budget_range := None; timeline := None; company_name := None;
     contact_email := None; contact_phone := None;
     user_id := user; assigned_pm_id := Some pm_id |}.

Definition sample_store : store :=
  {| service_requests :=
       [ sample_request "req-1" "pending" None 10 "user-1" "pm-1";
         sample_request "req-2" "in_progress" (Some "kickoff") 30
                        "user-2" "pm-1";
         sample_request "req-3" "pending" None 20 "user-1" "pm-2" ];
     profiles_table :=
       [ {| profile_user_id := "user-1"; full_name := Some "Ravi";
            profile_email := None |} ] |}.

Definition sample_world : world :=
  {| db := sample_store; calls := []; toasts := [];
     session := None; location := "/pm/dashboard" |}.

Definition sample_state : state :=
  {| pm := Some (VerifyOtp.public_fields VerifyOtp.sample_pm);
     projects := []; profiles := []; loading := true;
     noteText := "called the client"; savingNote := false |}.

Definition calm : env :=
  {| projects_select_fails := false; profiles_select_fails := false;
     status_update_fails := false; notes_update_fails := false;
     locale_now := "1/2/2026, 10:00:00 AM" |}.

(** A page whose copy of [req-2] is older than the store's: the store has
    gained a note since the fetch. *)
Definition stale_state : state :=
  {| pm := Some (VerifyOtp.public_fields VerifyOtp.sample_pm);
     projects :=
       [ sample_request "req-2" "in_progress" (Some "kickoff") 30
                        "user-2" "pm-1";
         sample_request "req-1" "pending" None 10 "user-1" "pm-1" ];
     profiles := []; loading := false;
     noteText := "called the client"; savingNote := false |}.

Definition fresh_world : world :=
  {| db :=
       {| service_requests :=
            [ sample_request "req-1" "pending" None 10 "user-1" "pm-1";
              sample_request "req-2" "in_progress"
                             (Some "kickoff; brief received") 30
                             "user-2" "pm-1";
              sample_request "req-3" "pending" None 20 "user-1" "pm-2" ];
          profiles_table := profiles_table sample_store |};
     calls := []; toasts := [];
     session := None; location := "/pm/dashboard" |}.

End Dashboard.

(* ===================================================================== *)
(** * Part II c: the PM login page, second step (src/pages/pm/PMLogin.tsx) *)
(* ===================================================================== *)

(** The callback [verifyOtp] of the login page, run against the handler of
    Part I: one click, followed to its [finally] block with no other event
    of the page in between. *)
Module Login.

Local Open Scope string_scope.
Local Open Scope list_scope.

(** [s.length]: the number of UTF-16 code units of the text whose UTF-8
    bytes are [s].  A byte that starts a character of four bytes stands for
    two units, any other starting byte for one, a continuation byte for
    none. *)
Definition utf16_units (c : ascii) : nat :=
  if (N_of_ascii c <? 128)%N then 1
  else if (N_of_ascii c <? 192)%N then 0
  else if (N_of_ascii c <? 240)%N then 1
  else 2.

Fixpoint utf16_length (s : string) : nat :=
  match s with
  | EmptyString => 0
  | String c rest => utf16_units c + utf16_length rest
  end.

Inductive Step :=
| email_step
| otp_step.

Record state := {
  step : Step;
  loading : bool;
  email : string;
  otp : string;
  pmName : string
}.

Definition set_loading (b : bool) (s : state) : state :=
  {| step := step s; loading := b; email := email s; otp := otp s;
     pmName := pmName s |}.

(** The text under the session key: the JSON of a PM object, or the text
    [undefined] that [setItem] stores when handed [undefined]. *)
Inductive session_item :=
| PmJson (pm : VerifyOtp.pm_public)
| UndefinedText.

Record browser := {
  toasts : list Dashboard.toast;
  session : option session_item;
  location : string
}.

Definition show (t : Dashboard.toast) (b : browser) : browser :=
  {| toasts := toasts b ++ [t]; session := session b;
     location := location b |}.

Definition setItem (item : session_item) (b : browser) : browser :=
  {| toasts := toasts b; session := Some item; location := location b |}.

Definition navigate (route : string) (b : browser) : browser :=
  {| toasts := toasts b; session := session b; location := route |}.

(** What [fetch] does with the request: it delivers it and the response, it
    rejects before the function ran, or it rejects after the function
    ran. *)
Inductive network :=
| Delivered
| Unreachable (message : string)
| ResponseLost (message : string).

(** The messages of the errors the browser itself raises: [response.json()]
    on a body that is not JSON, and reading [name] of [undefined]. *)
Record client_env := {
  net : network;
  json_error : string;
  type_error : string
}.

(** [response.ok]. *)
Definition ok (r : VerifyOtp.response) : bool :=
  ((200 <=? VerifyOtp.status r) && (VerifyOtp.status r <=? 299))%Z.

(** How the [try] block ends: normally, or by throwing an [Error]. *)
Inductive attempt :=
| Done (b : browser)
| Thrown (message : string) (b : browser).

Definition welcome (pm : VerifyOtp.pm_public) : Dashboard.toast :=
  {| Dashboard.toast_title := "Welcome, " ++ VerifyOtp.name pm ++ "!";
     Dashboard.toast_description := Some "Login successful";
     Dashboard.toast_variant := None |}.

(** The [try] block from [await response.json()] on. *)
Definition handle_response (ce : client_env) (r : VerifyOtp.response)
    (b : browser) : attempt :=
  match VerifyOtp.payload r with
  | VerifyOtp.NoBody => Thrown (json_error ce) b
  | VerifyOtp.ErrorBody error =>
      if ok r then Thrown (type_error ce) (setItem UndefinedText b)
      else Thrown (if error =? "" then "Verification failed" else error) b
  | VerifyOtp.LoginBody _ _ pm _ =>
      if ok r then
        Done (navigate "/pm/dashboard" (show (welcome pm) (setItem (PmJson pm) b)))
      else Thrown "Verification failed" b
  end.

(** One click on "Verify & Login", together with the function it calls:
    the page state, the browser, and the function's tables and store
    calls. *)
Record result := {
  ui : state;
  page : browser;
  server_db : VerifyOtp.database;
  server_calls : list VerifyOtp.db_op
}.

Definition verifyOtp (ce : client_env) (se : VerifyOtp.env) (s : state)
    (b : browser) (tables : VerifyOtp.database) : result :=
  if negb (utf16_length (otp s) =? 6)%nat then
    {| ui := s;
       page := show (Dashboard.error_toast "Please enter the 6-digit code") b;
       server_db := tables; server_calls := [] |}
  else
    let s := set_loading true s in
    let request :=
      VerifyOtp.post (VerifyOtp.Str (email s)) (VerifyOtp.Str (otp s)) in
    let out := VerifyOtp.serve se request tables in
    let '(tried, tables', made) :=
      match net ce with
      | Unreachable message => (Thrown message b, tables, [])
      | ResponseLost message =>
          (Thrown message b, VerifyOtp.db_after out, VerifyOtp.db_calls out)
      | Delivered =>
          (handle_response ce (VerifyOtp.reply out) b,
           VerifyOtp.db_after out, VerifyOtp.db_calls out)
      end in
    let b :=
      match tried with
      | Done b' => b'
      | Thrown message b' => show (Dashboard.error_toast message) b'
      end in
    {| ui := set_loading false s; page := b;
       server_db := tables'; server_calls := made |}.

(** ** Sample data *)

Definition typed (mail code : string) : state :=
  {| step := otp_step; loading := false; email := mail; otp := code;
     pmName := "" |}.

Definition login_page : browser :=
  {| toasts := []; session := None; location := "/pm/login" |}.

Definition online : client_env :=
  {| net := Delivered; json_error := "Unexpected end of JSON input";
     type_error := "Cannot read properties of undefined" |}.

End Login.

(* ===================================================================== *)
(** * Part III: properties of the verification handler                    *)
(* ===================================================================== *)

Unset Implicit Arguments.

Module VerifyOtpFacts.
Import VerifyOtp.

Local Open Scope string_scope.
Local Open Scope Z_scope.

(** ** The query client *)

Section OrderByFacts.
Variable A : Type.
Variable key : A -> Z.

Lemma insert_desc_in (x y : A) (rows : list A) :
  In y (insert_desc key x rows) <-> y = x \/ In y rows.
Proof.
  induction rows as [|z rows IH]; simpl.
  - intuition congruence.
  - destruct (key z <=? key x); simpl; [intuition congruence|].
    rewrite IH. intuition congruence.
Qed.

Lemma order_desc_in (y : A) (rows : list A) :
  In y (order_desc key rows) <-> In y rows.
Proof.
  induction rows as [|x rows IH]; simpl; [tauto|].
  rewrite insert_desc_in, IH. intuition congruence.
Qed.

Lemma insert_desc_head (x : A) (rows : list A) :
  match rows with
  | [] => True
  | m :: _ => leads key m rows
  end ->
  match insert_desc key x rows with
  | [] => False
  | m :: _ => leads key m (x :: rows)
  end.
Proof.
  destruct rows as [|z rows]; simpl.
  - intros _ r [<-|[]]. lia.
  - intros Hz. destruct (key z <=? key x) eqn:E.
    + apply Z.leb_le in E. intros r [<-|Hr]; [lia|].
      specialize (Hz r Hr). lia.
    + apply Z.leb_gt in E. intros r [<-|Hr]; [lia|]. now apply Hz.
Qed.

Lemma order_desc_head (rows : list A) :
  match order_desc key rows with
  | [] => rows = []
  | m :: _ => In m rows /\ leads key m rows
  end.
Proof.
  induction rows as [|x rows IH]; simpl; [reflexivity|].
  pose proof (insert_desc_head x (order_desc key rows)) as H.
  pose proof (fun y => insert_desc_in x y (order_desc key rows)) as Hin.
  destruct (insert_desc key x (order_desc key rows)) as [|m l].
  - exfalso. apply (proj2 (Hin x)). now left.
  - assert (Hm : m = x \/ In m rows).
    { destruct (proj1 (Hin m) (or_introl eq_refl)) as [->|Hm]; [now left|].
      right. exact (proj1 (order_desc_in m rows) Hm). }
    split; [destruct Hm as [Hm|Hm]; [left; congruence | now right]|].
    assert (Hl : leads key m (x :: order_desc key rows)).
    { apply H. destruct (order_desc key rows) as [|m' l'] eqn:E; [exact I|].
      destruct IH as [_ IH]. intros r Hr. apply IH.
      apply (proj1 (order_desc_in r rows)). now rewrite E. }
    intros r [<-|Hr]; [apply Hl; now left|].
    apply Hl. right. exact (proj2 (order_desc_in r rows) Hr).
Qed.

Lemma single_limit_1 (rows : list A) :
  single (limit 1 rows) =
  match rows with
  | [] => QueryError
  | m :: _ => Data m
  end.
Proof. destruct rows as [|m [|? ?]]; reflexivity. Qed.
End OrderByFacts.

Lemma otp_filter_candidate (t : Z) (mail code : string) (r : otp_row) :
  otp_filter t (Str mail) (Str code) r = true <-> candidate t mail code r.
Proof.
  unfold otp_filter, candidate, eq_text.
  rewrite !andb_true_iff, !String.eqb_eq, Z.ltb_lt.
  destruct (verified r); simpl; intuition congruence.
Qed.

(** What the OTP query returns: the newest candidate, or an error exactly
    when there is none. *)
Lemma otp_query_spec (t : Z) (mail code : string) (rows : list otp_row) :
  match otp_query t (Str mail) (Str code) rows with
  | Data m =>
      In m rows /\ candidate t mail code m /\
      (forall r, In r rows -> candidate t mail code r ->
                 created_at r <= created_at m)
  | QueryError =>
      forall r, In r rows -> ~ candidate t mail code r
  end.
Proof.
  unfold otp_query. rewrite single_limit_1.
  pose proof (order_desc_head otp_row created_at
                (otp_candidates t (Str mail) (Str code) rows)) as H.
  destruct (order_desc created_at _) as [|m l].
  - intros r Hr Hc. apply otp_filter_candidate in Hc.
    assert (Hin : In r (otp_candidates t (Str mail) (Str code) rows))
      by (apply filter_In; auto).
    rewrite H in Hin. exact Hin.
  - destruct H as [Hm Hl]. apply filter_In in Hm as [Hm Hf].
    split; [exact Hm|]. split; [now apply otp_filter_candidate|].
    intros r Hr Hc. apply Hl. apply filter_In. split; [exact Hr|].
    now apply otp_filter_candidate.
Qed.

Lemma mark_verified_in (m : otp_row) (rows : list otp_row) :
  In m rows -> In (set_verified m) (mark_verified (otp_id m) rows).
Proof.
  intros H. unfold mark_verified.
  apply in_map_iff. exists m. now rewrite String.eqb_refl.
Qed.

Lemma mark_verified_by_id (row_id : string) (rows : list otp_row)
    (r : otp_row) :
  In r (mark_verified row_id rows) -> otp_id r = row_id -> verified r = true.
Proof.
  unfold mark_verified. intros H Hid.
  apply in_map_iff in H as (r0 & <- & _).
  destruct (otp_id r0 =? row_id)%string eqn:E; [reflexivity|].
  apply String.eqb_neq in E. contradiction.
Qed.

Lemma mark_verified_others (row_id : string) (rows : list otp_row)
    (r : otp_row) :
  In r rows -> otp_id r <> row_id -> In r (mark_verified row_id rows).
Proof.
  intros H Hid. unfold mark_verified. apply in_map_iff. exists r.
  apply String.eqb_neq in Hid. now rewrite Hid.
Qed.

Lemma mark_verified_changes (m : otp_row) (rows : list otp_row) :
  In m rows -> verified m = false ->
  mark_verified (otp_id m) rows <> rows.
Proof.
  intros Hin Hv Heq.
  assert (H : forall r, In r rows -> otp_id r = otp_id m -> verified r = true).
  { intros r Hr Hid. rewrite <- Heq in Hr.
    exact (mark_verified_by_id _ _ _ Hr Hid). }
  specialize (H m Hin eq_refl). congruence.
Qed.

(** ** The handler, call by call *)

(** Past the two early returns, the handler is the OTP query, the update
    and the PM query, in that order. *)
Lemma serve_validated (e : env) (req : request) (db : database)
    (mail otp : json_field) :
  method req <> "OPTIONS" ->
  body req = JsonBody mail otp ->
  truthy mail = true -> truthy otp = true ->
  serve e req db =
  match (if otp_select_fails e then QueryError
         else otp_query (now e) mail otp (otp_verifications db)) with
  | QueryError =>
      {| reply := invalid_otp_response; db_after := db;
         db_calls := [Select "otp_verifications"] |}
  | Data m =>
      {| reply :=
           match (if pm_select_fails e then QueryError
                  else pm_query mail (project_managers db)) with
           | QueryError => pm_not_found_response
           | Data p => login_response p (randomUUID e)
           end;
         db_after := after_update e db m;
         db_calls := full_trace m |}
  end.
Proof.
  intros Hm Hb Hmail Hotp. apply String.eqb_neq in Hm.
  unfold serve, run, verify. rewrite Hm, Hb.
  unfold return_if. rewrite Hmail, Hotp. simpl.
  unfold bind, select_otp, update_otp_verified, select_pm, after_update,
    full_trace, bind, log, read_db, write_otps, ret, respond. simpl.
  destruct db as [otps pms]. simpl.
  destruct (otp_select_fails e); [reflexivity|].
  destruct (otp_query (now e) mail otp otps) as [m|]; [|reflexivity].
  destruct (otp_update_fails e); simpl;
    destruct (pm_select_fails e); simpl; try reflexivity;
    destruct (pm_query mail pms); reflexivity.
Qed.

Lemma truthy_Str (s : string) : s <> "" -> truthy (Str s) = true.
Proof. intros H. simpl. apply String.eqb_neq in H. now rewrite H. Qed.

Lemma truthy_false (v : json_field) :
  missing_or_empty v -> truthy v = false.
Proof. intros [->|[->| ->]]; reflexivity. Qed.

(** ** The success path *)

(** C1. A request that carries an email and a code for which an unverified,
    unexpired OTP record exists, for an address with its project manager row,
    is answered 200 with [success: true], the message "Login successful",
    the six public fields of that row and the token [crypto.randomUUID()]
    returned; the OTP row the query matched is then [verified = true].
    The store is taken to answer its calls, and the address to identify one
    project manager ([.single()] accepts exactly one row). *)
Theorem verify_valid_code_logs_in
    (e : env) (req : request) (db : database) (mail code : string)
    (r : otp_row) (p : pm_row) :
  method req <> "OPTIONS" ->
  body req = JsonBody (Str mail) (Str code) ->
  mail <> "" -> code <> "" ->
  In r (otp_verifications db) ->
  otp_email r = mail -> otp_code r = code ->
  verified r = false -> now e < expires_at r ->
  filter (fun q => (pm_email q =? mail)%string) (project_managers db) = [p] ->
  store_reachable e ->
  exists m : otp_row,
    otp_query (now e) (Str mail) (Str code) (otp_verifications db) = Data m /\
    In m (otp_verifications db) /\ otp_email m = mail /\ otp_code m = code /\
    status (reply (serve e req db)) = 200 /\
    payload (reply (serve e req db)) =
      LoginBody true "Login successful"
        {| id := pm_id p; name := pm_name p; email := pm_email p;
           phone := pm_phone p; specialization := pm_specialization p;
           is_available := pm_is_available p |}
        (randomUUID e) /\
    pm_email p = mail /\
    otp_verifications (db_after (serve e req db)) =
      mark_verified (otp_id m) (otp_verifications db) /\
    In (set_verified m) (otp_verifications (db_after (serve e req db))) /\
    (forall r', In r' (otp_verifications (db_after (serve e req db))) ->
                otp_id r' = otp_id m -> verified r' = true) /\
    project_managers (db_after (serve e req db)) = project_managers db.
Proof.
  intros Hmeth Hbody Hmail Hcode Hin He Hc Hv Hexp Hpm (Hs & Hu & Hp).
  rewrite (serve_validated e req db (Str mail) (Str code) Hmeth Hbody
             (truthy_Str mail Hmail) (truthy_Str code Hcode)).
  rewrite Hs, Hp. unfold after_update. rewrite Hu.
  pose proof (otp_query_spec (now e) mail code (otp_verifications db)) as Hq.
  destruct (otp_query (now e) (Str mail) (Str code) (otp_verifications db))
    as [m|].
  - destruct Hq as (Hm & (Hme & Hmc & _ & _) & _).
    exists m. unfold pm_query, eq_text. rewrite Hpm. simpl.
    assert (Hpe : pm_email p = mail).
    { assert (Hf : In p (filter (fun q => (pm_email q =? mail)%string)
                           (project_managers db)))
        by (rewrite Hpm; now left).
      apply filter_In in Hf as [_ Hf]. now apply String.eqb_eq in Hf. }
    repeat split; auto.
    + now apply mark_verified_in.
    + intros r' Hr' Hid. exact (mark_verified_by_id _ _ _ Hr' Hid).
  - exfalso. apply (Hq r Hin). unfold candidate. auto.
Qed.

Lemma verify_valid_code_logs_in_witness :
  status (reply (serve sample_env (post (Str "asha@example.com") (Str "222222"))
                   sample_db)) = 200 /\
  In (set_verified newer_otp)
     (otp_verifications
        (db_after (serve sample_env
                     (post (Str "asha@example.com") (Str "222222"))
                     sample_db))).
Proof.
  destruct (verify_valid_code_logs_in sample_env
              (post (Str "asha@example.com") (Str "222222")) sample_db
              "asha@example.com" "222222" newer_otp sample_pm)
    as (m & Hq & _ & _ & _ & Hst & _ & _ & _ & Hin & _).
  - discriminate.
  - reflexivity.
  - discriminate.
  - discriminate.
  - simpl. auto.
  - reflexivity.
  - reflexivity.
  - reflexivity.
  - simpl. lia.
  - reflexivity.
  - repeat split.
  - split; [exact Hst|].
    vm_compute in Hq. injection Hq as <-. exact Hin.
Defined.

(** The claim as worded, with a row of [project_managers] merely existing
    for the email: here two rows carry it, the code is valid, and
    [.single()] on the PM query rejects the pair, so the answer is 404. *)
Lemma valid_code_with_two_pm_rows_not_found :
  (In newer_otp (otp_verifications twin_db) /\
   otp_email newer_otp = "asha@example.com" /\
   otp_code newer_otp = "222222" /\
   verified newer_otp = false /\ now sample_env < expires_at newer_otp) /\
  (In sample_pm (project_managers twin_db) /\
   pm_email sample_pm = "asha@example.com") /\
  reply (serve sample_env (post (Str "asha@example.com") (Str "222222"))
               twin_db) =
    {| status := 404;
       headers := jsonHeaders;
       payload := ErrorBody "Project manager not found" |}.
Proof.
  split; [|split].
  - repeat split; simpl; auto.
  - split; simpl; auto.
  - reflexivity.
Qed.

(** ** Rejections *)

(** C2. When no stored OTP record matches the email and the code of the
    request while being unverified and unexpired, whatever the reason (wrong
    code, expired, already used, never sent), the answer is the one response
    400 [{error: "Invalid or expired OTP"}]; nothing is written and only the
    OTP query is made. *)
Theorem verify_unmatched_code_rejected
    (e : env) (req : request) (db : database) (mail code : string) :
  method req <> "OPTIONS" ->
  body req = JsonBody (Str mail) (Str code) ->
  mail <> "" -> code <> "" ->
  (forall r, In r (otp_verifications db) ->
             ~ (otp_email r = mail /\ otp_code r = code /\
                verified r = false /\ now e < expires_at r)) ->
  reply (serve e req db) =
    {| status := 400;
       headers := jsonHeaders;
       payload := ErrorBody "Invalid or expired OTP" |} /\
  db_after (serve e req db) = db /\
  db_calls (serve e req db) = [Select "otp_verifications"].
Proof.
  intros Hmeth Hbody Hmail Hcode Hnone.
  rewrite (serve_validated e req db (Str mail) (Str code) Hmeth Hbody
             (truthy_Str mail Hmail) (truthy_Str code Hcode)).
  destruct (otp_select_fails e); [repeat split|].
  pose proof (otp_query_spec (now e) mail code (otp_verifications db)) as Hq.
  destruct (otp_query (now e) (Str mail) (Str code) (otp_verifications db))
    as [m|]; [|repeat split].
  destruct Hq as (Hm & Hc & _). exfalso. exact (Hnone m Hm Hc).
Qed.

Lemma verify_unmatched_code_rejected_witness :
  reply (serve sample_env (post (Str "asha@example.com") (Str "999999"))
           sample_db) =
    {| status := 400;
       headers := jsonHeaders;
       payload := ErrorBody "Invalid or expired OTP" |} /\
  db_after (serve sample_env (post (Str "asha@example.com") (Str "999999"))
              sample_db) = sample_db /\
  db_calls (serve sample_env (post (Str "asha@example.com") (Str "999999"))
              sample_db) = [Select "otp_verifications"].
Proof.
  apply (verify_unmatched_code_rejected sample_env
           (post (Str "asha@example.com") (Str "999999")) sample_db
           "asha@example.com" "999999").
  - discriminate.
  - reflexivity.
  - discriminate.
  - discriminate.
  - intros r [<-|[<-|[]]] (_ & Hc & _); discriminate Hc.
Defined.

(** C4. A valid, unexpired, unverified code for an address with no
    [project_managers] row is answered 404
    [{error: "Project manager not found"}], and the matched OTP record has
    been marked [verified = true] by an update issued before the PM query:
    the table of OTP records is not what it was. *)
Theorem verify_valid_code_without_pm
    (e : env) (req : request) (db : database) (mail code : string)
    (r : otp_row) :
  method req <> "OPTIONS" ->
  body req = JsonBody (Str mail) (Str code) ->
  mail <> "" -> code <> "" ->
  In r (otp_verifications db) ->
  otp_email r = mail -> otp_code r = code ->
  verified r = false -> now e < expires_at r ->
  (forall p, In p (project_managers db) -> pm_email p <> mail) ->
  otp_select_fails e = false ->
  otp_update_fails e = false ->
  exists m : otp_row,
    otp_query (now e) (Str mail) (Str code) (otp_verifications db) = Data m /\
    reply (serve e req db) =
      {| status := 404;
         headers := jsonHeaders;
         payload := ErrorBody "Project manager not found" |} /\
    db_calls (serve e req db) =
      [ Select "otp_verifications";
        Update "otp_verifications" (otp_id m);
        Select "project_managers" ] /\
    otp_verifications (db_after (serve e req db)) =
      mark_verified (otp_id m) (otp_verifications db) /\
    In (set_verified m) (otp_verifications (db_after (serve e req db))) /\
    otp_verifications (db_after (serve e req db)) <> otp_verifications db.
Proof.
  intros Hmeth Hbody Hmail Hcode Hin He Hc Hv Hexp Hnopm Hs Hu.
  rewrite (serve_validated e req db (Str mail) (Str code) Hmeth Hbody
             (truthy_Str mail Hmail) (truthy_Str code Hcode)).
  rewrite Hs. unfold after_update. rewrite Hu.
  pose proof (otp_query_spec (now e) mail code (otp_verifications db)) as Hq.
  destruct (otp_query (now e) (Str mail) (Str code) (otp_verifications db))
    as [m|].
  - destruct Hq as (Hm & (_ & _ & Hmv & _) & _).
    exists m. simpl.
    assert (Hnone : filter (fun q => eq_text (pm_email q) (Str mail))
                      (project_managers db) = []).
    { clear -Hnopm. induction (project_managers db) as [|q l IH]; simpl.
      - reflexivity.
      - destruct (pm_email q =? mail)%string eqn:E.
        + apply String.eqb_eq in E. exfalso.
          apply (Hnopm q); [now left | exact E].
        + apply IH. intros q' Hq'. apply Hnopm. now right. }
    unfold pm_query. rewrite Hnone.
    repeat split.
    + destruct (pm_select_fails e); reflexivity.
    + now apply mark_verified_in.
    + now apply mark_verified_changes.
  - exfalso. apply (Hq r Hin). unfold candidate. auto.
Qed.

Lemma verify_valid_code_without_pm_witness :
  exists m : otp_row,
    otp_query 500 (Str "asha@example.com") (Str "222222")
      (otp_verifications orphan_db) = Data m /\
    reply (serve sample_env (post (Str "asha@example.com") (Str "222222"))
             orphan_db) =
      {| status := 404;
         headers := jsonHeaders;
         payload := ErrorBody "Project manager not found" |} /\
    db_calls (serve sample_env (post (Str "asha@example.com") (Str "222222"))
                orphan_db) =
      [ Select "otp_verifications";
        Update "otp_verifications" (otp_id m);
        Select "project_managers" ] /\
    otp_verifications
      (db_after (serve sample_env
                   (post (Str "asha@example.com") (Str "222222")) orphan_db)) =
      mark_verified (otp_id m) (otp_verifications orphan_db) /\
    In (set_verified m)
       (otp_verifications
          (db_after (serve sample_env
                       (post (Str "asha@example.com") (Str "222222"))
                       orphan_db))) /\
    otp_verifications
      (db_after (serve sample_env
                   (post (Str "asha@example.com") (Str "222222")) orphan_db))
    <> otp_verifications orphan_db.
Proof.
  apply (verify_valid_code_without_pm sample_env
           (post (Str "asha@example.com") (Str "222222")) orphan_db
           "asha@example.com" "222222" newer_otp).
  - discriminate.
  - reflexivity.
  - discriminate.
  - discriminate.
  - simpl. auto.
  - reflexivity.
  - reflexivity.
  - reflexivity.
  - simpl. lia.
  - intros p [].
  - reflexivity.
  - reflexivity.
Defined.

(** C5. When [email] or [otp] is missing or empty in the body, the answer is
    400 [{error: "Email and OTP are required"}] and the handler has made no
    call on the store at all. *)
Theorem verify_missing_fields_rejected
    (e : env) (req : request) (db : database) (mail otp : json_field) :
  method req <> "OPTIONS" ->
  body req = JsonBody mail otp ->
  missing_or_empty mail \/ missing_or_empty otp ->
  reply (serve e req db) =
    {| status := 400;
       headers := jsonHeaders;
       payload := ErrorBody "Email and OTP are required" |} /\
  db_calls (serve e req db) = [] /\
  db_after (serve e req db) = db.
Proof.
  intros Hmeth Hbody Hmiss. apply String.eqb_neq in Hmeth.
  assert (Hcond : negb (truthy mail) || negb (truthy otp) = true).
  { apply orb_true_iff.
    destruct Hmiss as [H|H]; apply truthy_false in H; rewrite H; auto. }
  unfold serve, run, verify. rewrite Hmeth, Hbody.
  unfold return_if. rewrite Hcond.
  destruct db as [otps pms]. repeat split.
Qed.

Lemma verify_missing_fields_rejected_witness :
  reply (serve sample_env (post (Str "asha@example.com") Undefined)
           sample_db) =
    {| status := 400;
       headers := jsonHeaders;
       payload := ErrorBody "Email and OTP are required" |} /\
  db_calls (serve sample_env (post (Str "asha@example.com") Undefined)
              sample_db) = [] /\
  db_after (serve sample_env (post (Str "asha@example.com") Undefined)
              sample_db) = sample_db.
Proof.
  apply (verify_missing_fields_rejected sample_env
           (post (Str "asha@example.com") Undefined) sample_db
           (Str "asha@example.com") Undefined).
  - discriminate.
  - reflexivity.
  - right. left. reflexivity.
Defined.

(** ** Several live codes for one address *)

(** C3, as stated, fails: with two unexpired, unverified records for one
    address, submitting the code of the older one logs in and marks that
    older record verified, because the query also filters on the code. *)
Lemma older_code_still_verifies :
  In older_otp (otp_verifications sample_db) /\
  In newer_otp (otp_verifications sample_db) /\
  otp_email older_otp = otp_email newer_otp /\
  created_at older_otp < created_at newer_otp /\
  verified older_otp = false /\ now sample_env < expires_at older_otp /\
  verified newer_otp = false /\ now sample_env < expires_at newer_otp /\
  status (reply (serve sample_env
                   (post (Str "asha@example.com") (Str (otp_code older_otp)))
                   sample_db)) = 200 /\
  otp_verifications
    (db_after (serve sample_env
                 (post (Str "asha@example.com") (Str (otp_code older_otp)))
                 sample_db)) =
    [set_verified older_otp; newer_otp].
Proof.
  repeat split; try (simpl; auto; fail); try (simpl; lia).
Qed.

(** C3, amended. Every unexpired, unverified record of an address stays
    eligible: submitting its code is not rejected as invalid, and the record
    selected and marked verified is the newest, by [created_at], among the
    unexpired, unverified records of that address carrying the submitted
    code; records with another id are left as they were. *)
Theorem verify_selects_newest_with_submitted_code
    (e : env) (req : request) (db : database) (mail code : string)
    (r : otp_row) :
  method req <> "OPTIONS" ->
  body req = JsonBody (Str mail) (Str code) ->
  mail <> "" -> code <> "" ->
  In r (otp_verifications db) ->
  otp_email r = mail -> otp_code r = code ->
  verified r = false -> now e < expires_at r ->
  otp_select_fails e = false ->
  otp_update_fails e = false ->
  exists m : otp_row,
    In m (otp_verifications db) /\
    (otp_email m = mail /\ otp_code m = code /\
     verified m = false /\ now e < expires_at m) /\
    (forall r', In r' (otp_verifications db) ->
                otp_email r' = mail -> otp_code r' = code ->
                verified r' = false -> now e < expires_at r' ->
                created_at r' <= created_at m) /\
    status (reply (serve e req db)) <> 400 /\
    db_calls (serve e req db) =
      [ Select "otp_verifications";
        Update "otp_verifications" (otp_id m);
        Select "project_managers" ] /\
    otp_verifications (db_after (serve e req db)) =
      mark_verified (otp_id m) (otp_verifications db) /\
    (forall r', In r' (otp_verifications db) -> otp_id r' <> otp_id m ->
                In r' (otp_verifications (db_after (serve e req db)))).
Proof.
  intros Hmeth Hbody Hmail Hcode Hin He Hc Hv Hexp Hs Hu.
  rewrite (serve_validated e req db (Str mail) (Str code) Hmeth Hbody
             (truthy_Str mail Hmail) (truthy_Str code Hcode)).
  rewrite Hs. unfold after_update. rewrite Hu.
  pose proof (otp_query_spec (now e) mail code (otp_verifications db)) as Hq.
  destruct (otp_query (now e) (Str mail) (Str code) (otp_verifications db))
    as [m|].
  - destruct Hq as (Hm & Hcand & Hnewest).
    exists m. simpl. split; [exact Hm|]. split; [exact Hcand|].
    split; [|split; [|split; [reflexivity|split; [reflexivity|]]]].
    + intros r' Hr' H1 H2 H3 H4. apply Hnewest; [exact Hr'|].
      unfold candidate. auto.
    + destruct (if pm_select_fails e then QueryError
                else pm_query (Str mail) (project_managers db));
        simpl; discriminate.
    + intros r' Hr' Hid. now apply mark_verified_others.
  - exfalso. apply (Hq r Hin). unfold candidate. auto.
Qed.

Lemma verify_selects_newest_with_submitted_code_witness :
  exists m : otp_row,
    In m (otp_verifications sample_db) /\
    (otp_email m = "asha@example.com" /\ otp_code m = "111111" /\
     verified m = false /\ now sample_env < expires_at m) /\
    (forall r', In r' (otp_verifications sample_db) ->
                otp_email r' = "asha@example.com" -> otp_code r' = "111111" ->
                verified r' = false -> now sample_env < expires_at r' ->
                created_at r' <= created_at m) /\
    status (reply (serve sample_env
                     (post (Str "asha@example.com") (Str "111111"))
                     sample_db)) <> 400 /\
    db_calls (serve sample_env (post (Str "asha@example.com") (Str "111111"))
                sample_db) =
      [ Select "otp_verifications";
        Update "otp_verifications" (otp_id m);
        Select "project_managers" ] /\
    otp_verifications
      (db_after (serve sample_env
                   (post (Str "asha@example.com") (Str "111111")) sample_db)) =
      mark_verified (otp_id m) (otp_verifications sample_db) /\
    (forall r', In r' (otp_verifications sample_db) ->
                otp_id r' <> otp_id m ->
                In r' (otp_verifications
                         (db_after (serve sample_env
                                      (post (Str "asha@example.com")
                                            (Str "111111"))
                                      sample_db)))).
Proof.
  apply (verify_selects_newest_with_submitted_code sample_env
           (post (Str "asha@example.com") (Str "111111")) sample_db
           "asha@example.com" "111111" older_otp).
  - discriminate.
  - reflexivity.
  - discriminate.
  - discriminate.
  - simpl. auto.
  - reflexivity.
  - reflexivity.
  - reflexivity.
  - simpl. lia.
  - reflexivity.
  - reflexivity.
Defined.

(** ** The one write *)

Lemma serve_unvalidated (e : env) (req : request) (db : database) :
  (method req = "OPTIONS" \/
   (exists message, body req = Throws message) \/
   (exists mail otp, body req = JsonBody mail otp /\
                     (truthy mail = false \/ truthy otp = false))) ->
  db_after (serve e req db) = db /\ db_calls (serve e req db) = [] /\
  forall e', reply (serve e' req db) = reply (serve e req db).
Proof.
  intros H. unfold serve, run, verify. destruct db as [otps pms].
  destruct (method req =? "OPTIONS")%string eqn:Em; [repeat split|].
  apply String.eqb_neq in Em.
  destruct H as [H|[(message & H)|(mail & otp & H & Hf)]].
  - contradiction.
  - rewrite H. repeat split.
  - rewrite H. unfold return_if.
    assert (Hcond : negb (truthy mail) || negb (truthy otp) = true)
      by (apply orb_true_iff; destruct Hf as [Hf|Hf]; rewrite Hf; auto).
    rewrite Hcond. repeat split.
Qed.

(** Every request falls under [serve_unvalidated] or [serve_validated]. *)
Lemma request_cases (req : request) :
  (method req = "OPTIONS" \/
   (exists message, body req = Throws message) \/
   (exists mail otp, body req = JsonBody mail otp /\
                     (truthy mail = false \/ truthy otp = false))) \/
  (method req <> "OPTIONS" /\
   exists mail otp, body req = JsonBody mail otp /\
                    truthy mail = true /\ truthy otp = true).
Proof.
  destruct (string_dec (method req) "OPTIONS") as [Hm|Hm]; [auto|].
  destruct (body req) as [message|mail otp] eqn:Hb.
  - left. right. left. now exists message.
  - destruct (truthy mail) eqn:E1; destruct (truthy otp) eqn:E2.
    + right. split; [exact Hm|]. exists mail, otp. auto.
    + left. right. right. exists mail, otp. auto.
    + left. right. right. exists mail, otp. auto.
    + left. right. right. exists mail, otp. auto.
Qed.

(** C6. The response does not depend on whether the update marking the
    record verified persisted, and on every input the handler changes the
    store by that update or not at all: the tables afterwards are the tables
    before, or the tables before with the matched record's id marked
    verified; the only mutating call ever logged is that one update. *)
Theorem verify_update_is_fire_and_forget
    (e : env) (req : request) (db : database) :
  reply (serve (with_update_outcome true e) req db) =
    reply (serve (with_update_outcome false e) req db) /\
  project_managers (db_after (serve e req db)) = project_managers db /\
  ((db_after (serve e req db) = db /\
    filter is_mutation (db_calls (serve e req db)) = [])
   \/
   (exists mail otp m,
      body req = JsonBody mail otp /\
      otp_query (now e) mail otp (otp_verifications db) = Data m /\
      filter is_mutation (db_calls (serve e req db)) =
        [Update "otp_verifications" (otp_id m)] /\
      otp_verifications (db_after (serve e req db)) =
        (if otp_update_fails e then otp_verifications db
         else mark_verified (otp_id m) (otp_verifications db)))).
Proof.
  destruct (request_cases req) as [Hu|(Hm & mail & otp & Hb & Hmail & Hotp)].
  - split; [|split].
    + destruct (serve_unvalidated (with_update_outcome false e) req db Hu)
        as (_ & _ & H). apply H.
    + destruct (serve_unvalidated e req db Hu) as (-> & _). reflexivity.
    + left. destruct (serve_unvalidated e req db Hu) as (-> & -> & _).
      split; reflexivity.
  - rewrite !(serve_validated _ req db mail otp Hm Hb Hmail Hotp).
    simpl. unfold after_update.
    destruct (otp_select_fails e).
    + split; [reflexivity|]. split; [reflexivity|]. left. split; reflexivity.
    + destruct (otp_query (now e) mail otp (otp_verifications db)) as [m|] eqn:Eq.
      * simpl. split; [reflexivity|].
        split; [destruct (otp_update_fails e); reflexivity|].
        right. exists mail, otp, m.
        repeat split; try assumption.
        destruct (otp_update_fails e); reflexivity.
      * split; [reflexivity|]. split; [reflexivity|]. left. split; reflexivity.
Qed.

End VerifyOtpFacts.

(* ===================================================================== *)
(** * Part IV: properties of the analytics views                          *)
(* ===================================================================== *)

Module AnalyticsFacts.
Import Analytics.

Local Open Scope string_scope.
Local Open Scope list_scope.

(** ** Status labels never collide with an inherited property *)

Lemma humanize_head (c : ascii) (rest : string) :
  exists c' rest',
    humanize (String c rest) = String c' rest' /\
    is_lower c' = false /\ c' <> "_"%char.
Proof.
  unfold humanize, capitalize_words. simpl.
  eexists _, _. split; [reflexivity|].
  destruct c as [[] [] [] [] [] [] [] []]; vm_compute;
    (split; [reflexivity | discriminate]).
Qed.

Lemma not_lower_not_inherited (c : ascii) (rest : string) :
  is_lower c = false -> c <> "_"%char -> inherited (String c rest) = false.
Proof.
  intros Hl Hu.
  destruct c as [[] [] [] [] [] [] [] []];
    try discriminate Hl; try (exfalso; apply Hu; reflexivity);
    vm_compute; reflexivity.
Qed.

Lemma humanize_not_inherited (s : string) : inherited (humanize s) = false.
Proof.
  destruct s as [|c rest]; [reflexivity|].
  destruct (humanize_head c rest) as (c' & rest' & -> & Hl & Hu).
  now apply not_lower_not_inherited.
Qed.

Lemma not_inherited_not_proto (k : string) :
  inherited k = false -> (k =? "__proto__") = false.
Proof.
  intros H. apply String.eqb_neq. intros ->. discriminate H.
Qed.

(** ** Keys in order of first appearance *)

Lemma in_first_seen (k : string) (ks : list string) :
  In k (first_seen ks) <-> In k ks.
Proof.
  induction ks as [|a ks IH]; simpl; [tauto|].
  destruct (string_dec a k) as [->|Hne]; [tauto|].
  split.
  - intros [H|H]; [contradiction|]. apply in_remove in H. tauto.
  - intros [H|H]; [contradiction|]. right.
    apply in_in_remove; [congruence | tauto].
Qed.

Lemma NoDup_remove (k : string) (l : list string) :
  NoDup l -> NoDup (remove string_dec k l).
Proof.
  induction 1 as [|a l Ha Hl IH]; simpl; [constructor|].
  destruct (string_dec k a); [exact IH|].
  constructor; [|exact IH]. intros H. apply in_remove in H. tauto.
Qed.

Lemma NoDup_first_seen (ks : list string) : NoDup (first_seen ks).
Proof.
  induction ks as [|a ks IH]; simpl; constructor.
  - apply remove_In.
  - now apply NoDup_remove.
Qed.

Lemma first_seen_snoc (ks : list string) (k : string) :
  first_seen (ks ++ [k]) =
  if in_dec string_dec k ks then first_seen ks else first_seen ks ++ [k].
Proof.
  induction ks as [|a ks IH]; simpl; [reflexivity|].
  rewrite IH. destruct (in_dec string_dec k ks) as [Hin|Hnin].
  - destruct (string_dec a k); reflexivity.
  - rewrite remove_app. simpl.
    destruct (string_dec a k) as [->|Hne].
    + destruct (in_dec string_dec k ks); [contradiction|].
      now rewrite app_nil_r.
    + destruct (in_dec string_dec k ks); [contradiction|]. reflexivity.
Qed.

Lemma first_seen_NoDup (ks : list string) : NoDup ks -> first_seen ks = ks.
Proof.
  induction 1 as [|a ks Ha Hks IH]; simpl; [reflexivity|].
  rewrite IH. now rewrite notin_remove.
Qed.

Lemma occurrences_snoc (ks : list string) (k k' : string) :
  occurrences (ks ++ [k]) k' =
  occurrences ks k' + (if k' =? k then 1 else 0).
Proof.
  unfold occurrences. rewrite count_occ_app. simpl.
  destruct (string_dec k k') as [->|Hne].
  - now rewrite String.eqb_refl.
  - assert (E : (k' =? k) = false) by (apply String.eqb_neq; congruence).
    now rewrite E.
Qed.

(** ** Counter objects *)

Lemma tally_ext (keys : list string) (f g : string -> nat) :
  (forall k, In k keys -> f k = g k) -> tally keys f = tally keys g.
Proof.
  intros H. unfold tally. apply map_ext_in. intros k Hk. now rewrite H.
Qed.

Lemma tally_app (keys keys' : list string) (f : string -> nat) :
  tally (keys ++ keys') f = (tally keys f ++ tally keys' f)%list.
Proof. unfold tally. apply map_app. Qed.

Lemma own_tally_in (keys : list string) (f : string -> nat) (k : string) :
  In k keys -> own k (tally keys f) = Some (Num (f k)).
Proof.
  induction keys as [|a keys IH]; simpl; [contradiction|].
  intros H. destruct (a =? k) eqn:E.
  - apply String.eqb_eq in E. now subst.
  - apply String.eqb_neq in E. destruct H as [H|H]; [contradiction|auto].
Qed.

Lemma own_tally_notin (keys : list string) (f : string -> nat) (k : string) :
  ~ In k keys -> own k (tally keys f) = None.
Proof.
  induction keys as [|a keys IH]; simpl; [reflexivity|].
  intros H. destruct (a =? k) eqn:E.
  - apply String.eqb_eq in E. tauto.
  - apply IH. tauto.
Qed.

Lemma overwrite_tally (keys : list string) (f : string -> nat)
    (k : string) (n : nat) :
  NoDup keys -> In k keys ->
  overwrite k (Num n) (tally keys f) =
  tally keys (fun k' => if k' =? k then n else f k').
Proof.
  induction 1 as [|a keys Ha Hkeys IH]; simpl; [contradiction|].
  intros Hin. destruct (a =? k) eqn:E.
  - apply String.eqb_eq in E. subst a. f_equal.
    apply tally_ext. intros k' Hk'.
    assert (E : (k' =? k) = false)
      by (apply String.eqb_neq; intros ->; contradiction).
    now rewrite E.
  - f_equal. apply IH. apply String.eqb_neq in E.
    destruct Hin; [contradiction|assumption].
Qed.

(** [counts[k] = (counts[k] || 0) + 1] on a key already counted. *)
Lemma increment_counted (keys : list string) (f : string -> nat) (k : string) :
  NoDup keys -> In k keys -> (k =? "__proto__") = false ->
  increment k (tally keys f) =
  tally keys (fun k' => f k' + (if k' =? k then 1 else 0)).
Proof.
  intros Hnd Hin Hp. unfold increment, get, set.
  rewrite Hp, (own_tally_in keys f k Hin). simpl.
  rewrite (overwrite_tally keys f k (f k + 1) Hnd Hin).
  apply tally_ext. intros k' _. destruct (k' =? k) eqn:E.
  - apply String.eqb_eq in E. now subst.
  - lia.
Qed.

(** ... and on a key seen for the first time. *)
Lemma increment_fresh (keys : list string) (f : string -> nat) (k : string) :
  ~ In k keys -> inherited k = false ->
  increment k (tally keys f) = (tally keys f ++ [(k, Num 1)])%list.
Proof.
  intros Hin Hi. unfold increment, get, set.
  rewrite (not_inherited_not_proto k Hi), (own_tally_notin keys f k Hin), Hi.
  reflexivity.
Qed.

Lemma increment_proto (o : jsobject) : increment "__proto__" o = o.
Proof. reflexivity. Qed.

(** The counting loop, over keys none of which is inherited: one entry per
    distinct key, in order of first appearance, with its occurrences. *)
Lemma counting_loop (ks : list string) :
  (forall k, In k ks -> inherited k = false) ->
  fold_left (fun counts k => increment k counts) ks [] = buckets ks.
Proof.
  induction ks as [|k ks IH] using rev_ind; intros Hks; [reflexivity|].
  rewrite fold_left_app. simpl. rewrite IH
    by (intros k' Hk'; apply Hks, in_or_app; now left).
  assert (Hk : inherited k = false) by (apply Hks, in_or_app; right; now left).
  unfold buckets. rewrite first_seen_snoc.
  destruct (in_dec string_dec k ks) as [Hin|Hnin].
  - rewrite increment_counted.
    + apply tally_ext. intros k' _. now rewrite occurrences_snoc.
    + apply NoDup_first_seen.
    + now apply in_first_seen.
    + now apply not_inherited_not_proto.
  - rewrite increment_fresh; [|now rewrite in_first_seen | exact Hk].
    rewrite tally_app. simpl. f_equal.
    + apply tally_ext. intros k' Hk'. rewrite occurrences_snoc.
      assert (E : (k' =? k) = false).
      { apply String.eqb_neq. intros ->. apply Hnin.
        now apply in_first_seen. }
      rewrite E. lia.
    + rewrite occurrences_snoc, String.eqb_refl.
      unfold occurrences. rewrite (proj1 (count_occ_not_In string_dec ks k) Hnin).
      reflexivity.
Qed.

Lemma fold_left_keys (A : Type) (g : A -> string) (l : list A) (o : jsobject) :
  fold_left (fun counts r => increment (g r) counts) l o =
  fold_left (fun counts k => increment k counts) (map g l) o.
Proof.
  revert o. induction l as [|a l IH]; intros o; simpl; [reflexivity|].
  apply IH.
Qed.

(** ** Enumeration order *)

Section EntriesFacts.
Variable V : Type.

Lemma insert_index_perm (e : string * V) (l : list (string * V)) :
  Permutation (insert_index e l) (e :: l).
Proof.
  induction l as [|e' l IH]; simpl; [reflexivity|].
  destruct (index_of (fst e) <=? index_of (fst e'))%N; [reflexivity|].
  rewrite IH. apply perm_swap.
Qed.

Lemma sort_index_perm (l : list (string * V)) :
  Permutation (sort_index l) l.
Proof.
  induction l as [|e l IH]; simpl; [reflexivity|].
  rewrite insert_index_perm. now constructor.
Qed.

Lemma filter_split_perm (p : string * V -> bool) (l : list (string * V)) :
  Permutation (filter p l ++ filter (fun e => negb (p e)) l) l.
Proof.
  induction l as [|e l IH]; simpl; [reflexivity|].
  destruct (p e); simpl.
  - now constructor.
  - rewrite <- Permutation_middle. now constructor.
Qed.

Lemma entries_perm (o : list (string * V)) : Permutation (entries o) o.
Proof.
  unfold entries. rewrite sort_index_perm. apply filter_split_perm.
Qed.

Lemma entries_in (o : list (string * V)) (e : string * V) :
  In e (entries o) <-> In e o.
Proof.
  split; apply Permutation_in;
    [apply entries_perm | symmetry; apply entries_perm].
Qed.

Lemma filter_none (p : string * V -> bool) (l : list (string * V)) :
  (forall e, In e l -> p e = false) -> filter p l = [].
Proof.
  induction l as [|e l IH]; simpl; intros H; [reflexivity|].
  rewrite (H e (or_introl eq_refl)). apply IH. intros e' He'. apply H.
  now right.
Qed.

Lemma filter_all (p : string * V -> bool) (l : list (string * V)) :
  (forall e, In e l -> p e = true) -> filter p l = l.
Proof.
  induction l as [|e l IH]; simpl; intros H; [reflexivity|].
  rewrite (H e (or_introl eq_refl)). f_equal. apply IH. intros e' He'.
  apply H. now right.
Qed.

(** Without array-index keys, [Object.entries] is insertion order. *)
Lemma entries_insertion_order (o : list (string * V)) :
  (forall e, In e o -> is_index (fst e) = false) -> entries o = o.
Proof.
  intros H. unfold entries. rewrite filter_none by exact H.
  simpl. apply filter_all. intros e He. now rewrite (H e He).
Qed.
End EntriesFacts.

Lemma insert_index_ascending (e : string * jsvalue)
    (l : list (string * jsvalue)) :
  ascending l -> ascending (insert_index e l).
Proof.
  induction l as [|e' l IH]; simpl.
  - intros _. split; [intros ? []|exact I].
  - intros [He' Hl].
    destruct (index_of (fst e) <=? index_of (fst e'))%N eqn:E; simpl.
    + apply N.leb_le in E. split; [|split; assumption].
      intros x [<-|Hx]; [exact E|]. specialize (He' x Hx). lia.
    + apply N.leb_gt in E. split; [|now apply IH].
      intros x Hx.
      apply (Permutation_in _ (insert_index_perm jsvalue e l)) in Hx.
      destruct Hx as [<-|Hx]; [lia|now apply He'].
Qed.

Lemma sort_index_ascending (l : list (string * jsvalue)) :
  ascending (sort_index l).
Proof.
  induction l as [|e l IH]; simpl; [exact I|].
  now apply insert_index_ascending.
Qed.

(** ** Sums over buckets *)

Lemma list_sum_remove (f : string -> nat) (k : string) (l : list string) :
  NoDup l -> (In k l \/ f k = 0) ->
  f k + list_sum (map f (remove string_dec k l)) = list_sum (map f l).
Proof.
  induction 1 as [|a l Ha Hl IH]; simpl; intros Hk.
  - destruct Hk as [[]|Hk]. lia.
  - destruct (string_dec k a) as [->|Hne].
    + rewrite notin_remove by exact Ha. reflexivity.
    + simpl. rewrite <- IH; [lia|].
      destruct Hk as [[Hk|Hk]|Hk]; [congruence|now left|now right].
Qed.

Lemma occurrences_total (ks : list string) :
  list_sum (map (occurrences ks) (first_seen ks)) = List.length ks.
Proof.
  induction ks as [|k ks IH]; simpl; [reflexivity|].
  unfold occurrences at 1. simpl.
  destruct (string_dec k k) as [_|Hne]; [|contradiction].
  f_equal. rewrite <- IH.
  rewrite <- (list_sum_remove (occurrences ks) k (first_seen ks)).
  - fold (occurrences ks k).
    assert (E : map (occurrences (k :: ks))
                  (remove string_dec k (first_seen ks)) =
                map (occurrences ks) (remove string_dec k (first_seen ks))).
    { apply map_ext_in. intros k' Hk'. apply in_remove in Hk' as [_ Hk'].
      unfold occurrences. simpl.
      destruct (string_dec k k'); [congruence|reflexivity]. }
    rewrite E. lia.
  - apply NoDup_first_seen.
  - destruct (in_dec string_dec k ks) as [Hin|Hnin].
    + left. now apply in_first_seen.
    + right. now apply count_occ_not_In.
Qed.

Lemma tally_keys (keys : list string) (f : string -> nat) :
  map fst (tally keys f) = keys.
Proof.
  unfold tally. rewrite map_map. simpl. apply map_id.
Qed.

Lemma tally_values (keys : list string) (f : string -> nat) :
  map snd (tally keys f) = map Num (map f keys).
Proof. unfold tally. now rewrite !map_map. Qed.

(** ** The status distribution *)

Lemma status_counts (requests : list ServiceRequest) :
  fold_left (fun counts r => increment (humanize (status r)) counts)
            requests [] =
  buckets (labels requests).
Proof.
  rewrite (fold_left_keys ServiceRequest
             (fun r => humanize (status r)) requests []).
  apply counting_loop. intros k Hk. unfold labels in Hk.
  apply in_map_iff in Hk as (r & <- & _). apply humanize_not_inherited.
Qed.

Lemma statusDistribution_entries (requests : list ServiceRequest) :
  statusDistribution requests = entries (buckets (labels requests)).
Proof. unfold statusDistribution. now rewrite status_counts. Qed.

(** C7, as stated, fails: a label that is an array index is enumerated
    before the labels that appeared earlier. *)
Lemma numeric_status_label_comes_first :
  statusDistribution (map request_with_status ["pending"; "7"]) =
    [("7", Num 1); ("Pending", Num 1)] /\
  first_seen (labels (map request_with_status ["pending"; "7"])) =
    ["Pending"; "7"] /\
  map fst (statusDistribution (map request_with_status ["pending"; "7"])) <>
    first_seen (labels (map request_with_status ["pending"; "7"])).
Proof.
  split; [reflexivity|]. split; [reflexivity|]. discriminate.
Qed.

(** C7, amended. The status distribution has one bucket per distinct
    humanized status label (underscores replaced by spaces, the first letter
    of each word upper-cased), each with the number of requests bearing that
    label.  The buckets whose label is an array index come first, by
    ascending index; the others follow in order of first appearance, so that
    without such labels the order is the order of first appearance; and
    statuses pending, pending, completed yield Pending 2, Completed 1. *)
Theorem status_distribution_buckets (requests : list ServiceRequest) :
  (exists indexed,
     statusDistribution requests =
       indexed ++ filter (fun b => negb (is_index (fst b)))
                         (buckets (labels requests)) /\
     Permutation indexed
       (filter (fun b => is_index (fst b)) (buckets (labels requests))) /\
     ascending indexed) /\
  (Forall (fun label => is_index label = false) (labels requests) ->
   statusDistribution requests = buckets (labels requests)) /\
  statusDistribution
    (map request_with_status ["pending"; "pending"; "completed"]) =
    [("Pending", Num 2); ("Completed", Num 1)].
Proof.
  split; [|split; [|reflexivity]].
  - exists (sort_index
              (filter (fun b => is_index (fst b)) (buckets (labels requests)))).
    split; [apply statusDistribution_entries|].
    split; [apply sort_index_perm | apply sort_index_ascending].
  - intros H. rewrite statusDistribution_entries.
    apply entries_insertion_order. intros [k v] He. simpl.
    rewrite Forall_forall in H. apply H.
    apply in_first_seen. rewrite <- (tally_keys (first_seen (labels requests))
                                       (occurrences (labels requests))).
    apply (in_map fst) in He. exact He.
Qed.

Lemma status_distribution_buckets_witness :
  statusDistribution
    (map request_with_status ["in_progress"; "pending"; "in_progress"]) =
  buckets (labels (map request_with_status
                     ["in_progress"; "pending"; "in_progress"])).
Proof.
  apply (status_distribution_buckets
           (map request_with_status ["in_progress"; "pending"; "in_progress"])).
  repeat constructor.
Defined.

Lemma list_sum_perm (l l' : list nat) :
  Permutation l l' -> list_sum l = list_sum l'.
Proof. induction 1; simpl; lia. Qed.

(** C10. The values of the status distribution are numbers whose sum is the
    number of requests: the buckets have distinct labels, the label of every
    request is the label of a bucket, and nothing is dropped or truncated,
    whatever the status strings are. *)
Theorem status_distribution_counts_every_request
    (requests : list ServiceRequest) :
  NoDup (map fst (statusDistribution requests)) /\
  Forall (fun r => In (humanize (status r))
                      (map fst (statusDistribution requests))) requests /\
  exists counts : list nat,
    map snd (statusDistribution requests) = map Num counts /\
    list_sum counts = List.length requests.
Proof.
  rewrite statusDistribution_entries.
  pose proof (entries_perm jsvalue (buckets (labels requests))) as P.
  assert (Pk : Permutation (map fst (entries (buckets (labels requests))))
                 (first_seen (labels requests))).
  { rewrite (Permutation_map fst P). unfold buckets. now rewrite tally_keys. }
  split; [|split].
  - apply (Permutation_NoDup (Permutation_sym Pk)). apply NoDup_first_seen.
  - apply Forall_forall. intros r Hr.
    apply (Permutation_in _ (Permutation_sym Pk)). apply in_first_seen.
    unfold labels. now apply (in_map (fun r => humanize (status r))).
  - pose proof (Permutation_map snd P) as Pv.
    unfold buckets in Pv at 2. rewrite tally_values in Pv.
    apply Permutation_map_inv in Pv as (counts & Hc & Pc).
    exists counts. split; [exact Hc|].
    rewrite <- (list_sum_perm _ _ Pc), occurrences_total.
    unfold labels. apply length_map.
Qed.

(** ** The PM workload *)

Lemma workload_keys_no_proto (pms : list ProjectManager) :
  ~ In "__proto__" (workload_keys pms).
Proof.
  unfold workload_keys. rewrite in_first_seen, filter_In.
  intros [_ H]. discriminate H.
Qed.

Lemma workload_keys_in (pms : list ProjectManager) (n : string) :
  In n (workload_keys pms) <->
  (exists pm, In pm pms /\ name pm = n) /\ n <> "__proto__".
Proof.
  unfold workload_keys. rewrite in_first_seen, filter_In, in_map_iff.
  rewrite negb_true_iff, String.eqb_neq.
  split.
  - intros [(pm & Hn & Hin) Hp]. split; [exists pm; auto | exact Hp].
  - intros [(pm & Hin & Hn) Hp]. split; [exists pm; auto | exact Hp].
Qed.

(** The seeding loop [workload[pm.name] = 0]. *)
Lemma seeding_loop (pms : list ProjectManager) :
  fold_left (fun workload pm => set (name pm) (Num 0) workload) pms [] =
  tally (workload_keys pms) (fun _ => 0).
Proof.
  induction pms as [|pm pms IH] using rev_ind; [reflexivity|].
  rewrite fold_left_app. simpl. rewrite IH.
  unfold workload_keys. rewrite map_app, filter_app. simpl.
  unfold set. destruct (name pm =? "__proto__") eqn:Ep; simpl.
  - now rewrite app_nil_r.
  - rewrite first_seen_snoc.
    destruct (in_dec string_dec (name pm)
                (filter (fun n => negb (n =? "__proto__")) (map name pms)))
      as [Hin|Hnin].
    + apply in_first_seen in Hin.
      rewrite (own_tally_in _ (fun _ => 0) _ Hin).
      rewrite (overwrite_tally _ (fun _ => 0) _ 0 (NoDup_first_seen _) Hin).
      apply tally_ext. intros k _. now destruct (k =? name pm).
    + rewrite <- in_first_seen in Hnin.
      rewrite (own_tally_notin _ (fun _ => 0) _ Hnin).
      now rewrite tally_app.
Qed.

Lemma counted_under_some (pms : list ProjectManager) (r : ServiceRequest)
    (n : string) :
  counted_under pms r = Some n ->
  exists wanted pm,
    assigned_pm_id r = Some wanted /\ wanted <> "" /\
    find_pm wanted pms = Some pm /\ In pm pms /\ id pm = wanted /\
    name pm = n.
Proof.
  unfold counted_under, present.
  destruct (assigned_pm_id r) as [wanted|]; [|discriminate].
  destruct (wanted =? "") eqn:Ew; simpl; [discriminate|].
  destruct (find_pm wanted pms) as [pm|] eqn:Ef; simpl; [|discriminate].
  intros [= <-]. exists wanted, pm. apply String.eqb_neq in Ew.
  unfold find_pm in Ef. pose proof (find_some _ _ Ef) as [Hin Hid].
  apply String.eqb_eq in Hid. auto 7.
Qed.

(** The request loop, on an object that holds every PM name. *)
Lemma workload_loop (pms : list ProjectManager)
    (requests : list ServiceRequest) (f : string -> nat) :
  fold_left
    (fun workload r =>
       match assigned_pm_id r with
       | Some wanted =>
           if present (assigned_pm_id r) then
             match find_pm wanted pms with
             | Some pm => increment (name pm) workload
             | None => workload
             end
           else workload
       | None => workload
       end)
    requests (tally (workload_keys pms) f) =
  tally (workload_keys pms)
        (fun n => f n + projects_under pms requests n).
Proof.
  revert f. induction requests as [|r requests IH]; intros f; simpl.
  - apply tally_ext. intros n _. unfold projects_under. simpl. lia.
  - assert (Hstep :
      match assigned_pm_id r with
      | Some wanted =>
          if present (assigned_pm_id r) then
            match find_pm wanted pms with
            | Some pm => increment (name pm) (tally (workload_keys pms) f)
            | None => tally (workload_keys pms) f
            end
          else tally (workload_keys pms) f
      | None => tally (workload_keys pms) f
      end =
      tally (workload_keys pms)
            (fun n => f n + match counted_under pms r with
                            | Some n' => if n' =? n then 1 else 0
                            | None => 0
                            end)).
    { unfold counted_under.
      destruct (assigned_pm_id r) as [wanted|];
        [|apply tally_ext; intros; lia].
      destruct (present (Some wanted));
        [|apply tally_ext; intros; lia].
      destruct (find_pm wanted pms) as [pm|] eqn:Ef; simpl;
        [|apply tally_ext; intros; lia].
      assert (Hin : In pm pms) by (apply (find_some _ _ Ef)).
      destruct (name pm =? "__proto__") eqn:Ep.
      - apply String.eqb_eq in Ep. rewrite Ep, increment_proto.
        apply tally_ext. intros n Hn.
        assert (E : ("__proto__" =? n) = false).
        { apply String.eqb_neq. intros <-.
          exact (workload_keys_no_proto pms Hn). }
        rewrite E. lia.
      - rewrite increment_counted.
        + apply tally_ext. intros n _. now rewrite String.eqb_sym.
        + apply NoDup_first_seen.
        + apply workload_keys_in. apply String.eqb_neq in Ep. eauto.
        + exact Ep. }
    rewrite Hstep, IH. apply tally_ext. intros n _.
    unfold projects_under. simpl.
    destruct (counted_under pms r) as [n'|]; [|lia].
    destruct (n' =? n); simpl; lia.
Qed.

Lemma pmWorkload_entries (requests : list ServiceRequest)
    (pms : list ProjectManager) :
  pmWorkload requests pms =
  entries (tally (workload_keys pms) (projects_under pms requests)).
Proof.
  unfold pmWorkload. rewrite seeding_loop, workload_loop. reflexivity.
Qed.

Lemma NoDup_map_injective (A : Type) (f : A -> string) (l : list A)
    (a b : A) :
  NoDup (map f l) -> In a l -> In b l -> f a = f b -> a = b.
Proof.
  induction l as [|x l IH]; simpl; [contradiction|].
  intros Hnd Ha Hb Hf. inversion Hnd as [|? ? Hx Hl]; subst.
  destruct Ha as [->|Ha]; destruct Hb as [->|Hb].
  - reflexivity.
  - exfalso. apply Hx. rewrite Hf. now apply in_map.
  - exfalso. apply Hx. rewrite <- Hf. now apply in_map.
  - now apply IH.
Qed.

Lemma find_pm_own_id (pms : list ProjectManager) (pm : ProjectManager) :
  NoDup (map id pms) -> In pm pms -> find_pm (id pm) pms = Some pm.
Proof.
  intros Hnd Hin. unfold find_pm.
  destruct (find (fun p => id p =? id pm) pms) as [p|] eqn:Ef.
  - destruct (find_some _ _ Ef) as [Hp Hid]. apply String.eqb_eq in Hid.
    f_equal. exact (NoDup_map_injective _ id pms p pm Hnd Hp Hin Hid).
  - pose proof (find_none _ _ Ef pm Hin) as H. simpl in H.
    now rewrite String.eqb_refl in H.
Qed.

(** With distinct names and distinct, non-empty ids, the loop counts a
    request under a PM's name exactly when it is assigned to that PM. *)
Lemma counted_under_assigned (pms : list ProjectManager)
    (pm : ProjectManager) (r : ServiceRequest) :
  NoDup (map name pms) -> NoDup (map id pms) ->
  In pm pms -> id pm <> "" ->
  match counted_under pms r with
  | Some n' => n' =? name pm
  | None => false
  end = assigned_to pm r.
Proof.
  intros Hnames Hids Hin Hid.
  destruct (counted_under pms r) as [n'|] eqn:Ec.
  - destruct (counted_under_some pms r n' Ec)
      as (w & p & Ha & _ & _ & Hp & Hpw & Hpn).
    unfold assigned_to. rewrite Ha. subst n' w.
    destruct (name p =? name pm) eqn:En.
    + apply String.eqb_eq in En.
      rewrite (NoDup_map_injective _ name pms p pm Hnames Hp Hin En).
      now rewrite String.eqb_refl.
    + symmetry. apply String.eqb_neq. intros Eid.
      rewrite (NoDup_map_injective _ id pms p pm Hids Hp Hin Eid) in En.
      now rewrite String.eqb_refl in En.
  - unfold assigned_to. unfold counted_under, present in Ec.
    destruct (assigned_pm_id r) as [w|]; [|reflexivity].
    destruct (w =? id pm) eqn:Ew; [|reflexivity].
    apply String.eqb_eq in Ew. subst w.
    apply String.eqb_neq in Hid. rewrite Hid in Ec. simpl in Ec.
    rewrite (find_pm_own_id pms pm Hids Hin) in Ec. discriminate Ec.
Qed.

(** C8, as stated, fails: two PMs with one name share one entry, so a PM
    with no assigned request is shown with the requests of the other. *)
Lemma managers_sharing_a_name_share_an_entry :
  pmWorkload [request_assigned "pm-1"]
             [manager "pm-1" "Sam"; manager "pm-2" "Sam"] =
    [("Sam", Num 1)] /\
  assigned_count [request_assigned "pm-1"] (manager "pm-2" "Sam") = 0 /\
  ~ In (name (manager "pm-2" "Sam"), Num 0)
       (pmWorkload [request_assigned "pm-1"]
                   [manager "pm-1" "Sam"; manager "pm-2" "Sam"]).
Proof.
  split; [reflexivity|]. split; [reflexivity|].
  intros [H|[]]. discriminate H.
Qed.

(** C8, amended. The PM-workload view holds one entry per distinct PM name
    ([__proto__] apart), whose count is the number of requests the loop
    resolves to a PM of that name.  When the PMs have pairwise distinct
    names, pairwise distinct non-empty ids, and none is named [__proto__],
    the view is, up to enumeration order, one entry per known PM, idle PMs
    included with [projects = 0], and each PM's count is the number of
    requests whose [assigned_pm_id] is that PM's id. *)
Theorem pm_workload_per_manager
    (requests : list ServiceRequest) (pms : list ProjectManager) :
  Permutation (pmWorkload requests pms)
    (map (fun n => (n, Num (projects_under pms requests n)))
         (workload_keys pms)) /\
  (NoDup (map name pms) -> NoDup (map id pms) ->
   Forall (fun pm => id pm <> "" /\ name pm <> "__proto__") pms ->
   Permutation (pmWorkload requests pms)
     (map (fun pm => (name pm, Num (assigned_count requests pm))) pms) /\
   Forall (fun pm => In (name pm, Num (assigned_count requests pm))
                        (pmWorkload requests pms)) pms).
Proof.
  split.
  - rewrite pmWorkload_entries. apply entries_perm.
  - intros Hnames Hids Hwf. rewrite Forall_forall in Hwf.
    assert (P : Permutation (pmWorkload requests pms)
                  (map (fun pm => (name pm, Num (assigned_count requests pm)))
                       pms)).
    { rewrite pmWorkload_entries, entries_perm.
      assert (Hk : workload_keys pms = map name pms).
      { unfold workload_keys. rewrite forallb_filter_id.
        - now apply first_seen_NoDup.
        - apply forallb_forall. intros n Hn.
          apply in_map_iff in Hn as (pm & <- & Hpm).
          apply negb_true_iff, String.eqb_neq. now apply Hwf. }
      rewrite Hk. unfold tally. rewrite map_map.
      erewrite map_ext_in; [reflexivity|].
      intros pm Hpm. simpl. f_equal. f_equal.
      unfold projects_under, assigned_count. f_equal.
      apply filter_ext. intros r.
      apply counted_under_assigned; auto. now apply Hwf. }
    split; [exact P|].
    apply Forall_forall. intros pm Hpm.
    apply (Permutation_in _ (Permutation_sym P)).
    now apply (in_map (fun pm => (name pm, Num (assigned_count requests pm)))).
Qed.

Lemma pm_workload_per_manager_witness :
  Permutation
    (pmWorkload [request_assigned "pm-1"; request_assigned "pm-1"]
                [manager "pm-1" "Sam"; manager "pm-2" "Kim"])
    [("Sam", Num 2); ("Kim", Num 0)].
Proof.
  apply (pm_workload_per_manager
           [request_assigned "pm-1"; request_assigned "pm-1"]
           [manager "pm-1" "Sam"; manager "pm-2" "Kim"]).
  - repeat constructor; simpl; intuition discriminate.
  - repeat constructor; simpl; intuition discriminate.
  - repeat constructor; discriminate.
Defined.

(** ** No requests *)

(** C9, as stated, fails: with no request and one PM, the workload view
    still has that PM's zero entry. *)
Lemma idle_manager_listed_without_requests :
  pmWorkload [] [manager "pm-1" "Sam"] = [("Sam", Num 0)] /\
  pmWorkload [] [manager "pm-1" "Sam"] <> [].
Proof. split; [reflexivity|discriminate]. Qed.

(** C9, amended. With no request, the request trend, the status distribution
    and the popular services are empty for every list of PMs; the PM
    workload is empty when there is no PM either, and otherwise holds one
    entry with [projects = 0] per distinct PM name ([__proto__] apart). *)
Theorem views_of_no_requests
    (month_key : string -> string) (pms : list ProjectManager) :
  requestTrends month_key [] = [] /\
  statusDistribution [] = [] /\
  popularServices [] = [] /\
  pmWorkload [] [] = [] /\
  Permutation (pmWorkload [] pms)
    (map (fun n => (n, Num 0)) (workload_keys pms)) /\
  (pmWorkload [] pms = [] <-> workload_keys pms = []).
Proof.
  repeat (split; [reflexivity|]).
  assert (P : Permutation (pmWorkload [] pms)
                (map (fun n => (n, Num 0)) (workload_keys pms))).
  { rewrite pmWorkload_entries, entries_perm. reflexivity. }
  split; [exact P|]. split; intros H.
  - rewrite H in P. apply Permutation_nil in P.
    destruct (workload_keys pms); [reflexivity|discriminate P].
  - rewrite H in P. simpl in P. apply Permutation_sym in P.
    now apply Permutation_nil in P.
Qed.

End AnalyticsFacts.


(* ===================================================================== *)
(** * Part V: further properties of the verification handler              *)
(* ===================================================================== *)

Module VerifyOtpMore.
Import VerifyOtp VerifyOtpFacts.

Local Open Scope string_scope.
Local Open Scope Z_scope.

(** ** The three exits ahead of the store *)

Lemma serve_options (e : env) (req : request) (db : database) :
  method req = "OPTIONS" ->
  serve e req db =
  {| reply := options_response; db_after := db; db_calls := [] |}.
Proof.
  intros H. unfold serve, run, verify. rewrite H. simpl.
  destruct db; reflexivity.
Qed.

Lemma serve_throws (e : env) (req : request) (db : database)
    (message : string) :
  method req <> "OPTIONS" -> body req = Throws message ->
  serve e req db =
  {| reply := json_response 500 (ErrorBody message);
     db_after := db; db_calls := [] |}.
Proof.
  intros Hm Hb. apply String.eqb_neq in Hm.
  unfold serve, run, verify. rewrite Hm, Hb. destruct db; reflexivity.
Qed.

Lemma serve_missing (e : env) (req : request) (db : database)
    (mail otp : json_field) :
  method req <> "OPTIONS" -> body req = JsonBody mail otp ->
  truthy mail = false \/ truthy otp = false ->
  serve e req db =
  {| reply := missing_fields_response; db_after := db; db_calls := [] |}.
Proof.
  intros Hm Hb Hf. apply String.eqb_neq in Hm.
  assert (Hcond : negb (truthy mail) || negb (truthy otp) = true)
    by (apply orb_true_iff; destruct Hf as [Hf|Hf]; rewrite Hf; auto).
  unfold serve, run, verify. rewrite Hm, Hb. unfold return_if.
  rewrite Hcond. destruct db; reflexivity.
Qed.

(** Every invocation is one of five: the three exits above, a rejected
    code, or a matched code [m] followed by the PM query. *)
Lemma serve_cases (e : env) (req : request) (db : database) :
  (method req = "OPTIONS" /\
   serve e req db =
   {| reply := options_response; db_after := db; db_calls := [] |})
  \/
  (method req <> "OPTIONS" /\
   exists message,
     body req = Throws message /\
     serve e req db =
     {| reply := json_response 500 (ErrorBody message);
        db_after := db; db_calls := [] |})
  \/
  (method req <> "OPTIONS" /\
   exists mail otp,
     body req = JsonBody mail otp /\
     (truthy mail = false \/ truthy otp = false) /\
     serve e req db =
     {| reply := missing_fields_response; db_after := db; db_calls := [] |})
  \/
  (method req <> "OPTIONS" /\
   exists mail otp,
     body req = JsonBody mail otp /\
     truthy mail = true /\ truthy otp = true /\
     ((otp_select_fails e = true \/
       otp_query (now e) mail otp (otp_verifications db) = QueryError) /\
      serve e req db =
      {| reply := invalid_otp_response; db_after := db;
         db_calls := [Select "otp_verifications"] |}
      \/
      exists m,
        otp_select_fails e = false /\
        otp_query (now e) mail otp (otp_verifications db) = Data m /\
        serve e req db =
        {| reply :=
             match (if pm_select_fails e then QueryError
                    else pm_query mail (project_managers db)) with
             | QueryError => pm_not_found_response
             | Data p => login_response p (randomUUID e)
             end;
           db_after := after_update e db m;
           db_calls := full_trace m |})).
Proof.
  destruct (string_dec (method req) "OPTIONS") as [Hm|Hm].
  { left. split; [exact Hm|]. now apply serve_options. }
  right. destruct (body req) as [message|mail otp] eqn:Hb.
  { left. split; [exact Hm|]. exists message. split; [reflexivity|].
    now apply serve_throws. }
  right.
  assert (Hmissing : truthy mail = false \/ truthy otp = false ->
    (method req <> "OPTIONS" /\
     exists mail0 otp0,
       JsonBody mail otp = JsonBody mail0 otp0 /\
       (truthy mail0 = false \/ truthy otp0 = false) /\
       serve e req db =
       {| reply := missing_fields_response; db_after := db;
          db_calls := [] |})).
  { intros Hf. split; [exact Hm|]. exists mail, otp.
    split; [reflexivity|]. split; [exact Hf|].
    exact (serve_missing e req db mail otp Hm Hb Hf). }
  destruct (truthy mail) eqn:E1; [|left; apply Hmissing; now left].
  destruct (truthy otp) eqn:E2; [|left; apply Hmissing; now right].
  right. split; [exact Hm|]. exists mail, otp.
  split; [reflexivity|]. split; [exact E1|]. split; [exact E2|].
  rewrite (serve_validated e req db mail otp Hm Hb E1 E2).
  destruct (otp_select_fails e); [left; auto|].
  destruct (otp_query (now e) mail otp (otp_verifications db)) as [m|].
  - right. exists m. auto.
  - left. auto.
Qed.


(** A filter that accepts a column compares it with the text of the field. *)
Lemma eq_text_text_of (column : string) (v : json_field) :
  eq_text column v = true -> text_of v = Some column.
Proof.
  destruct v as [| |s|[|]|z t|t]; simpl; try discriminate;
    intros H; apply String.eqb_eq in H; now subst.
Qed.

(** The row the OTP query returns passed the four filters. *)
Lemma otp_query_data (t : Z) (mail otp : json_field) (rows : list otp_row)
    (m : otp_row) :
  otp_query t mail otp rows = Data m ->
  In m rows /\
  text_of mail = Some (otp_email m) /\ text_of otp = Some (otp_code m) /\
  verified m = false /\ t < expires_at m.
Proof.
  unfold otp_query. rewrite single_limit_1.
  pose proof (order_desc_head otp_row created_at
                (otp_candidates t mail otp rows)) as H.
  destruct (order_desc created_at _) as [|m' l]; [discriminate|].
  intros [= ->]. destruct H as [Hm _].
  apply filter_In in Hm as [Hm Hf]. unfold otp_filter in Hf.
  rewrite !andb_true_iff in Hf. destruct Hf as [[[H1 H2] H3] H4].
  split; [exact Hm|].
  split; [now apply eq_text_text_of|].
  split; [now apply eq_text_text_of|].
  split; [destruct (verified m); [discriminate|reflexivity]|].
  now apply Z.ltb_lt.
Qed.

Lemma pm_query_data (mail : json_field) (rows : list pm_row) (p : pm_row) :
  pm_query mail rows = Data p ->
  In p rows /\ text_of mail = Some (pm_email p).
Proof.
  unfold pm_query, single. intros H.
  destruct (filter (fun q => eq_text (pm_email q) mail) rows)
    as [|q [|q' l]] eqn:Ef; try discriminate.
  injection H as ->.
  assert (Hin : In p (filter (fun q => eq_text (pm_email q) mail) rows))
    by (rewrite Ef; now left).
  apply filter_In in Hin as [Hin He]. split; [exact Hin|].
  now apply eq_text_text_of.
Qed.

(** ** What every reply looks like *)

(** X1. Whatever the request, the tables and the runtime, the reply has
    status 200, 400, 404 or 500 and carries the two CORS headers; the reply
    to [OPTIONS] has no body and no content type, every other reply is typed
    [application/json]. *)
Theorem reply_status_and_headers (e : env) (req : request) (db : database) :
  In (status (reply (serve e req db))) [200; 400; 404; 500] /\
  incl corsHeaders (headers (reply (serve e req db))) /\
  headers (reply (serve e req db)) =
    (if (method req =? "OPTIONS")%string then corsHeaders else jsonHeaders) /\
  (payload (reply (serve e req db)) = NoBody <-> method req = "OPTIONS").
Proof.
  assert (Hj : incl corsHeaders jsonHeaders)
    by (unfold jsonHeaders; apply incl_appl, incl_refl).
  destruct (serve_cases e req db)
    as [[Hm ->]
       |[(Hm & message & _ & ->)
        |[(Hm & mail & otp & _ & _ & ->)
         |(Hm & mail & otp & _ & _ & _ & [[_ ->]|(m & _ & _ & ->)])]]].
  { rewrite Hm. simpl. repeat split; auto. apply incl_refl. }
  all: pose proof Hm as Hm'; apply String.eqb_neq in Hm'; rewrite Hm'; simpl.
  - repeat split; try tauto; try exact Hj; try discriminate;
      try (intros; contradiction).
  - repeat split; try tauto; try exact Hj; try discriminate;
      try (intros; contradiction).
  - repeat split; try tauto; try exact Hj; try discriminate;
      try (intros; contradiction).
  - destruct (if pm_select_fails e then QueryError
              else pm_query mail (project_managers db)); simpl;
      repeat split; try tauto; try exact Hj; try discriminate;
      try (intros; contradiction).
Qed.

(** ** What the handler does to the store *)

Lemma Forall2_map_same (A : Type) (R : A -> A -> Prop) (f : A -> A)
    (l : list A) :
  (forall a, R a (f a)) -> Forall2 R l (map f l).
Proof. intros H. induction l; simpl; constructor; auto. Qed.

(** X2. An invocation never adds, removes or reorders OTP records and never
    rewrites their id, email, code, expiry or creation time; the only column
    it can change is [verified], and only from false to true. *)
Theorem otp_rows_only_gain_verified
    (e : env) (req : request) (db : database) :
  Forall2
    (fun before after =>
       otp_id after = otp_id before /\
       otp_email after = otp_email before /\
       otp_code after = otp_code before /\
       expires_at after = expires_at before /\
       created_at after = created_at before /\
       implb (verified before) (verified after) = true)
    (otp_verifications db)
    (otp_verifications (db_after (serve e req db))).
Proof.
  assert (Hsame : forall rows : list otp_row,
    Forall2
      (fun before after =>
         otp_id after = otp_id before /\
         otp_email after = otp_email before /\
         otp_code after = otp_code before /\
         expires_at after = expires_at before /\
         created_at after = created_at before /\
         implb (verified before) (verified after) = true)
      rows rows).
  { intros rows. rewrite <- (map_id rows) at 2.
    apply Forall2_map_same. intros a. repeat split.
    now destruct (verified a). }
  destruct (serve_cases e req db)
    as [[Hm ->]
       |[(Hm & message & _ & ->)
        |[(Hm & mail & otp & _ & _ & ->)
         |(Hm & mail & otp & _ & _ & _ & [[_ ->]|(m & _ & _ & ->)])]]];
    simpl; try apply Hsame.
  unfold after_update. destruct (otp_update_fails e); simpl; [apply Hsame|].
  unfold mark_verified. apply Forall2_map_same. intros a.
  destruct (otp_id a =? otp_id m)%string; simpl; repeat split;
    now destruct (verified a).
Qed.


(** ** Who gets a login *)

(** Where a login body comes from: the two queries both returned a row. *)
Lemma login_body_queries
    (e : env) (req : request) (db : database)
    (s : bool) (msg : string) (pm : pm_public) (tok : string) :
  payload (reply (serve e req db)) = LoginBody s msg pm tok ->
  exists (mail otp : json_field) (m : otp_row) (p : pm_row),
    body req = JsonBody mail otp /\
    otp_query (now e) mail otp (otp_verifications db) = Data m /\
    pm_query mail (project_managers db) = Data p /\
    reply (serve e req db) = login_response p (randomUUID e) /\
    db_calls (serve e req db) = full_trace m.
Proof.
  destruct (serve_cases e req db)
    as [[Hm ->]
       |[(Hm & message & _ & ->)
        |[(Hm & mail & otp & _ & _ & ->)
         |(Hm & mail & otp & Hb & H1 & H2 & [[_ ->]|(m & Hs & Hq & ->)])]]];
    simpl; try discriminate.
  destruct (pm_select_fails e); simpl; [discriminate|].
  destruct (pm_query mail (project_managers db)) as [p|] eqn:Hp;
    simpl; [|discriminate].
  intros _. exists mail, otp, m, p. auto.
Qed.

Lemma login_body_origin
    (e : env) (req : request) (db : database)
    (s : bool) (msg : string) (pm : pm_public) (tok : string) :
  payload (reply (serve e req db)) = LoginBody s msg pm tok ->
  exists (mail otp : json_field) (m : otp_row) (p : pm_row),
    body req = JsonBody mail otp /\
    In m (otp_verifications db) /\
    (text_of mail = Some (otp_email m) /\ text_of otp = Some (otp_code m) /\
     verified m = false /\ now e < expires_at m) /\
    In p (project_managers db) /\ text_of mail = Some (pm_email p) /\
    pm = public_fields p.
Proof.
  intros H.
  destruct (login_body_queries e req db s msg pm tok H)
    as (mail & otp & m & p & Hb & Hq & Hp & Hr & _).
  destruct (otp_query_data _ _ _ _ _ Hq) as (Hin & Hc).
  destruct (pm_query_data mail (project_managers db) p Hp) as [Hpin Hpe].
  rewrite Hr in H. simpl in H. injection H as _ _ <- _.
  exists mail, otp, m, p. auto 7.
Qed.

(** X4. A login body is only ever sent to a request whose email and code,
    read as the text the filters compare, are those of a stored record that
    is unverified and unexpired, and it describes a [project_managers] row
    whose email is that text: the fields are that row's, the flag is true,
    the token is the runtime's UUID, the status is 200, and the update of
    the matched record was issued before the PM query. *)
Theorem login_reply_is_sound
    (e : env) (req : request) (db : database)
    (s : bool) (msg : string) (pm : pm_public) (tok : string) :
  payload (reply (serve e req db)) = LoginBody s msg pm tok ->
  exists (mail otp : json_field) (m : otp_row) (p : pm_row),
    body req = JsonBody mail otp /\
    In m (otp_verifications db) /\
    (text_of mail = Some (otp_email m) /\ text_of otp = Some (otp_code m) /\
     verified m = false /\ now e < expires_at m) /\
    In p (project_managers db) /\ text_of mail = Some (pm_email p) /\
    pm = public_fields p /\ s = true /\ msg = "Login successful" /\
    tok = randomUUID e /\
    status (reply (serve e req db)) = 200 /\
    db_calls (serve e req db) =
      [ Select "otp_verifications";
        Update "otp_verifications" (otp_id m);
        Select "project_managers" ].
Proof.
  intros H.
  destruct (login_body_queries e req db s msg pm tok H)
    as (mail & otp & m & p & Hb & Hq & Hp & Hr & Hcalls).
  destruct (otp_query_data _ _ _ _ _ Hq) as (Hin & Hc).
  destruct (pm_query_data mail (project_managers db) p Hp) as [Hpin Hpe].
  rewrite Hcalls. rewrite Hr in H |- *. simpl in H.
  injection H as <- <- <- <-.
  exists mail, otp, m, p. repeat split; auto; apply Hc.
Qed.

Lemma login_reply_is_sound_witness :
  exists (mail otp : json_field) (m : otp_row) (p : pm_row),
    body (post (Str "asha@example.com") (Number false "222222")) =
      JsonBody mail otp /\
    In m (otp_verifications sample_db) /\
    (text_of mail = Some (otp_email m) /\ text_of otp = Some (otp_code m) /\
     verified m = false /\ now sample_env < expires_at m) /\
    In p (project_managers sample_db) /\ text_of mail = Some (pm_email p) /\
    public_fields sample_pm = public_fields p /\ true = true /\
    "Login successful" = "Login successful" /\
    randomUUID sample_env = randomUUID sample_env /\
    status (reply (serve sample_env
                     (post (Str "asha@example.com") (Number false "222222"))
                     sample_db)) = 200 /\
    db_calls (serve sample_env
                (post (Str "asha@example.com") (Number false "222222"))
                sample_db) =
      [ Select "otp_verifications";
        Update "otp_verifications" (otp_id m);
        Select "project_managers" ].
Proof.
  apply (login_reply_is_sound sample_env
           (post (Str "asha@example.com") (Number false "222222")) sample_db
           true "Login successful" (public_fields sample_pm)
           (randomUUID sample_env)).
  reflexivity.
Defined.

(** ** Using a code twice *)

Lemma otp_query_single (t : Z) (mail code : json_field)
    (rows : list otp_row) (m : otp_row) :
  otp_candidates t mail code rows = [m] -> otp_query t mail code rows = Data m.
Proof. unfold otp_query. intros ->. reflexivity. Qed.

Lemma otp_query_none (t : Z) (mail code : string) (rows : list otp_row) :
  (forall r, In r rows -> ~ candidate t mail code r) ->
  otp_query t (Str mail) (Str code) rows = QueryError.
Proof.
  intros H. pose proof (otp_query_spec t mail code rows) as Hs.
  destruct (otp_query t (Str mail) (Str code) rows) as [m|]; [|reflexivity].
  destruct Hs as (Hin & Hc & _). exfalso. exact (H m Hin Hc).
Qed.

(** Once the only live record of a code is marked verified, the code
    matches nothing at any later time. *)
Lemma consumed_code_unmatched (t1 t2 : Z) (mail code : string)
    (rows : list otp_row) (m : otp_row) :
  otp_candidates t1 (Str mail) (Str code) rows = [m] ->
  t1 <= t2 ->
  otp_query t2 (Str mail) (Str code) (mark_verified (otp_id m) rows)
  = QueryError.
Proof.
  intros Hone Hlater.
  apply otp_query_none. intros r' Hr' (He & Hc & Hv & Hx).
  unfold mark_verified in Hr'. apply in_map_iff in Hr' as (r & Hr & Hin).
  destruct (otp_id r =? otp_id m)%string eqn:Eid.
  - subst r'. simpl in Hv. discriminate.
  - subst r'.
    assert (Hcand : In r (otp_candidates t1 (Str mail) (Str code) rows)).
    { apply filter_In. split; [exact Hin|].
      apply otp_filter_candidate. unfold candidate.
      repeat split; auto. lia. }
    rewrite Hone in Hcand. destruct Hcand as [<-|[]].
    now rewrite String.eqb_refl in Eid.
Qed.

(** X5. When exactly one live record matches the email and the code and the
    update persists, the code works once: the first request is accepted, and
    the same request at any later time is answered 400
    [{error: "Invalid or expired OTP"}] and changes nothing. *)
Theorem replay_of_consumed_code_rejected
    (e1 e2 : env) (req : request) (db : database) (mail code : string)
    (m : otp_row) :
  method req <> "OPTIONS" ->
  body req = JsonBody (Str mail) (Str code) ->
  mail <> "" -> code <> "" ->
  otp_candidates (now e1) (Str mail) (Str code) (otp_verifications db) = [m] ->
  otp_select_fails e1 = false ->
  otp_update_fails e1 = false ->
  now e1 <= now e2 ->
  status (reply (serve e1 req db)) <> 400 /\
  reply (serve e2 req (db_after (serve e1 req db))) =
    {| status := 400;
       headers := jsonHeaders;
       payload := ErrorBody "Invalid or expired OTP" |} /\
  db_after (serve e2 req (db_after (serve e1 req db))) =
    db_after (serve e1 req db).
Proof.
  intros Hmeth Hbody Hmail Hcode Hone Hs Hu Hlater.
  pose proof (serve_validated e1 req db (Str mail) (Str code) Hmeth Hbody
                (truthy_Str mail Hmail) (truthy_Str code Hcode)) as H1.
  rewrite Hs, (otp_query_single _ _ _ _ _ Hone) in H1.
  rewrite H1. simpl. unfold after_update. rewrite Hu.
  split.
  { destruct (if pm_select_fails e1 then QueryError
              else pm_query (Str mail) (project_managers db));
      simpl; discriminate. }
  rewrite (serve_validated e2 req _ (Str mail) (Str code) Hmeth Hbody
             (truthy_Str mail Hmail) (truthy_Str code Hcode)).
  simpl.
  rewrite (consumed_code_unmatched (now e1) (now e2) mail code
             (otp_verifications db) m Hone Hlater). destruct (otp_select_fails e2); split; reflexivity.
Qed.

Lemma replay_of_consumed_code_rejected_witness :
  status (reply (serve sample_env
                   (post (Str "asha@example.com") (Str "222222"))
                   sample_db)) <> 400 /\
  reply (serve sample_env (post (Str "asha@example.com") (Str "222222"))
           (db_after (serve sample_env
                        (post (Str "asha@example.com") (Str "222222"))
                        sample_db))) =
    {| status := 400;
       headers := jsonHeaders;
       payload := ErrorBody "Invalid or expired OTP" |} /\
  db_after (serve sample_env (post (Str "asha@example.com") (Str "222222"))
              (db_after (serve sample_env
                           (post (Str "asha@example.com") (Str "222222"))
                           sample_db))) =
    db_after (serve sample_env (post (Str "asha@example.com") (Str "222222"))
                sample_db).
Proof.
  apply (replay_of_consumed_code_rejected sample_env sample_env
           (post (Str "asha@example.com") (Str "222222")) sample_db
           "asha@example.com" "222222" newer_otp).
  - discriminate.
  - reflexivity.
  - discriminate.
  - discriminate.
  - reflexivity.
  - reflexivity.
  - reflexivity.
  - simpl. lia.
Defined.

(** X6. When the update does not persist, the invocation leaves the tables
    exactly as they were, so the same request gets the same outcome again:
    the code stays usable. *)
Theorem unpersisted_update_leaves_code_usable
    (e : env) (req : request) (db : database) :
  otp_update_fails e = true ->
  db_after (serve e req db) = db /\
  serve e req (db_after (serve e req db)) = serve e req db.
Proof.
  intros Hu.
  assert (H : db_after (serve e req db) = db).
  { destruct (serve_cases e req db)
      as [[Hm ->]
         |[(Hm & message & _ & ->)
          |[(Hm & mail & otp & _ & _ & ->)
           |(Hm & mail & otp & _ & _ & _ & [[_ ->]|(m & _ & _ & ->)])]]];
      simpl; try reflexivity.
    unfold after_update. now rewrite Hu. }
  split; [exact H|]. now rewrite H.
Qed.

Lemma unpersisted_update_leaves_code_usable_witness :
  db_after (serve (with_update_outcome true sample_env)
              (post (Str "asha@example.com") (Str "222222")) sample_db) =
    sample_db /\
  serve (with_update_outcome true sample_env)
        (post (Str "asha@example.com") (Str "222222"))
        (db_after (serve (with_update_outcome true sample_env)
                     (post (Str "asha@example.com") (Str "222222"))
                     sample_db)) =
  serve (with_update_outcome true sample_env)
        (post (Str "asha@example.com") (Str "222222")) sample_db.
Proof.
  apply (unpersisted_update_leaves_code_usable
           (with_update_outcome true sample_env)
           (post (Str "asha@example.com") (Str "222222")) sample_db).
  reflexivity.
Defined.

(** X7. When two or more [project_managers] rows carry the email, [.single()]
    fails and a valid code is answered 404
    [{error: "Project manager not found"}], after the update of the matched
    record was issued. *)
Theorem ambiguous_pm_email_not_found
    (e : env) (req : request) (db : database) (mail code : string)
    (r : otp_row) :
  method req <> "OPTIONS" ->
  body req = JsonBody (Str mail) (Str code) ->
  mail <> "" -> code <> "" ->
  In r (otp_verifications db) ->
  otp_email r = mail -> otp_code r = code ->
  verified r = false -> now e < expires_at r ->
  (2 <= List.length
          (filter (fun q => (pm_email q =? mail)%string)
                  (project_managers db)))%nat ->
  otp_select_fails e = false ->
  reply (serve e req db) =
    {| status := 404;
       headers := jsonHeaders;
       payload := ErrorBody "Project manager not found" |} /\
  exists m : otp_row,
    In m (otp_verifications db) /\
    db_calls (serve e req db) =
      [ Select "otp_verifications";
        Update "otp_verifications" (otp_id m);
        Select "project_managers" ].
Proof.
  intros Hmeth Hbody Hmail Hcode Hin He Hc Hv Hexp Htwo Hs.
  rewrite (serve_validated e req db (Str mail) (Str code) Hmeth Hbody
             (truthy_Str mail Hmail) (truthy_Str code Hcode)).
  rewrite Hs.
  pose proof (otp_query_spec (now e) mail code (otp_verifications db)) as Hq.
  destruct (otp_query (now e) (Str mail) (Str code) (otp_verifications db))
    as [m|].
  - destruct Hq as (Hm & _). simpl. split; [|exists m; auto].
    destruct (pm_select_fails e); [reflexivity|].
    unfold pm_query, single, eq_text.
    destruct (filter (fun q => (pm_email q =? mail)%string)
                (project_managers db)) as [|q [|q' l]];
      simpl in Htwo; try lia; reflexivity.
  - exfalso. apply (Hq r Hin). unfold candidate. auto.
Qed.

Lemma ambiguous_pm_email_not_found_witness :
  reply (serve sample_env (post (Str "asha@example.com") (Str "222222"))
           {| otp_verifications := [newer_otp];
              project_managers := [sample_pm; sample_pm] |}) =
    {| status := 404;
       headers := jsonHeaders;
       payload := ErrorBody "Project manager not found" |} /\
  exists m : otp_row,
    In m [newer_otp] /\
    db_calls (serve sample_env (post (Str "asha@example.com") (Str "222222"))
                {| otp_verifications := [newer_otp];
                   project_managers := [sample_pm; sample_pm] |}) =
      [ Select "otp_verifications";
        Update "otp_verifications" (otp_id m);
        Select "project_managers" ].
Proof.
  apply (ambiguous_pm_email_not_found sample_env
           (post (Str "asha@example.com") (Str "222222"))
           {| otp_verifications := [newer_otp];
              project_managers := [sample_pm; sample_pm] |}
           "asha@example.com" "222222" newer_otp).
  - discriminate.
  - reflexivity.
  - discriminate.
  - discriminate.
  - simpl. auto.
  - reflexivity.
  - reflexivity.
  - reflexivity.
  - simpl. lia.
  - simpl. lia.
  - reflexivity.
Defined.

End VerifyOtpMore.


(* ===================================================================== *)
(** * Part VI: further properties of the analytics views                  *)
(* ===================================================================== *)

Module AnalyticsMore.
Import Analytics AnalyticsFacts.

Local Open Scope string_scope.
Local Open Scope list_scope.

(** ** The status label *)

Lemma upper_unit (c : ascii) (after_word : bool) :
  (if is_word (if is_word c && negb after_word then toUpperCase c else c)
      && negb after_word
   then toUpperCase (if is_word c && negb after_word then toUpperCase c else c)
   else (if is_word c && negb after_word then toUpperCase c else c)) =
  (if is_word c && negb after_word then toUpperCase c else c) /\
  is_word (if is_word c && negb after_word then toUpperCase c else c) =
  is_word c /\
  (Ascii.eqb c "_" = false ->
   Ascii.eqb (if is_word c && negb after_word then toUpperCase c else c) "_"
   = false).
Proof.
  destruct after_word; destruct c as [[] [] [] [] [] [] [] []];
    vm_compute; auto.
Qed.

Lemma capitalize_from_length (after_word : bool) (s : string) :
  String.length (capitalize_from after_word s) = String.length s.
Proof.
  revert after_word. induction s as [|c s IH]; intros b; simpl;
    [reflexivity|]. now rewrite IH.
Qed.

Lemma replace_underscores_length (s : string) :
  String.length (replace_underscores s) = String.length s.
Proof. induction s as [|c s IH]; simpl; [reflexivity|]. now rewrite IH. Qed.

Lemma replace_underscores_clean (s : string) :
  no_underscore (replace_underscores s).
Proof.
  induction s as [|c s IH]; simpl; [exact I|]. split; [|exact IH].
  destruct (Ascii.eqb c "_") eqn:E; [reflexivity|exact E].
Qed.

Lemma replace_underscores_id (s : string) :
  no_underscore s -> replace_underscores s = s.
Proof.
  induction s as [|c s IH]; simpl; [reflexivity|].
  intros [Hc Hs]. now rewrite Hc, IH.
Qed.

Lemma capitalize_from_clean (after_word : bool) (s : string) :
  no_underscore s -> no_underscore (capitalize_from after_word s).
Proof.
  revert after_word. induction s as [|c s IH]; intros b; simpl; [auto|].
  intros [Hc Hs]. split; [|now apply IH].
  now apply (upper_unit c b).
Qed.

Lemma capitalize_from_idempotent (after_word : bool) (s : string) :
  capitalize_from after_word (capitalize_from after_word s) =
  capitalize_from after_word s.
Proof.
  revert after_word. induction s as [|c s IH]; intros b; simpl;
    [reflexivity|].
  destruct (upper_unit c b) as (H1 & H2 & _). rewrite H1, H2, IH.
  reflexivity.
Qed.

(** X8. Humanizing a status keeps its length and is idempotent: a label
    that is humanized again is unchanged. *)
Theorem humanize_idempotent (s : string) :
  String.length (humanize s) = String.length s /\
  humanize (humanize s) = humanize s.
Proof.
  unfold humanize, capitalize_words. split.
  - now rewrite capitalize_from_length, replace_underscores_length.
  - rewrite (replace_underscores_id
               (capitalize_from false (replace_underscores s))).
    + apply capitalize_from_idempotent.
    + apply capitalize_from_clean, replace_underscores_clean.
Qed.

(** ** The status distribution *)

Lemma first_seen_perm (ks ks' : list string) :
  Permutation ks ks' -> Permutation (first_seen ks) (first_seen ks').
Proof.
  intros P. apply NoDup_Permutation; try apply NoDup_first_seen.
  intros k. rewrite !in_first_seen.
  split; apply Permutation_in; [exact P | now symmetry].
Qed.

Lemma buckets_perm (ks ks' : list string) :
  Permutation ks ks' -> Permutation (buckets ks) (buckets ks').
Proof.
  intros P. unfold buckets.
  rewrite (tally_ext (first_seen ks) (occurrences ks) (occurrences ks')).
  - unfold tally. apply Permutation_map. now apply first_seen_perm.
  - intros k _. unfold occurrences.
    now apply (proj1 (Permutation_count_occ string_dec ks ks')).
Qed.

(** X9. The order of the requests only affects the order of the buckets:
    permuting the request list permutes the status distribution, with the
    same labels and the same counts. *)
Theorem status_distribution_order_independent
    (requests requests' : list ServiceRequest) :
  Permutation requests requests' ->
  Permutation (statusDistribution requests) (statusDistribution requests').
Proof.
  intros P. rewrite !statusDistribution_entries, !entries_perm.
  apply buckets_perm. unfold labels. now apply Permutation_map.
Qed.

Lemma status_distribution_order_independent_witness :
  Permutation
    (statusDistribution (map request_with_status ["pending"; "completed"]))
    (statusDistribution (map request_with_status ["completed"; "pending"])).
Proof.
  apply (status_distribution_order_independent
           (map request_with_status ["pending"; "completed"])
           (map request_with_status ["completed"; "pending"])).
  apply perm_swap.
Defined.

Lemma first_seen_constant (k : string) (ks : list string) :
  Forall (fun k' => k' = k) ks -> first_seen (k :: ks) = [k].
Proof.
  induction 1 as [|k' ks -> _ IH]; simpl; [reflexivity|].
  simpl in IH. injection IH as IH.
  destruct (string_dec k k) as [_|Hne]; [|contradiction].
  now rewrite IH.
Qed.

Lemma occurrences_constant (k : string) (ks : list string) :
  Forall (fun k' => k' = k) ks -> occurrences ks k = List.length ks.
Proof.
  unfold occurrences. induction 1 as [|k' ks -> _ IH]; simpl; [reflexivity|].
  destruct (string_dec k k) as [_|Hne]; [|contradiction]. now rewrite IH.
Qed.

Lemma buckets_constant (k : string) (ks : list string) :
  Forall (fun k' => k' = k) ks ->
  buckets (k :: ks) = [(k, Num (S (List.length ks)))].
Proof.
  intros H. unfold buckets, tally.
  rewrite (first_seen_constant k ks H). cbn [map].
  rewrite (occurrences_constant k (k :: ks)).
  - reflexivity.
  - constructor; [reflexivity|exact H].
Qed.

Lemma entries_singleton (b : string * jsvalue) : entries [b] = [b].
Proof. unfold entries. simpl. destruct (is_index (fst b)); reflexivity. Qed.

(** X10. When every request has the same status, and there is at least
    one, the distribution is the single bucket of that status's label with
    the number of requests. *)
Theorem status_distribution_single_status
    (requests : list ServiceRequest) (s : string) :
  requests <> [] ->
  Forall (fun r => status r = s) requests ->
  statusDistribution requests =
    [(humanize s, Num (List.length requests))].
Proof.
  intros Hne Hall. rewrite statusDistribution_entries.
  destruct requests as [|r requests]; [contradiction|].
  inversion Hall as [|? ? Hr Hrest]; subst.
  assert (Hl : Forall (fun k => k = humanize (status r)) (labels requests)).
  { unfold labels. apply Forall_forall. intros k Hk.
    apply in_map_iff in Hk as (r' & <- & Hr').
    rewrite Forall_forall in Hrest. now rewrite (Hrest r' Hr'). }
  change (labels (r :: requests))
    with (humanize (status r) :: labels requests).
  rewrite (buckets_constant _ _ Hl), entries_singleton.
  unfold labels. now rewrite length_map.
Qed.

Lemma status_distribution_single_status_witness :
  statusDistribution
    (map request_with_status ["in_progress"; "in_progress"; "in_progress"]) =
  [(humanize "in_progress", Num 3)].
Proof.
  apply (status_distribution_single_status
           (map request_with_status
                ["in_progress"; "in_progress"; "in_progress"])
           "in_progress").
  - discriminate.
  - repeat constructor.
Defined.

(** ** The request trend *)

Lemma buckets_keys (ks : list string) : map fst (buckets ks) = first_seen ks.
Proof. unfold buckets. apply tally_keys. Qed.

Lemma buckets_length (ks : list string) :
  List.length (buckets ks) = List.length (first_seen ks).
Proof. unfold buckets, tally. apply length_map. Qed.

(** X11. When no month label is an inherited property name or an array
    index, the request trend is the tail of the month buckets taken in order
    of first appearance, each with the number of requests of that month: all
    of them when there are at most six, the last six otherwise. *)
Theorem request_trends_last_six
    (month_key : string -> string) (requests : list ServiceRequest) :
  Forall (fun k => inherited k = false /\ is_index k = false)
         (month_keys month_key requests) ->
  exists earlier,
    buckets (month_keys month_key requests) =
      earlier ++ requestTrends month_key requests /\
    List.length (requestTrends month_key requests) =
      Nat.min 6 (List.length (first_seen (month_keys month_key requests))).
Proof.
  intros H. rewrite Forall_forall in H. unfold requestTrends.
  rewrite (fold_left_keys ServiceRequest
             (fun r => month_key (created_at r)) requests []).
  fold (month_keys month_key requests).
  rewrite counting_loop by (intros k Hk; now apply H).
  rewrite entries_insertion_order.
  - unfold slice_last.
    exists (firstn (List.length (buckets (month_keys month_key requests)) - 6)
                   (buckets (month_keys month_key requests))).
    split; [now rewrite firstn_skipn|].
    rewrite length_skipn, buckets_length. lia.
  - intros [k v] Hb. simpl. apply H. apply in_first_seen.
    rewrite <- buckets_keys. now apply (in_map fst) in Hb.
Qed.

Lemma request_trends_last_six_witness :
  List.length
    (first_seen (month_keys (fun d => substring 0 7 d) eight_months)) = 8 /\
  requestTrends (fun d => substring 0 7 d) eight_months =
    [ ("2025-03", Num 1); ("2025-04", Num 1); ("2025-05", Num 1);
      ("2025-06", Num 1); ("2025-07", Num 2); ("2025-08", Num 1) ] /\
  exists earlier,
    buckets (month_keys (fun d => substring 0 7 d) eight_months) =
      earlier ++ requestTrends (fun d => substring 0 7 d) eight_months /\
    List.length (requestTrends (fun d => substring 0 7 d) eight_months) =
      Nat.min 6
        (List.length
           (first_seen
              (month_keys (fun d => substring 0 7 d) eight_months))).
Proof.
  split; [reflexivity|]. split; [reflexivity|].
  apply (request_trends_last_six (fun d => substring 0 7 d) eight_months).
  repeat constructor.
Defined.

(** ** The popular services *)

Lemma insert_sorted_perm (a : string * jsvalue)
    (l : list (string * jsvalue)) :
  Permutation (insert_sorted a l) (a :: l).
Proof.
  induction l as [|b l IH]; simpl; [reflexivity|].
  destruct (compare_desc a b <=? 0)%Z; [reflexivity|].
  rewrite IH. apply perm_swap.
Qed.

Lemma sort_desc_perm (l : list (string * jsvalue)) :
  Permutation (sort_desc l) l.
Proof.
  induction l as [|a l IH]; simpl; [reflexivity|].
  rewrite insert_sorted_perm. now constructor.
Qed.

Lemma compare_desc_num (a b : string * jsvalue) :
  is_num a = true -> is_num b = true ->
  (compare_desc a b <=? 0)%Z = Nat.leb (count_of b) (count_of a).
Proof.
  unfold is_num, compare_desc, count_of.
  destruct (snd a), (snd b); try discriminate. intros _ _.
  destruct (Nat.leb n0 n) eqn:E.
  - apply Nat.leb_le in E. apply Z.leb_le. lia.
  - apply Nat.leb_gt in E. apply Z.leb_gt. lia.
Qed.

Lemma insert_sorted_descending (a : string * jsvalue)
    (l : list (string * jsvalue)) :
  is_num a = true -> Forall (fun b => is_num b = true) l ->
  descending l -> descending (insert_sorted a l).
Proof.
  intros Ha. induction 1 as [|b l Hb Hl IH]; simpl.
  - intros _. split; [intros ? []|exact I].
  - intros [Hhead Hrest]. rewrite (compare_desc_num a b Ha Hb).
    destruct (Nat.leb (count_of b) (count_of a)) eqn:E; simpl.
    + apply Nat.leb_le in E. split; [|split; assumption].
      intros x [<-|Hx]; [exact E|]. specialize (Hhead x Hx). lia.
    + apply Nat.leb_gt in E. split; [|now apply IH].
      intros x Hx. apply (Permutation_in _ (insert_sorted_perm a l)) in Hx.
      destruct Hx as [<-|Hx]; [lia|now apply Hhead].
Qed.

Lemma sort_desc_descending (l : list (string * jsvalue)) :
  Forall (fun b => is_num b = true) l -> descending (sort_desc l).
Proof.
  induction 1 as [|a l Ha Hl IH]; simpl; [exact I|].
  apply insert_sorted_descending; [exact Ha| |exact IH].
  apply Forall_forall. intros b Hb.
  apply (Permutation_in _ (sort_desc_perm l)) in Hb.
  rewrite Forall_forall in Hl. now apply Hl.
Qed.

Lemma descending_app (l1 l2 : list (string * jsvalue)) :
  descending (l1 ++ l2) ->
  descending l1 /\
  forall a b, In a l1 -> In b l2 -> count_of b <= count_of a.
Proof.
  induction l1 as [|x l1 IH]; simpl.
  - intros _. split; [exact I|]. intros ? ? [].
  - intros [Hhead Hrest]. destruct (IH Hrest) as [Hd Hcross].
    split; [split; [|exact Hd]|].
    + intros b Hb. apply Hhead, in_or_app. now left.
    + intros a b [<-|Ha] Hb.
      * apply Hhead, in_or_app. now right.
      * now apply Hcross.
Qed.

Lemma buckets_are_numbers (ks : list string) :
  Forall (fun b => is_num b = true) (buckets ks).
Proof.
  unfold buckets, tally. apply Forall_forall. intros b Hb.
  apply in_map_iff in Hb as (k & <- & _). reflexivity.
Qed.

(** X12. When no service type is an inherited property name, the popular
    services are the six most requested types (all of them when there are
    fewer), requests without a type counted under "Unspecified": the entries
    are buckets of the request list by descending count, and no bucket left
    out has a greater count than one that is shown. *)
Theorem popular_services_top_six (requests : list ServiceRequest) :
  Forall (fun k => inherited k = false) (service_keys requests) ->
  exists dropped,
    Permutation (popularServices requests ++ dropped)
                (buckets (service_keys requests)) /\
    List.length (popularServices requests) =
      Nat.min 6 (List.length (first_seen (service_keys requests))) /\
    descending (popularServices requests) /\
    Forall (fun d =>
              Forall (fun shown => count_of d <= count_of shown)
                     (popularServices requests))
           dropped.
Proof.
  intros H. rewrite Forall_forall in H. unfold popularServices.
  rewrite (fold_left_keys ServiceRequest
             (fun r => or_else (service_type r) "Unspecified") requests []).
  fold (service_keys requests).
  rewrite counting_loop by exact H.
  set (sorted := sort_desc (entries (buckets (service_keys requests)))).
  assert (P : Permutation sorted (buckets (service_keys requests))).
  { unfold sorted. rewrite sort_desc_perm. apply entries_perm. }
  assert (D : descending sorted).
  { unfold sorted. apply sort_desc_descending.
    apply Forall_forall. intros b Hb.
    apply (proj1 (entries_in jsvalue _ b)) in Hb.
    pose proof (buckets_are_numbers (service_keys requests)) as Hn.
    rewrite Forall_forall in Hn. now apply Hn. }
  unfold slice_first. exists (skipn 6 sorted).
  rewrite firstn_skipn. split; [exact P|].
  rewrite <- (firstn_skipn 6 sorted) in D.
  destruct (descending_app _ _ D) as [D1 Hcross].
  split; [|split; [exact D1|]].
  - rewrite length_firstn, (Permutation_length P), buckets_length. lia.
  - apply Forall_forall. intros d Hd. apply Forall_forall.
    intros shown Hshown. now apply Hcross.
Qed.

Lemma popular_services_top_six_witness :
  List.length (first_seen (service_keys eight_services)) = 8 /\
  popularServices eight_services =
    [ ("ads", Num 4); ("web", Num 3); ("Unspecified", Num 2);
      ("seo", Num 2); ("app", Num 1); ("logo", Num 1) ] /\
  exists dropped,
    Permutation
      (popularServices eight_services ++ dropped)
      (buckets (service_keys eight_services)) /\
    List.length (popularServices eight_services) =
      Nat.min 6 (List.length (first_seen (service_keys eight_services))) /\
    descending (popularServices eight_services) /\
    Forall (fun d =>
              Forall (fun shown => count_of d <= count_of shown)
                     (popularServices eight_services))
           dropped.
Proof.
  split; [reflexivity|]. split; [reflexivity|].
  apply (popular_services_top_six eight_services).
  repeat constructor.
Defined.

(** ** The PM workload *)

Lemma list_sum_map_add (A : Type) (a b : A -> nat) (l : list A) :
  list_sum (map (fun x => a x + b x) l) =
  list_sum (map a l) + list_sum (map b l).
Proof. induction l as [|x l IH]; simpl; [reflexivity|]. rewrite IH. lia. Qed.

Lemma indicator_sum (n' : string) (keys : list string) :
  NoDup keys ->
  list_sum (map (fun n => if n' =? n then 1 else 0) keys) =
  if existsb (String.eqb n') keys then 1 else 0.
Proof.
  induction 1 as [|k keys Hk Hkeys IH]; simpl; [reflexivity|].
  rewrite IH. destruct (n' =? k) eqn:E; simpl; [|reflexivity].
  apply String.eqb_eq in E. subst k.
  destruct (existsb (String.eqb n') keys) eqn:Ex; [|reflexivity].
  apply existsb_exists in Ex as (k & Hin & Ek).
  apply String.eqb_eq in Ek. subst k. contradiction.
Qed.

Lemma projects_under_total (pms : list ProjectManager)
    (requests : list ServiceRequest) (keys : list string) :
  NoDup keys ->
  list_sum (map (projects_under pms requests) keys) =
  List.length
    (filter (fun r => match counted_under pms r with
                      | Some n' => existsb (String.eqb n') keys
                      | None => false
                      end)
            requests).
Proof.
  intros Hnd. induction requests as [|r requests IH]; simpl.
  - unfold projects_under. simpl. induction keys; simpl; auto.
    apply IHkeys. now inversion Hnd.
  - rewrite (map_ext (projects_under pms (r :: requests))
               (fun n => (match counted_under pms r with
                          | Some n' => if n' =? n then 1 else 0
                          | None => 0
                          end) + projects_under pms requests n)).
    + rewrite list_sum_map_add, IH.
      destruct (counted_under pms r) as [n'|].
      * rewrite (indicator_sum n' keys Hnd).
        destruct (existsb (String.eqb n') keys); reflexivity.
      * simpl. assert (Hz : list_sum (map (fun _ : string => 0) keys) = 0)
          by (clear; induction keys; simpl; auto).
        now rewrite Hz.
    + intros n. unfold projects_under. simpl.
      destruct (counted_under pms r) as [n'|]; [|reflexivity].
      destruct (n' =? n); reflexivity.
Qed.

Lemma counted_in_keys (pms : list ProjectManager) (r : ServiceRequest) :
  match counted_under pms r with
  | Some n' => existsb (String.eqb n') (workload_keys pms)
  | None => false
  end = counted pms r.
Proof.
  unfold counted. destruct (counted_under pms r) as [n'|] eqn:Ec;
    [|reflexivity].
  destruct (counted_under_some pms r n' Ec)
    as (w & pm & _ & _ & _ & Hin & _ & Hn).
  destruct (n' =? "__proto__") eqn:Ep; simpl.
  - apply String.eqb_eq in Ep. rewrite Ep.
    destruct (existsb (String.eqb "__proto__") (workload_keys pms)) eqn:Ex;
      [|reflexivity].
    apply existsb_exists in Ex as (k & Hk & Ek).
    apply String.eqb_eq in Ek. subst k.
    exfalso. exact (workload_keys_no_proto pms Hk).
  - apply existsb_exists. exists n'. split; [|apply String.eqb_refl].
    apply workload_keys_in. apply String.eqb_neq in Ep. eauto.
Qed.

(** X13. Every value of the PM workload is a number, and together they
    count exactly the requests whose [assigned_pm_id] is non-empty and is
    the id of a known PM (not named [__proto__]): unassigned requests and
    requests assigned to an unknown id are counted nowhere, so the total
    never exceeds the number of requests. *)
Theorem pm_workload_total
    (requests : list ServiceRequest) (pms : list ProjectManager) :
  exists counts : list nat,
    map snd (pmWorkload requests pms) = map Num counts /\
    list_sum counts = List.length (filter (counted pms) requests) /\
    list_sum counts <= List.length requests.
Proof.
  rewrite pmWorkload_entries.
  pose proof (entries_perm jsvalue
                (tally (workload_keys pms) (projects_under pms requests)))
    as P.
  apply (Permutation_map snd) in P. rewrite tally_values in P.
  apply Permutation_map_inv in P as (counts & Hc & Pc).
  exists counts. split; [exact Hc|].
  assert (Hsum : list_sum counts =
                 List.length (filter (counted pms) requests)).
  { rewrite <- (list_sum_perm _ _ Pc).
    rewrite projects_under_total by apply NoDup_first_seen.
    f_equal. apply filter_ext. intros r. apply counted_in_keys. }
  split; [exact Hsum|]. rewrite Hsum. apply filter_length_le.
Qed.

(** ** What the charts show *)

(** X23. The status chart has no bucket, and so falls back to "No data
    yet", exactly when there is no request. *)
Theorem status_chart_empty_iff_no_request (requests : list ServiceRequest) :
  statusDistribution requests = [] <-> requests = [].
Proof.
  split; [|intros ->; reflexivity].
  intros H. destruct requests as [|r requests]; [reflexivity|].
  exfalso.
  assert (Hin : In (humanize (status r))
                   (map fst (statusDistribution (r :: requests)))).
  { rewrite statusDistribution_entries.
    pose proof (entries_perm jsvalue (buckets (labels (r :: requests)))) as P.
    apply (Permutation_in _ (Permutation_sym (Permutation_map fst P))).
    rewrite buckets_keys. apply in_first_seen. now left. }
  rewrite H in Hin. exact Hin.
Qed.

(** X29. The popular services never have more cells than the palette has
    colours, so no two of their cells share a fill. *)
Theorem popular_service_cells_have_distinct_fills
    (requests : list ServiceRequest) (i j : nat) :
  i < j -> j < List.length (popularServices requests) ->
  cell_fill i <> cell_fill j.
Proof.
  intros Hij Hj.
  assert (Hlen : List.length (popularServices requests) <= 6).
  { unfold popularServices, slice_first. apply firstn_le_length. }
  assert (Hj6 : j < 6) by lia. clear Hj Hlen.
  do 6 (destruct j as [|j]; [
    repeat (destruct i as [|i]; [discriminate|]); lia |]).
  lia.
Qed.

Lemma popular_service_cells_have_distinct_fills_witness :
  cell_fill 0 <> cell_fill 1.
Proof.
  apply (popular_service_cells_have_distinct_fills
           [ {| request_id := "a"; title := "t"; status := "pending";
                priority := "normal"; service_type := Some "web";
                created_at := "x"; assigned_pm_id := None |};
             {| request_id := "b"; title := "t"; status := "pending";
                priority := "normal"; service_type := Some "app";
                created_at := "x"; assigned_pm_id := None |} ] 0 1).
  - lia.
  - simpl. lia.
Defined.

End AnalyticsMore.


(* ===================================================================== *)
(** * Part VII: properties of the PM dashboard                            *)
(* ===================================================================== *)

Module DashboardFacts.
Import Dashboard.

Local Open Scope string_scope.
Local Open Scope list_scope.

(** ** The two queries *)

Lemma insert_desc_perm (A : Type) (key : A -> Z) (x : A) (l : list A) :
  Permutation (VerifyOtp.insert_desc key x l) (x :: l).
Proof.
  induction l as [|y l IH]; simpl; [reflexivity|].
  destruct (key y <=? key x)%Z; [reflexivity|].
  rewrite IH. apply perm_swap.
Qed.

Lemma order_desc_perm (A : Type) (key : A -> Z) (l : list A) :
  Permutation (VerifyOtp.order_desc key l) l.
Proof.
  induction l as [|x l IH]; simpl; [reflexivity|].
  rewrite insert_desc_perm. now constructor.
Qed.

Lemma insert_desc_newest_first (x : ServiceRequest)
    (l : list ServiceRequest) :
  newest_first l -> newest_first (VerifyOtp.insert_desc created_at x l).
Proof.
  induction l as [|y l IH]; simpl.
  - intros _. split; [intros ? []|exact I].
  - intros [Hy Hl]. destruct (created_at y <=? created_at x)%Z eqn:E; simpl.
    + apply Z.leb_le in E. split; [|split; assumption].
      intros r [<-|Hr]; [exact E|]. specialize (Hy r Hr). lia.
    + apply Z.leb_gt in E. split; [|now apply IH].
      intros r Hr.
      apply (Permutation_in _ (insert_desc_perm _ created_at x l)) in Hr.
      destruct Hr as [<-|Hr]; [lia|now apply Hy].
Qed.

Lemma select_projects_newest_first (pmId : string)
    (rows : list ServiceRequest) :
  newest_first (select_projects pmId rows).
Proof.
  unfold select_projects.
  induction (filter (assigned pmId) rows) as [|x l IH]; simpl; [exact I|].
  now apply insert_desc_newest_first.
Qed.

Lemma select_projects_perm (pmId : string) (rows : list ServiceRequest) :
  Permutation (select_projects pmId rows) (filter (assigned pmId) rows).
Proof. unfold select_projects. apply order_desc_perm. Qed.

(** [.eq('assigned_pm_id', pmId)] keeps the rows whose column is [pmId]. *)
Lemma assigned_true (pmId : string) (r : ServiceRequest) :
  assigned pmId r = true <-> assigned_pm_id r = Some pmId.
Proof.
  unfold assigned. destruct (assigned_pm_id r) as [a|].
  - rewrite String.eqb_eq. split; [now intros ->|now intros [= ->]].
  - split; discriminate.
Qed.

Lemma filter_split (A : Type) (f : A -> bool) (l : list A) :
  Permutation l (filter f l ++ filter (fun x => negb (f x)) l).
Proof.
  induction l as [|x l IH]; simpl; [reflexivity|].
  destruct (f x); simpl.
  - now constructor.
  - now apply Permutation_cons_app.
Qed.

(** The rows a project query returns and the rows it leaves out. *)
Lemma select_projects_partition (pmId : string)
    (rows : list ServiceRequest) :
  exists others,
    Permutation rows (select_projects pmId rows ++ others) /\
    Forall (fun r => assigned_pm_id r = Some pmId)
           (select_projects pmId rows) /\
    Forall (fun r => assigned_pm_id r <> Some pmId) others.
Proof.
  exists (filter (fun r => negb (assigned pmId r)) rows). split; [|split].
  - rewrite select_projects_perm. apply filter_split.
  - apply Forall_forall. intros r Hr.
    apply (Permutation_in _ (select_projects_perm pmId rows)) in Hr.
    apply filter_In in Hr as [_ Hr]. now apply assigned_true.
  - apply Forall_forall. intros r Hr.
    apply filter_In in Hr as [_ Hr]. apply negb_true_iff in Hr.
    intros H. apply assigned_true in H. congruence.
Qed.

(** ** Maps *)

Lemma map_has_get (k : string) (m : profile_map) :
  map_has k m = match map_get k m with Some _ => true | None => false end.
Proof.
  induction m as [|[k' v] m IH]; simpl; [reflexivity|].
  destruct (k' =? k); simpl; [reflexivity|exact IH].
Qed.

Lemma map_get_replace (k k' : string) (v : Profile) (m : profile_map) :
  map_has k' m = true ->
  map_get k (map_replace k' v m) = if k' =? k then Some v else map_get k m.
Proof.
  induction m as [|[k0 v0] m IH]; simpl; [discriminate|].
  destruct (k0 =? k') eqn:E0; simpl.
  - intros _. apply String.eqb_eq in E0. subst k0.
    destruct (k' =? k); reflexivity.
  - intros H. rewrite (IH H).
    destruct (k0 =? k) eqn:E1; [|reflexivity].
    apply String.eqb_eq in E1. subst k0. now rewrite String.eqb_sym, E0.
Qed.

Lemma map_get_append (k k' : string) (v : Profile) (m : profile_map) :
  map_has k' m = false ->
  map_get k (m ++ [(k', v)]) = if k' =? k then Some v else map_get k m.
Proof.
  induction m as [|[k0 v0] m IH]; simpl; [reflexivity|].
  destruct (k0 =? k') eqn:E0; simpl; [discriminate|].
  intros H. rewrite (IH H).
  destruct (k0 =? k) eqn:E1; [|reflexivity].
  apply String.eqb_eq in E1. subst k0. now rewrite String.eqb_sym, E0.
Qed.

(** [m.set(k', v)] then [m.get(k)]. *)
Lemma map_get_set (k k' : string) (v : Profile) (m : profile_map) :
  map_get k (map_set k' v m) = if k' =? k then Some v else map_get k m.
Proof.
  unfold map_set. destruct (map_has k' m) eqn:E.
  - now apply map_get_replace.
  - now apply map_get_append.
Qed.

Lemma find_over_app (A : Type) (f : A -> bool) (l1 l2 : list A) :
  find f (l1 ++ l2) =
  match find f l1 with
  | Some x => Some x
  | None => find f l2
  end.
Proof.
  induction l1 as [|x l1 IH]; simpl; [reflexivity|].
  destruct (f x); [reflexivity|exact IH].
Qed.

(** A map built from entries answers with the last entry of the key. *)
Lemma map_get_fold (k : string) (entries : list (string * Profile))
    (m : profile_map) :
  map_get k (fold_left (fun m kv => map_set (fst kv) (snd kv) m) entries m) =
  match find (fun kv => fst kv =? k) (rev entries) with
  | Some kv => Some (snd kv)
  | None => map_get k m
  end.
Proof.
  revert m. induction entries as [|[k' v] entries IH]; intros m; simpl;
    [reflexivity|].
  rewrite IH, find_over_app.
  destruct (find (fun kv => fst kv =? k) (rev entries)); [reflexivity|].
  simpl. rewrite map_get_set. destruct (k' =? k); reflexivity.
Qed.

Lemma find_filter_same (A : Type) (f g : A -> bool) (l : list A) :
  (forall x, f x = true -> g x = true) ->
  find f (filter g l) = find f l.
Proof.
  intros H. induction l as [|x l IH]; simpl; [reflexivity|].
  destruct (g x) eqn:Eg; simpl.
  - destruct (f x); [reflexivity|exact IH].
  - destruct (f x) eqn:Ef; [|exact IH].
    rewrite (H x Ef) in Eg. discriminate.
Qed.

Lemma find_map_entry (k : string) (l : list Profile) :
  find (fun kv : string * Profile => fst kv =? k)
       (map (fun p => (profile_user_id p, p)) l) =
  option_map (fun p => (profile_user_id p, p))
             (find (fun p => profile_user_id p =? k) l).
Proof.
  induction l as [|p l IH]; simpl; [reflexivity|].
  destruct (profile_user_id p =? k); [reflexivity|exact IH].
Qed.

(** ** [fetchProjects] *)

(** X14. After a fetch whose project query succeeded, the page lists exactly
    the rows of [service_requests] whose [assigned_pm_id] is the PM id it
    asked for: the table is the list together with rows of another or of no
    PM.  The list is newest first; the spinner is off, and the fetch itself
    wrote nothing and showed no toast. *)
Theorem fetch_lists_assigned_newest_first
    (e : env) (pmId : string) (s : state) (w : world) :
  projects_select_fails e = false ->
  (exists others,
     Permutation (service_requests (db w))
                 (projects (fst (fetchProjects e pmId (s, w))) ++ others) /\
     Forall (fun r => assigned_pm_id r = Some pmId)
            (projects (fst (fetchProjects e pmId (s, w)))) /\
     Forall (fun r => assigned_pm_id r <> Some pmId) others) /\
  newest_first (projects (fst (fetchProjects e pmId (s, w)))) /\
  loading (fst (fetchProjects e pmId (s, w))) = false /\
  db (snd (fetchProjects e pmId (s, w))) = db w /\
  toasts (snd (fetchProjects e pmId (s, w))) = toasts w.
Proof.
  intros H. unfold fetchProjects. rewrite H. simpl.
  pose proof (select_projects_partition pmId (service_requests (db w))) as P.
  pose proof (select_projects_newest_first pmId (service_requests (db w)))
    as N.
  destruct (0 <? List.length
              (Analytics.first_seen
                 (map user_id
                      (select_projects pmId (service_requests (db w))))))%nat;
    [destruct (profiles_select_fails e)|]; simpl; auto.
Qed.

Lemma fetch_lists_assigned_newest_first_witness :
  projects (fst (fetchProjects calm "pm-1" (sample_state, sample_world))) =
    [ sample_request "req-2" "in_progress" (Some "kickoff") 30
                     "user-2" "pm-1";
      sample_request "req-1" "pending" None 10 "user-1" "pm-1" ] /\
  (exists others,
     Permutation
       (service_requests (db sample_world))
       (projects (fst (fetchProjects calm "pm-1"
                         (sample_state, sample_world))) ++ others) /\
     Forall (fun r => assigned_pm_id r = Some "pm-1")
            (projects (fst (fetchProjects calm "pm-1"
                              (sample_state, sample_world)))) /\
     Forall (fun r => assigned_pm_id r <> Some "pm-1") others) /\
  newest_first
    (projects (fst (fetchProjects calm "pm-1" (sample_state, sample_world))))
  /\
  loading (fst (fetchProjects calm "pm-1" (sample_state, sample_world)))
  = false /\
  db (snd (fetchProjects calm "pm-1" (sample_state, sample_world)))
  = db sample_world /\
  toasts (snd (fetchProjects calm "pm-1" (sample_state, sample_world)))
  = toasts sample_world.
Proof.
  split; [reflexivity|].
  apply (fetch_lists_assigned_newest_first calm "pm-1"
           sample_state sample_world).
  reflexivity.
Defined.

(** X15. When the project query fails, the list and the profile map stay
    as they were, the spinner is switched off, one destructive toast
    "Failed to load projects" is shown, and no profile query is made. *)
Theorem failed_fetch_keeps_listing
    (e : env) (pmId : string) (s : state) (w : world) :
  projects_select_fails e = true ->
  projects (fst (fetchProjects e pmId (s, w))) = projects s /\
  profiles (fst (fetchProjects e pmId (s, w))) = profiles s /\
  loading (fst (fetchProjects e pmId (s, w))) = false /\
  toasts (snd (fetchProjects e pmId (s, w))) =
    toasts w ++ [ {| toast_title := "Error";
                     toast_description := Some "Failed to load projects";
                     toast_variant := Some "destructive" |} ] /\
  calls (snd (fetchProjects e pmId (s, w))) =
    calls w ++ [SelectProjects pmId] /\
  db (snd (fetchProjects e pmId (s, w))) = db w.
Proof.
  intros H. unfold fetchProjects. rewrite H. simpl. repeat split.
Qed.

Lemma failed_fetch_keeps_listing_witness :
  projects (fst (fetchProjects
                   {| projects_select_fails := true;
                      profiles_select_fails := false;
                      status_update_fails := false;
                      notes_update_fails := false;
                      locale_now := "now" |}
                   "pm-1" (sample_state, sample_world))) =
  projects sample_state.
Proof.
  apply (failed_fetch_keeps_listing
           {| projects_select_fails := true;
              profiles_select_fails := false;
              status_update_fails := false;
              notes_update_fails := false;
              locale_now := "now" |}
           "pm-1" sample_state sample_world).
  reflexivity.
Defined.

(** After a fetch in which both queries succeeded, the map answers for the
    user of a listed project as a search of the profile rows does. *)
Lemma fetched_profiles_lookup
    (e : env) (pmId : string) (s : state) (w : world) :
  projects_select_fails e = false ->
  profiles_select_fails e = false ->
  Forall
    (fun p =>
       map_get (user_id p) (profiles (fst (fetchProjects e pmId (s, w)))) =
       find (fun q => profile_user_id q =? user_id p)
            (rev (profiles_table (db w))))
    (projects (fst (fetchProjects e pmId (s, w)))).
Proof.
  intros H1 H2. unfold fetchProjects. rewrite H1. simpl.
  set (rows := select_projects pmId (service_requests (db w))).
  set (userIds := Analytics.first_seen (map user_id rows)).
  assert (Hids : forall p, In p rows -> In (user_id p) userIds).
  { intros p Hp. unfold userIds. apply AnalyticsFacts.in_first_seen.
    now apply in_map. }
  destruct (0 <? List.length userIds)%nat eqn:E.
  - rewrite H2. simpl. apply Forall_forall. intros p Hp.
    unfold new_Map. rewrite map_get_fold. simpl.
    rewrite <- map_rev, find_map_entry.
    unfold select_profiles. rewrite <- filter_rev.
    rewrite find_filter_same.
    + destruct (find (fun q => profile_user_id q =? user_id p)
                  (rev (profiles_table (db w)))); reflexivity.
    + intros q Hq. apply String.eqb_eq in Hq. apply existsb_exists.
      exists (user_id p). split; [now apply Hids|now apply String.eqb_eq].
  - simpl. apply Forall_forall. intros p Hp. exfalso.
    specialize (Hids p Hp). destruct userIds; [contradiction|discriminate].
Qed.

(** X16. After a fetch in which both queries succeeded, looking up the
    user of any listed project in the profile map gives a profile row of
    that user when the profile table has one, and nothing when it has
    none. *)
Theorem fetched_profiles_answer_by_user
    (e : env) (pmId : string) (s : state) (w : world) :
  projects_select_fails e = false ->
  profiles_select_fails e = false ->
  Forall
    (fun p =>
       match map_get (user_id p)
               (profiles (fst (fetchProjects e pmId (s, w)))) with
       | Some q =>
           In q (profiles_table (db w)) /\ profile_user_id q = user_id p
       | None =>
           forall q, In q (profiles_table (db w)) ->
                     profile_user_id q <> user_id p
       end)
    (projects (fst (fetchProjects e pmId (s, w)))).
Proof.
  intros H1 H2.
  pose proof (fetched_profiles_lookup e pmId s w H1 H2) as H.
  rewrite Forall_forall in *. intros p Hp. rewrite (H p Hp).
  destruct (find (fun q => profile_user_id q =? user_id p)
              (rev (profiles_table (db w)))) as [q|] eqn:Ef.
  - apply find_some in Ef as [Hin Hq]. apply in_rev in Hin.
    split; [exact Hin|now apply String.eqb_eq].
  - intros q Hq Heq. apply in_rev in Hq.
    pose proof (find_none _ _ Ef q Hq) as Hn. simpl in Hn.
    rewrite Heq, String.eqb_refl in Hn. discriminate.
Qed.

Lemma fetched_profiles_answer_by_user_witness :
  Forall
    (fun p =>
       match map_get (user_id p)
               (profiles (fst (fetchProjects calm "pm-1"
                                 (sample_state, sample_world)))) with
       | Some q =>
           In q (profiles_table (db sample_world)) /\
           profile_user_id q = user_id p
       | None =>
           forall q, In q (profiles_table (db sample_world)) ->
                     profile_user_id q <> user_id p
       end)
    (projects (fst (fetchProjects calm "pm-1" (sample_state, sample_world)))).
Proof.
  apply (fetched_profiles_answer_by_user calm "pm-1"
           sample_state sample_world); reflexivity.
Defined.

(** X17. When no request is assigned to the PM, a successful fetch empties
    the list but makes no profile query and keeps whatever profile map the
    page had. *)
Theorem empty_fetch_keeps_profiles
    (e : env) (pmId : string) (s : state) (w : world) :
  projects_select_fails e = false ->
  filter (assigned pmId) (service_requests (db w)) = [] ->
  projects (fst (fetchProjects e pmId (s, w))) = [] /\
  profiles (fst (fetchProjects e pmId (s, w))) = profiles s /\
  calls (snd (fetchProjects e pmId (s, w))) =
    calls w ++ [SelectProjects pmId].
Proof.
  intros H Hnone. unfold fetchProjects, select_projects. rewrite H.
  unfold call. cbn [db]. rewrite Hnone. simpl. repeat split.
Qed.

Lemma empty_fetch_keeps_profiles_witness :
  projects (fst (fetchProjects calm "pm-9" (sample_state, sample_world)))
  = [] /\
  profiles (fst (fetchProjects calm "pm-9" (sample_state, sample_world)))
  = profiles sample_state /\
  calls (snd (fetchProjects calm "pm-9" (sample_state, sample_world))) =
    calls sample_world ++ [SelectProjects "pm-9"].
Proof.
  apply (empty_fetch_keeps_profiles calm "pm-9" sample_state sample_world);
    reflexivity.
Defined.

(** ** What a fetch leaves alone *)

Lemma fetchProjects_frame (e : env) (pmId : string) (s : state) (w : world) :
  db (snd (fetchProjects e pmId (s, w))) = db w /\
  session (snd (fetchProjects e pmId (s, w))) = session w /\
  location (snd (fetchProjects e pmId (s, w))) = location w /\
  pm (fst (fetchProjects e pmId (s, w))) = pm s /\
  noteText (fst (fetchProjects e pmId (s, w))) = noteText s /\
  savingNote (fst (fetchProjects e pmId (s, w))) = savingNote s.
Proof.
  unfold fetchProjects.
  destruct (projects_select_fails e); simpl; [repeat split|].
  destruct (0 <? List.length
              (Analytics.first_seen
                 (map user_id
                      (select_projects pmId (service_requests (db w))))))%nat;
    [destruct (profiles_select_fails e)|]; simpl; repeat split.
Qed.

Lemma refetch_frame (e : env) (s : state) (w : world) :
  db (snd (refetch e (s, w))) = db w /\
  session (snd (refetch e (s, w))) = session w /\
  location (snd (refetch e (s, w))) = location w /\
  pm (fst (refetch e (s, w))) = pm s /\
  noteText (fst (refetch e (s, w))) = noteText s /\
  savingNote (fst (refetch e (s, w))) = savingNote s.
Proof.
  unfold refetch. cbn [fst]. destruct (pm s) as [p|] eqn:E.
  - destruct (fetchProjects_frame e (VerifyOtp.id p) s w)
      as (H1 & H2 & H3 & H4 & H5 & H6).
    repeat split; congruence.
  - repeat split. exact E.
Qed.

Lemma fetchProjects_projects (e : env) (pmId : string) (s : state)
    (w : world) :
  projects_select_fails e = false ->
  projects (fst (fetchProjects e pmId (s, w))) =
  select_projects pmId (service_requests (db w)).
Proof.
  intros H. unfold fetchProjects. rewrite H. simpl.
  destruct (0 <? List.length
              (Analytics.first_seen
                 (map user_id
                      (select_projects pmId (service_requests (db w))))))%nat;
    [destruct (profiles_select_fails e)|]; reflexivity.
Qed.

Lemma fetchProjects_toasts (e : env) (pmId : string) (s : state)
    (w : world) :
  projects_select_fails e = false ->
  toasts (snd (fetchProjects e pmId (s, w))) = toasts w.
Proof.
  intros H. unfold fetchProjects. rewrite H. simpl.
  destruct (0 <? List.length
              (Analytics.first_seen
                 (map user_id
                      (select_projects pmId (service_requests (db w))))))%nat;
    [destruct (profiles_select_fails e)|]; reflexivity.
Qed.

(** ** [updateStatus] *)

Lemma Forall2_update (A : Type) (R : A -> A -> Prop) (f : A -> A)
    (l : list A) :
  (forall a, R a (f a)) -> Forall2 R l (map f l).
Proof. intros H. induction l; simpl; constructor; auto. Qed.

(** X18. Whatever the outcome, [updateStatus] never adds, removes or
    reorders rows and never touches the profile table: a row afterwards is
    the row before, or, when its id is the project's, the row before with
    only its status replaced by the new one. *)
Theorem update_status_touches_one_column
    (e : env) (projectId newStatus : string) (s : state) (w : world) :
  Forall2
    (fun before after =>
       after = before \/
       (id before = projectId /\ after = with_status newStatus before))
    (service_requests (db w))
    (service_requests
       (db (snd (updateStatus e projectId newStatus (s, w))))) /\
  profiles_table (db (snd (updateStatus e projectId newStatus (s, w)))) =
    profiles_table (db w).
Proof.
  unfold updateStatus. destruct (status_update_fails e); simpl.
  - split; [|reflexivity]. rewrite <- (map_id (service_requests (db w))) at 2.
    apply Forall2_update. auto.
  - match goal with
    | |- context [refetch e (?s0, ?w0)] =>
        destruct (refetch_frame e s0 w0) as (-> & _)
    end. simpl. split; [|reflexivity].
    unfold update_where_id. apply Forall2_update. intros a.
    destruct (id a =? projectId) eqn:E; [|now left].
    right. apply String.eqb_eq in E. auto.
Qed.

(** X19. After a status update and a refetch that both succeed, the list
    is exactly the rows the store now holds whose [assigned_pm_id] is the
    PM's id, newest first; every listed project with the updated id shows
    the new status, whatever that status is, and the toast "Status updated"
    was shown. *)
Theorem updated_status_is_listed
    (e : env) (projectId newStatus : string) (s : state) (w : world)
    (p : VerifyOtp.pm_public) :
  status_update_fails e = false ->
  projects_select_fails e = false ->
  pm s = Some p ->
  Forall (fun r => id r = projectId -> status r = newStatus)
         (projects (fst (updateStatus e projectId newStatus (s, w)))) /\
  (exists others,
     Permutation
       (service_requests
          (db (snd (updateStatus e projectId newStatus (s, w)))))
       (projects (fst (updateStatus e projectId newStatus (s, w)))
        ++ others) /\
     Forall (fun r => assigned_pm_id r = Some (VerifyOtp.id p))
            (projects (fst (updateStatus e projectId newStatus (s, w)))) /\
     Forall (fun r => assigned_pm_id r <> Some (VerifyOtp.id p)) others) /\
  newest_first (projects (fst (updateStatus e projectId newStatus (s, w)))) /\
  toasts (snd (updateStatus e projectId newStatus (s, w))) =
    toasts w ++ [ {| toast_title := "Status updated";
                     toast_description := None;
                     toast_variant := None |} ].
Proof.
  intros Hu Hf Hpm. unfold updateStatus. rewrite Hu.
  unfold refetch. cbn [fst]. rewrite Hpm.
  match goal with
  | |- context [fetchProjects e ?i (?s0, ?w0)] =>
      destruct (fetchProjects_frame e i s0 w0) as (-> & _)
  end.
  rewrite fetchProjects_projects, fetchProjects_toasts by exact Hf.
  simpl.
  split; [|split; [apply select_projects_partition
                  |split; [apply select_projects_newest_first|reflexivity]]].
  apply Forall_forall. intros r Hr Hid.
  apply (Permutation_in _ (select_projects_perm _ _)) in Hr.
  apply filter_In in Hr as [Hr _]. unfold update_where_id in Hr.
  apply in_map_iff in Hr as (r0 & Hr0 & _).
  destruct (id r0 =? projectId) eqn:E.
  - now subst r.
  - subst r. apply String.eqb_neq in E. contradiction.
Qed.

Lemma updated_status_is_listed_witness :
  projects (fst (updateStatus calm "req-1" "completed"
                   (sample_state, sample_world))) =
    [ sample_request "req-2" "in_progress" (Some "kickoff") 30
                     "user-2" "pm-1";
      sample_request "req-1" "completed" None 10 "user-1" "pm-1" ] /\
  Forall (fun r => id r = "req-1" -> status r = "completed")
         (projects (fst (updateStatus calm "req-1" "completed"
                           (sample_state, sample_world)))) /\
  (exists others,
     Permutation
       (service_requests
          (db (snd (updateStatus calm "req-1" "completed"
                      (sample_state, sample_world)))))
       (projects (fst (updateStatus calm "req-1" "completed"
                         (sample_state, sample_world)))
        ++ others) /\
     Forall (fun r => assigned_pm_id r =
                      Some (VerifyOtp.id
                              (VerifyOtp.public_fields VerifyOtp.sample_pm)))
            (projects (fst (updateStatus calm "req-1" "completed"
                              (sample_state, sample_world)))) /\
     Forall (fun r => assigned_pm_id r <>
                      Some (VerifyOtp.id
                              (VerifyOtp.public_fields VerifyOtp.sample_pm)))
            others) /\
  newest_first (projects (fst (updateStatus calm "req-1" "completed"
                                 (sample_state, sample_world)))) /\
  toasts (snd (updateStatus calm "req-1" "completed"
                 (sample_state, sample_world))) =
    toasts sample_world ++ [ {| toast_title := "Status updated";
                                toast_description := None;
                                toast_variant := None |} ].
Proof.
  split; [reflexivity|].
  apply (updated_status_is_listed calm "req-1" "completed"
           sample_state sample_world
           (VerifyOtp.public_fields VerifyOtp.sample_pm)); reflexivity.
Defined.

(** ** [saveNote] *)

Lemma prefix_empty (b : string) : String.prefix "" b = true.
Proof. destruct b; reflexivity. Qed.

Lemma prefix_append (a b : string) : String.prefix a (a ++ b)%string = true.
Proof.
  induction a as [|c a IH]; simpl; [apply prefix_empty|].
  destruct (ascii_dec c c) as [_|Hne]; [exact IH|contradiction].
Qed.

Lemma append_associative (a b c : string) :
  (a ++ (b ++ c))%string = ((a ++ b) ++ c)%string.
Proof. induction a as [|x a IH]; simpl; [reflexivity|]. now rewrite IH. Qed.

Lemma find_first_match (A : Type) (f : A -> bool) (l1 l2 : list A)
    (x : A) :
  Forall (fun y => f y = false) l1 -> f x = true ->
  find f (l1 ++ x :: l2) = Some x.
Proof.
  intros H Hx. induction H as [|y l1 Hy _ IH]; simpl.
  - now rewrite Hx.
  - now rewrite Hy.
Qed.

(** X20. A note that is not blank and whose update succeeds is appended to
    the copy of the notes the page holds, not to what the store holds: when
    the first listed project with the given id has the non-empty notes
    [old], every row of the store with that id then carries [old], a blank
    line, and the draft stamped with the local time in brackets, whatever
    notes the store had; every other row is as it was, and the draft is
    cleared. *)
Theorem saved_note_appends_to_local_copy
    (e : env) (projectId : string) (s : state) (w : world)
    (before after : list ServiceRequest) (project : ServiceRequest)
    (old : string) :
  blank (noteText s) = false ->
  notes_update_fails e = false ->
  projects s = before ++ project :: after ->
  Forall (fun q => id q <> projectId) before ->
  id project = projectId ->
  notes project = Some old ->
  old <> "" ->
  Forall2
    (fun r r' =>
       (id r = projectId ->
        notes r' =
          Some (old ++ String "010" (String "010"
                  ("[" ++ locale_now e ++ "] " ++ noteText s)))%string /\
        r' = with_notes
               (old ++ String "010" (String "010"
                  ("[" ++ locale_now e ++ "] " ++ noteText s)))%string r) /\
       (id r <> projectId -> r' = r))
    (service_requests (db w))
    (service_requests (db (snd (saveNote e projectId (s, w))))) /\
  noteText (fst (saveNote e projectId (s, w))) = "" /\
  savingNote (fst (saveNote e projectId (s, w))) = false.
Proof.
  intros Hb Hu Hlist Hbefore Hid Hnotes Hold. unfold saveNote.
  rewrite Hb, Hu.
  assert (Hex : existing_notes projectId (projects s) = old).
  { unfold existing_notes. rewrite Hlist.
    rewrite (find_first_match ServiceRequest
               (fun p => id p =? projectId) before after project).
    - now rewrite Hnotes.
    - apply Forall_forall. intros q Hq. rewrite Forall_forall in Hbefore.
      apply String.eqb_neq. now apply Hbefore.
    - now apply String.eqb_eq. }
  cbn [set_savingNote projects noteText]. rewrite Hex. unfold updated_notes.
  apply String.eqb_neq in Hold. rewrite Hold.
  match goal with
  | |- context [refetch e (?s0, ?w0)] =>
      destruct (refetch_frame e s0 w0) as (Hdb & _ & _ & _ & Hnote & _);
      destruct (refetch e (s0, w0)) as [s1 w1]
  end.
  simpl in *. rewrite Hdb. simpl.
  split; [|split; [exact Hnote|reflexivity]].
  unfold update_where_id. apply Forall2_update. intros r. split.
  - intros Hr. apply String.eqb_eq in Hr. rewrite Hr. split; reflexivity.
  - intros Hr. apply String.eqb_neq in Hr. now rewrite Hr.
Qed.

Lemma saved_note_appends_to_local_copy_witness :
  service_requests (db (snd (saveNote calm "req-2"
                               (stale_state, fresh_world)))) =
    [ sample_request "req-1" "pending" None 10 "user-1" "pm-1";
      sample_request "req-2" "in_progress"
        (Some ("kickoff" ++ String "010" (String "010"
                 "[1/2/2026, 10:00:00 AM] called the client"))%string)
        30 "user-2" "pm-1";
      sample_request "req-3" "pending" None 20 "user-1" "pm-2" ] /\
  Forall2
    (fun r r' =>
       (id r = "req-2" ->
        notes r' =
          Some ("kickoff" ++ String "010" (String "010"
                  ("[" ++ locale_now calm ++ "] "
                   ++ noteText stale_state)))%string /\
        r' = with_notes
               ("kickoff" ++ String "010" (String "010"
                  ("[" ++ locale_now calm ++ "] "
                   ++ noteText stale_state)))%string r) /\
       (id r <> "req-2" -> r' = r))
    (service_requests (db fresh_world))
    (service_requests (db (snd (saveNote calm "req-2"
                                  (stale_state, fresh_world))))) /\
  noteText (fst (saveNote calm "req-2" (stale_state, fresh_world))) = "" /\
  savingNote (fst (saveNote calm "req-2" (stale_state, fresh_world)))
  = false.
Proof.
  split; [reflexivity|].
  apply (saved_note_appends_to_local_copy calm "req-2"
           stale_state fresh_world []
           [sample_request "req-1" "pending" None 10 "user-1" "pm-1"]
           (sample_request "req-2" "in_progress" (Some "kickoff") 30
                           "user-2" "pm-1")
           "kickoff").
  - reflexivity.
  - reflexivity.
  - reflexivity.
  - constructor.
  - reflexivity.
  - reflexivity.
  - discriminate.
Defined.

(** X21. A blank draft, or an update that fails, leaves the store as it was
    and keeps the draft in the text box; a blank draft moreover makes no
    store call and shows no toast, while a failed update shows the
    destructive toast "Failed to save note". *)
Theorem unsaved_note_changes_nothing
    (e : env) (projectId : string) (s : state) (w : world) :
  blank (noteText s) = true \/ notes_update_fails e = true ->
  db (snd (saveNote e projectId (s, w))) = db w /\
  noteText (fst (saveNote e projectId (s, w))) = noteText s /\
  projects (fst (saveNote e projectId (s, w))) = projects s /\
  calls (snd (saveNote e projectId (s, w))) =
    (if blank (noteText s) then calls w
     else calls w ++ [UpdateNotes projectId (note_written e projectId s)]) /\
  toasts (snd (saveNote e projectId (s, w))) =
    (if blank (noteText s) then toasts w
     else toasts w ++ [ {| toast_title := "Error";
                           toast_description := Some "Failed to save note";
                           toast_variant := Some "destructive" |} ]).
Proof.
  intros H. unfold saveNote.
  destruct (blank (noteText s)) eqn:Eb; [repeat split|].
  destruct H as [H|H]; [discriminate|]. rewrite H. simpl. repeat split.
Qed.

Lemma unsaved_note_changes_nothing_witness :
  db (snd (saveNote calm "req-2"
             ({| pm := None; projects := []; profiles := []; loading := false;
                 noteText := "   "; savingNote := false |},
              sample_world))) = db sample_world.
Proof.
  apply (unsaved_note_changes_nothing calm "req-2"
           {| pm := None; projects := []; profiles := []; loading := false;
              noteText := "   "; savingNote := false |}
           sample_world).
  left. reflexivity.
Defined.

(** ** The statistics *)

(** X22. The total is the sum of the three status counters and the
    projects in any other status: a cancelled project is in the total and in
    none of the three. *)
Theorem stats_partition (shown : list ServiceRequest) :
  total (stats_of shown) =
  active (stats_of shown) + pending (stats_of shown)
  + completed (stats_of shown) + List.length (filter other_status shown).
Proof.
  unfold stats_of, other_status. simpl.
  induction shown as [|p shown IH]; simpl; [reflexivity|].
  destruct (status p =? "in_progress") eqn:E1.
  - apply String.eqb_eq in E1. rewrite E1. simpl. lia.
  - destruct (status p =? "pending") eqn:E2.
    + apply String.eqb_eq in E2. rewrite E2. simpl. lia.
    + destruct (status p =? "completed"); simpl; lia.
Qed.

End DashboardFacts.


(* ===================================================================== *)
(** * Part VIII: the login page together with the verification function   *)
(* ===================================================================== *)

Module LoginFacts.
Import Login.

Local Open Scope string_scope.
Local Open Scope list_scope.

Lemma six_units_not_empty (code : string) :
  utf16_length code = 6 -> code <> "".
Proof. intros H ->. discriminate H. Qed.

Lemma post_validated (mail code : string) :
  VerifyOtp.method (VerifyOtp.post (VerifyOtp.Str mail) (VerifyOtp.Str code))
  <> "OPTIONS" /\
  VerifyOtp.body (VerifyOtp.post (VerifyOtp.Str mail) (VerifyOtp.Str code)) =
  VerifyOtp.JsonBody (VerifyOtp.Str mail) (VerifyOtp.Str code).
Proof. split; [discriminate|reflexivity]. Qed.

(** What one click does once the code has six units. *)
Lemma verifyOtp_sent (ce : client_env) (se : VerifyOtp.env) (s : state)
    (b : browser) (tables : VerifyOtp.database) :
  utf16_length (otp s) = 6 ->
  verifyOtp ce se s b tables =
  let out :=
    VerifyOtp.serve se
      (VerifyOtp.post (VerifyOtp.Str (email s)) (VerifyOtp.Str (otp s)))
      tables in
  match net ce with
  | Unreachable message =>
      {| ui := set_loading false (set_loading true s);
         page := show (Dashboard.error_toast message) b;
         server_db := tables; server_calls := [] |}
  | ResponseLost message =>
      {| ui := set_loading false (set_loading true s);
         page := show (Dashboard.error_toast message) b;
         server_db := VerifyOtp.db_after out;
         server_calls := VerifyOtp.db_calls out |}
  | Delivered =>
      {| ui := set_loading false (set_loading true s);
         page :=
           match handle_response ce (VerifyOtp.reply out) b with
           | Done b' => b'
           | Thrown message b' => show (Dashboard.error_toast message) b'
           end;
         server_db := VerifyOtp.db_after out;
         server_calls := VerifyOtp.db_calls out |}
  end.
Proof.
  intros H. unfold verifyOtp. rewrite H. simpl.
  destruct (net ce); reflexivity.
Qed.

(** X24. The page goes to the dashboard only when the function matched the
    typed email and six-unit code against a stored record that was
    unverified and unexpired; the session item is then the public fields of
    a [project_managers] row with that email, and the toast greets that
    PM. *)
Theorem dashboard_entered_only_after_match
    (ce : client_env) (se : VerifyOtp.env) (s : state) (b : browser)
    (tables : VerifyOtp.database) :
  location b <> "/pm/dashboard" ->
  location (page (verifyOtp ce se s b tables)) = "/pm/dashboard" ->
  exists (m : VerifyOtp.otp_row) (p : VerifyOtp.pm_row),
    utf16_length (otp s) = 6 /\
    In m (VerifyOtp.otp_verifications tables) /\
    (VerifyOtp.otp_email m = email s /\ VerifyOtp.otp_code m = otp s /\
     VerifyOtp.verified m = false /\
     (VerifyOtp.now se < VerifyOtp.expires_at m)%Z) /\
    In p (VerifyOtp.project_managers tables) /\
    VerifyOtp.pm_email p = email s /\
    session (page (verifyOtp ce se s b tables)) =
      Some (PmJson (VerifyOtp.public_fields p)) /\
    toasts (page (verifyOtp ce se s b tables)) =
      toasts b ++ [welcome (VerifyOtp.public_fields p)] /\
    loading (ui (verifyOtp ce se s b tables)) = false.
Proof.
  intros Hb. destruct (Nat.eq_dec (utf16_length (otp s)) 6) as [H6|H6].
  2:{ unfold verifyOtp. apply Nat.eqb_neq in H6. rewrite H6. simpl.
      intros H. contradiction. }
  rewrite (verifyOtp_sent ce se s b tables H6). cbv zeta.
  destruct (net ce); simpl; try (intros H; contradiction).
  unfold handle_response.
  destruct (VerifyOtp.payload
              (VerifyOtp.reply
                 (VerifyOtp.serve se
                    (VerifyOtp.post (VerifyOtp.Str (email s))
                                    (VerifyOtp.Str (otp s))) tables)))
    as [|err|ok_flag msg pm tok] eqn:Ep;
    try (destruct (ok _); simpl; intros H; contradiction);
    try (simpl; intros H; contradiction).
  destruct (VerifyOtpMore.login_body_origin se _ tables _ _ _ _ Ep)
    as (mail & code & m & p & Hbody & Hm & Hc & Hp & Hpe & ->).
  simpl in Hbody. injection Hbody as <- <-.
  simpl in Hc, Hpe. destruct Hc as ([= Hme] & [= Hmc] & Hv & Ht).
  injection Hpe as Hpe.
  destruct (ok _); simpl; [|intros H; contradiction].
  intros _. exists m, p. repeat split; auto.
Qed.

Lemma dashboard_entered_only_after_match_witness :
  exists (m : VerifyOtp.otp_row) (p : VerifyOtp.pm_row),
    utf16_length (otp (typed "asha@example.com" "222222")) = 6 /\
    In m (VerifyOtp.otp_verifications VerifyOtp.sample_db) /\
    (VerifyOtp.otp_email m = email (typed "asha@example.com" "222222") /\
     VerifyOtp.otp_code m = otp (typed "asha@example.com" "222222") /\
     VerifyOtp.verified m = false /\
     (VerifyOtp.now VerifyOtp.sample_env < VerifyOtp.expires_at m)%Z) /\
    In p (VerifyOtp.project_managers VerifyOtp.sample_db) /\
    VerifyOtp.pm_email p = email (typed "asha@example.com" "222222") /\
    session (page (verifyOtp online VerifyOtp.sample_env
                     (typed "asha@example.com" "222222") login_page
                     VerifyOtp.sample_db)) =
      Some (PmJson (VerifyOtp.public_fields p)) /\
    toasts (page (verifyOtp online VerifyOtp.sample_env
                    (typed "asha@example.com" "222222") login_page
                    VerifyOtp.sample_db)) =
      toasts login_page ++ [welcome (VerifyOtp.public_fields p)] /\
    loading (ui (verifyOtp online VerifyOtp.sample_env
                   (typed "asha@example.com" "222222") login_page
                   VerifyOtp.sample_db)) = false.
Proof.
  apply (dashboard_entered_only_after_match online VerifyOtp.sample_env
           (typed "asha@example.com" "222222") login_page
           VerifyOtp.sample_db).
  - discriminate.
  - reflexivity.
Defined.

(** X25. When the request is delivered with a non-empty email and a
    six-unit code that matches no unverified, unexpired record, the page
    shows the function's message "Invalid or expired OTP" as a destructive
    toast, stores no session, stays where it is and switches the spinner
    off; the function's tables are unchanged. *)
Theorem rejected_code_is_reported
    (ce : client_env) (se : VerifyOtp.env) (s : state) (b : browser)
    (tables : VerifyOtp.database) :
  net ce = Delivered ->
  utf16_length (otp s) = 6 ->
  email s <> "" ->
  (forall r, In r (VerifyOtp.otp_verifications tables) ->
             ~ (VerifyOtp.otp_email r = email s /\
                VerifyOtp.otp_code r = otp s /\
                VerifyOtp.verified r = false /\
                (VerifyOtp.now se < VerifyOtp.expires_at r)%Z)) ->
  page (verifyOtp ce se s b tables) =
    {| toasts := toasts b ++
                 [ {| Dashboard.toast_title := "Error";
                      Dashboard.toast_description :=
                        Some "Invalid or expired OTP";
                      Dashboard.toast_variant := Some "destructive" |} ];
       session := session b;
       location := location b |} /\
  server_db (verifyOtp ce se s b tables) = tables /\
  loading (ui (verifyOtp ce se s b tables)) = false.
Proof.
  intros Hnet H6 Hmail Hnone.
  rewrite (verifyOtp_sent ce se s b tables H6). cbv zeta. rewrite Hnet.
  destruct (post_validated (email s) (otp s)) as [Hm Hb].
  rewrite (VerifyOtpFacts.serve_validated se _ tables _ _ Hm Hb
             (VerifyOtpFacts.truthy_Str _ Hmail)
             (VerifyOtpFacts.truthy_Str _ (six_units_not_empty _ H6))).
  rewrite (VerifyOtpMore.otp_query_none (VerifyOtp.now se) (email s) (otp s)
             (VerifyOtp.otp_verifications tables) Hnone).
  destruct (VerifyOtp.otp_select_fails se); simpl; repeat split.
Qed.

Lemma rejected_code_is_reported_witness :
  page (verifyOtp online VerifyOtp.sample_env
          (typed "asha@example.com" "000000") login_page
          VerifyOtp.sample_db) =
    {| toasts := toasts login_page ++
                 [ {| Dashboard.toast_title := "Error";
                      Dashboard.toast_description :=
                        Some "Invalid or expired OTP";
                      Dashboard.toast_variant := Some "destructive" |} ];
       session := session login_page;
       location := location login_page |} /\
  server_db (verifyOtp online VerifyOtp.sample_env
               (typed "asha@example.com" "000000") login_page
               VerifyOtp.sample_db) = VerifyOtp.sample_db /\
  loading (ui (verifyOtp online VerifyOtp.sample_env
                 (typed "asha@example.com" "000000") login_page
                 VerifyOtp.sample_db)) = false.
Proof.
  apply (rejected_code_is_reported online VerifyOtp.sample_env
           (typed "asha@example.com" "000000") login_page
           VerifyOtp.sample_db).
  - reflexivity.
  - reflexivity.
  - discriminate.
  - intros r [<-|[<-|[]]] (_ & Hc & _); discriminate Hc.
Defined.

(** X26. The function's store is only ever called for a six-unit code
    typed together with a non-empty email: a shorter or longer code, an empty
    email or an unreachable function leave the log of store calls empty. *)
Theorem store_reached_only_with_typed_login
    (ce : client_env) (se : VerifyOtp.env) (s : state) (b : browser)
    (tables : VerifyOtp.database) :
  server_calls (verifyOtp ce se s b tables) <> [] ->
  utf16_length (otp s) = 6 /\ email s <> "" /\
  (forall message, net ce <> Unreachable message).
Proof.
  destruct (Nat.eq_dec (utf16_length (otp s)) 6) as [H6|H6].
  2:{ unfold verifyOtp. apply Nat.eqb_neq in H6. rewrite H6. simpl.
      intros H. contradiction. }
  rewrite (verifyOtp_sent ce se s b tables H6). cbv zeta.
  intros H. split; [exact H6|].
  destruct (net ce) as [|message|message]; simpl in H;
    try contradiction.
  - split; [|discriminate]. intros Hmail. apply H.
    destruct (post_validated (email s) (otp s)) as [Hm Hb].
    rewrite (VerifyOtpMore.serve_missing se _ tables _ _ Hm Hb).
    + reflexivity.
    + left. rewrite Hmail. reflexivity.
  - split; [|discriminate]. intros Hmail. apply H.
    destruct (post_validated (email s) (otp s)) as [Hm Hb].
    rewrite (VerifyOtpMore.serve_missing se _ tables _ _ Hm Hb).
    + reflexivity.
    + left. rewrite Hmail. reflexivity.
Qed.

Lemma store_reached_only_with_typed_login_witness :
  utf16_length (otp (typed "asha@example.com" "222222")) = 6 /\
  email (typed "asha@example.com" "222222") <> "" /\
  (forall message, net online <> Unreachable message).
Proof.
  apply (store_reached_only_with_typed_login online VerifyOtp.sample_env
           (typed "asha@example.com" "222222") login_page
           VerifyOtp.sample_db).
  discriminate.
Defined.

(** X27. When the function ran but its response was lost, the page shows
    the network error and stores no session, yet the code is spent: with
    exactly one live record for the typed email and code and a persisted
    update, typing the same code again at any later time is answered
    "Invalid or expired OTP". *)
Theorem lost_response_spends_code
    (ce1 ce2 : client_env) (se1 se2 : VerifyOtp.env) (s : state)
    (b : browser) (tables : VerifyOtp.database) (m : VerifyOtp.otp_row)
    (message : string) :
  net ce1 = ResponseLost message ->
  net ce2 = Delivered ->
  utf16_length (otp s) = 6 ->
  email s <> "" ->
  VerifyOtp.otp_candidates (VerifyOtp.now se1) (VerifyOtp.Str (email s))
    (VerifyOtp.Str (otp s)) (VerifyOtp.otp_verifications tables) = [m] ->
  VerifyOtp.otp_select_fails se1 = false ->
  VerifyOtp.otp_update_fails se1 = false ->
  (VerifyOtp.now se1 <= VerifyOtp.now se2)%Z ->
  page (verifyOtp ce1 se1 s b tables) =
    show (Dashboard.error_toast message) b /\
  session (page (verifyOtp ce1 se1 s b tables)) = session b /\
  page (verifyOtp ce2 se2 s (page (verifyOtp ce1 se1 s b tables))
                  (server_db (verifyOtp ce1 se1 s b tables))) =
    show (Dashboard.error_toast "Invalid or expired OTP")
         (page (verifyOtp ce1 se1 s b tables)).
Proof.
  intros Hn1 Hn2 H6 Hmail Hone Hs Hu Hlater.
  destruct (post_validated (email s) (otp s)) as [Hm Hb].
  pose proof (VerifyOtpFacts.serve_validated se1 _ tables _ _ Hm Hb
                (VerifyOtpFacts.truthy_Str _ Hmail)
                (VerifyOtpFacts.truthy_Str _ (six_units_not_empty _ H6)))
    as H1.
  rewrite Hs, (VerifyOtpMore.otp_query_single _ _ _ _ _ Hone) in H1.
  rewrite (verifyOtp_sent ce1 se1 s b tables H6). cbv zeta.
  rewrite Hn1, H1. simpl. split; [reflexivity|]. split; [reflexivity|].
  rewrite (verifyOtp_sent ce2 se2 s _ _ H6). cbv zeta. rewrite Hn2.
  rewrite (VerifyOtpFacts.serve_validated se2 _ _ _ _ Hm Hb
             (VerifyOtpFacts.truthy_Str _ Hmail)
             (VerifyOtpFacts.truthy_Str _ (six_units_not_empty _ H6))).
  unfold VerifyOtp.after_update. rewrite Hu. simpl.
  rewrite (VerifyOtpMore.consumed_code_unmatched _ _ _ _ _ _ Hone Hlater).
  destruct (VerifyOtp.otp_select_fails se2); reflexivity.
Qed.

Lemma lost_response_spends_code_witness :
  page (verifyOtp
          {| net := ResponseLost "Failed to fetch"; json_error := "";
             type_error := "" |}
          VerifyOtp.sample_env (typed "asha@example.com" "222222")
          login_page VerifyOtp.sample_db) =
    show (Dashboard.error_toast "Failed to fetch") login_page /\
  session (page (verifyOtp
                   {| net := ResponseLost "Failed to fetch";
                      json_error := ""; type_error := "" |}
                   VerifyOtp.sample_env (typed "asha@example.com" "222222")
                   login_page VerifyOtp.sample_db)) = session login_page /\
  page (verifyOtp online VerifyOtp.sample_env
          (typed "asha@example.com" "222222")
          (page (verifyOtp
                   {| net := ResponseLost "Failed to fetch";
                      json_error := ""; type_error := "" |}
                   VerifyOtp.sample_env (typed "asha@example.com" "222222")
                   login_page VerifyOtp.sample_db))
          (server_db (verifyOtp
                        {| net := ResponseLost "Failed to fetch";
                           json_error := ""; type_error := "" |}
                        VerifyOtp.sample_env
                        (typed "asha@example.com" "222222")
                        login_page VerifyOtp.sample_db))) =
    show (Dashboard.error_toast "Invalid or expired OTP")
         (page (verifyOtp
                  {| net := ResponseLost "Failed to fetch";
                     json_error := ""; type_error := "" |}
                  VerifyOtp.sample_env (typed "asha@example.com" "222222")
                  login_page VerifyOtp.sample_db)).
Proof.
  apply (lost_response_spends_code
           {| net := ResponseLost "Failed to fetch"; json_error := "";
              type_error := "" |}
           online VerifyOtp.sample_env VerifyOtp.sample_env
           (typed "asha@example.com" "222222") login_page
           VerifyOtp.sample_db VerifyOtp.newer_otp "Failed to fetch").
  - reflexivity.
  - reflexivity.
  - reflexivity.
  - discriminate.
  - reflexivity.
  - reflexivity.
  - reflexivity.
  - simpl. lia.
Defined.

(** X28. Login and dashboard together: once the login page has gone to the
    dashboard, the stored session is that of a [project_managers] row with
    the typed email, and the dashboard mounted on that session lists,
    newest first, exactly the rows of [service_requests] whose
    [assigned_pm_id] is that row's id (its project query succeeding). *)
Theorem login_then_dashboard_lists_own_projects
    (ce : client_env) (se : VerifyOtp.env) (s : state) (b : browser)
    (tables : VerifyOtp.database)
    (de : Dashboard.env) (ds : Dashboard.state) (dw : Dashboard.world)
    (pm : VerifyOtp.pm_public) :
  location b <> "/pm/dashboard" ->
  location (page (verifyOtp ce se s b tables)) = "/pm/dashboard" ->
  session (page (verifyOtp ce se s b tables)) = Some (PmJson pm) ->
  Dashboard.session dw = Some pm ->
  Dashboard.projects_select_fails de = false ->
  exists p : VerifyOtp.pm_row,
    In p (VerifyOtp.project_managers tables) /\
    VerifyOtp.pm_email p = email s /\
    pm = VerifyOtp.public_fields p /\
    Dashboard.pm (fst (Dashboard.mount de (ds, dw))) = Some pm /\
    (exists others,
       Permutation
         (Dashboard.service_requests (Dashboard.db dw))
         (Dashboard.projects (fst (Dashboard.mount de (ds, dw))) ++ others)
       /\
       Forall (fun r => Dashboard.assigned_pm_id r =
                        Some (VerifyOtp.pm_id p))
              (Dashboard.projects (fst (Dashboard.mount de (ds, dw)))) /\
       Forall (fun r => Dashboard.assigned_pm_id r <>
                        Some (VerifyOtp.pm_id p))
              others) /\
    Dashboard.newest_first
      (Dashboard.projects (fst (Dashboard.mount de (ds, dw)))).
Proof.
  intros Hb Hloc Hsess Hdw Hf.
  assert (Hp : exists p : VerifyOtp.pm_row,
             In p (VerifyOtp.project_managers tables) /\
             VerifyOtp.pm_email p = email s /\
             pm = VerifyOtp.public_fields p).
  { revert Hloc Hsess.
    destruct (Nat.eq_dec (utf16_length (otp s)) 6) as [H6|H6].
    2:{ unfold verifyOtp. apply Nat.eqb_neq in H6. rewrite H6. simpl.
        intros H. contradiction. }
    rewrite (verifyOtp_sent ce se s b tables H6). cbv zeta.
    destruct (net ce); simpl; try (intros H; contradiction).
    unfold handle_response.
    destruct (VerifyOtp.payload
                (VerifyOtp.reply
                   (VerifyOtp.serve se
                      (VerifyOtp.post (VerifyOtp.Str (email s))
                                      (VerifyOtp.Str (otp s))) tables)))
      as [|err|ok_flag msg pm' tok] eqn:Ep;
      try (destruct (ok _); simpl; intros H; contradiction);
      try (simpl; intros H; contradiction).
    destruct (VerifyOtpMore.login_body_origin se _ tables _ _ _ _ Ep)
      as (mail & code & m & p & Hbody & _ & _ & Hp & Hpe & ->).
    simpl in Hbody. injection Hbody as <- <-.
    simpl in Hpe. injection Hpe as Hpe.
    destruct (ok _); simpl; [|intros H; contradiction].
    intros _ [= <-]. exists p. auto. }
  destruct Hp as (p & Hp & Hpe & ->). exists p.
  split; [exact Hp|]. split; [exact Hpe|]. split; [reflexivity|].
  unfold Dashboard.mount. rewrite Hdw.
  destruct (DashboardFacts.fetchProjects_frame de
              (VerifyOtp.id (VerifyOtp.public_fields p))
              (Dashboard.set_pm (VerifyOtp.public_fields p) ds) dw)
    as (_ & _ & _ & Hpm & _).
  rewrite Hpm.
  rewrite (DashboardFacts.fetchProjects_projects de _ _ dw Hf).
  simpl. split; [reflexivity|].
  split; [apply DashboardFacts.select_projects_partition
         |apply DashboardFacts.select_projects_newest_first].
Qed.

Lemma login_then_dashboard_lists_own_projects_witness :
  Dashboard.projects
    (fst (Dashboard.mount Dashboard.calm
            (Dashboard.sample_state,
             {| Dashboard.db := Dashboard.sample_store;
                Dashboard.calls := []; Dashboard.toasts := [];
                Dashboard.session :=
                  Some (VerifyOtp.public_fields VerifyOtp.sample_pm);
                Dashboard.location := "/pm/dashboard" |}))) =
    [ Dashboard.sample_request "req-2" "in_progress" (Some "kickoff") 30
                               "user-2" "pm-1";
      Dashboard.sample_request "req-1" "pending" None 10 "user-1" "pm-1" ] /\
  exists p : VerifyOtp.pm_row,
    In p (VerifyOtp.project_managers VerifyOtp.sample_db) /\
    VerifyOtp.pm_email p = email (typed "asha@example.com" "222222") /\
    VerifyOtp.public_fields VerifyOtp.sample_pm = VerifyOtp.public_fields p
    /\
    Dashboard.pm
      (fst (Dashboard.mount Dashboard.calm
              (Dashboard.sample_state,
               {| Dashboard.db := Dashboard.sample_store;
                  Dashboard.calls := []; Dashboard.toasts := [];
                  Dashboard.session :=
                    Some (VerifyOtp.public_fields VerifyOtp.sample_pm);
                  Dashboard.location := "/pm/dashboard" |}))) =
      Some (VerifyOtp.public_fields VerifyOtp.sample_pm) /\
    (exists others,
       Permutation
         (Dashboard.service_requests Dashboard.sample_store)
         (Dashboard.projects
            (fst (Dashboard.mount Dashboard.calm
                    (Dashboard.sample_state,
                     {| Dashboard.db := Dashboard.sample_store;
                        Dashboard.calls := []; Dashboard.toasts := [];
                        Dashboard.session :=
                          Some (VerifyOtp.public_fields VerifyOtp.sample_pm);
                        Dashboard.location := "/pm/dashboard" |})))
          ++ others) /\
       Forall (fun r => Dashboard.assigned_pm_id r =
                        Some (VerifyOtp.pm_id p))
              (Dashboard.projects
                 (fst (Dashboard.mount Dashboard.calm
                         (Dashboard.sample_state,
                          {| Dashboard.db := Dashboard.sample_store;
                             Dashboard.calls := []; Dashboard.toasts := [];
                             Dashboard.session :=
                               Some (VerifyOtp.public_fields
                                       VerifyOtp.sample_pm);
                             Dashboard.location := "/pm/dashboard" |}))))
       /\
       Forall (fun r => Dashboard.assigned_pm_id r <>
                        Some (VerifyOtp.pm_id p))
              others) /\
    Dashboard.newest_first
      (Dashboard.projects
         (fst (Dashboard.mount Dashboard.calm
                 (Dashboard.sample_state,
                  {| Dashboard.db := Dashboard.sample_store;
                     Dashboard.calls := []; Dashboard.toasts := [];
                     Dashboard.session :=
                       Some (VerifyOtp.public_fields VerifyOtp.sample_pm);
                     Dashboard.location := "/pm/dashboard" |})))).
Proof.
  split; [reflexivity|].
  apply (login_then_dashboard_lists_own_projects online
           VerifyOtp.sample_env (typed "asha@example.com" "222222")
           login_page VerifyOtp.sample_db Dashboard.calm
           Dashboard.sample_state
           {| Dashboard.db := Dashboard.sample_store;
              Dashboard.calls := []; Dashboard.toasts := [];
              Dashboard.session :=
                Some (VerifyOtp.public_fields VerifyOtp.sample_pm);
              Dashboard.location := "/pm/dashboard" |}
           (VerifyOtp.public_fields VerifyOtp.sample_pm)).
  - discriminate.
  - reflexivity.
  - reflexivity.
  - reflexivity.
  - reflexivity.
Defined.

End LoginFacts.
